(** * Tron Arena: the authoritative simulation core, embedded and verified

    A shallow embedding of [src/game.js] (trail ring buffer, spatial index,
    motion, collision detection, round start, state codec), of the
    list-per-cell variant of the spatial index kept next to it, and of the
    host side of [src/network.js] (round and match life cycle).

    Conventions of the embedding.
    - A JavaScript number that holds a coordinate, an angle or a speed is a
      rational ([Q]); every finite double is a rational, and [Math.cos] and
      [Math.sin] are functions from doubles to doubles, so they appear as
      the operations of a class [MathLib].  The rounding of each floating
      point operation and of the [Float32Array] stores is not modelled.
    - A JavaScript number that holds a counter, an index, a score or an
      encoded wire value is an integer ([Z]); [v | 0] is [JS.toInt32] with
      its 32-bit wrap-around written out, [%] is [Z.rem].
    - An object used as a dictionary ([players]) is an association list in
      the order [for ... in] and [Object.keys] enumerate it.
    - Module level variables of game.js are the fields of [Game.Globals];
      the fields of the [Network] instance are the fields of [Net.t].
      [Date.now()] is an argument [now]. *)

From Stdlib Require Import ZArith QArith Qround Qabs Qminmax List String Ascii Lia Lqa Bool.
From stdpp Require Import list.
Import ListNotations.
Local Open Scope Z_scope.

(** ** JavaScript primitives used by the sources *)

Module JS.

(** Two's complement wrap of an integer into [bits] bits. *)
Definition wrap (bits : Z) (z : Z) : Z :=
  (z + 2 ^ (bits - 1)) mod 2 ^ bits - 2 ^ (bits - 1).

(** Truncation toward zero, the first step of ToInt32. *)
Definition Qtrunc (q : Q) : Z := Z.quot (Qnum q) (Zpos (Qden q)).

(** [q | 0]. *)
Definition toInt32 (q : Q) : Z := wrap 32 (Qtrunc q).

(** Stores into an [Int16Array], a [Uint8Array] and a [Uint16Array]. *)
Definition toInt16 (z : Z) : Z := wrap 16 z.
Definition toUint8 (z : Z) : Z := z mod 2 ^ 8.
Definition toUint16 (z : Z) : Z := z mod 2 ^ 16.

Definition Qltb (a b : Q) : bool := negb (Qle_bool b a).
Definition Qgtb (a b : Q) : bool := Qltb b a.

(** Strings are sequences of UTF-16 code units. *)
Definition jsstring := list N.

Definition str (s : string) : jsstring :=
  map N_of_ascii (list_ascii_of_string s).

(** WhiteSpace and LineTerminator of ECMAScript, what [trim] strips. *)
Definition isWhiteSpace (c : N) : bool :=
  (existsb (N.eqb c)
     [9; 10; 11; 12; 13; 32; 160; 5760; 8232; 8233; 8239; 8287; 12288; 65279]
   || ((8192 <=? c) && (c <=? 8202)))%N.

Fixpoint trimStart (s : jsstring) : jsstring :=
  match s with
  | [] => []
  | c :: r => if isWhiteSpace c then trimStart r else s
  end.

Definition trimEnd (s : jsstring) : jsstring := rev (trimStart (rev s)).

Definition trim (s : jsstring) : jsstring := trimEnd (trimStart s).

(** The values an argument such as [name] can hold. *)
Inductive value :=
| VUndefined
| VNull
| VBool (b : bool)
| VNumber (q : Q)
| VString (s : jsstring).

(** Typed arrays and plain arrays indexed by a JavaScript integer.  A
    store outside the array is ignored by a typed array; a load outside
    it is [undefined], which the model reads as the default [d]. *)
Definition aget {A} (d : A) (l : list A) (i : Z) : A :=
  if i <? 0 then d else default d (l !! Z.to_nat i).

Definition aset {A} (l : list A) (i : Z) (v : A) : list A :=
  if i <? 0 then l else <[Z.to_nat i := v]> l.

Definition alookup {A} (l : list A) (i : Z) : option A :=
  if i <? 0 then None else l !! Z.to_nat i.

(** [0, 1, ..., n-1], the index range of [for (let i = 0; i < n; i++)]. *)
Definition range (n : Z) : list Z := map Z.of_nat (seq 0 (Z.to_nat n)).

End JS.

(** ** Constants of game.js *)

Definition CANVAS_W : Z := 1400.
Definition CANVAS_H : Z := 900.
Definition BASE_SPEED : Q := 5 # 2.
Definition SPEED_INCREMENT : Q := 1 # 2.
Definition SPEED_INTERVAL : Q := 10 # 1.
Definition MAX_SPEED : Q := 8 # 1.
Definition TURN_SPEED : Q := 45 # 1000.
Definition TRAIL_MAX : Z := 600.
Definition COLLISION_RADIUS : Q := 4 # 1.
Definition COLLISION_RADIUS_SQ : Q := (COLLISION_RADIUS * COLLISION_RADIUS)%Q.
Definition COLLISION_SKIP_OWN : Z := 20.
Definition MAX_LIVES : Z := 6.

Definition GRID_CELL_SIZE : Z := 16.
(** [Math.ceil(1400 / 16)] and [Math.ceil(900 / 16)]. *)
Definition GRID_COLS : Z := Qceiling (inject_Z CANVAS_W / inject_Z GRID_CELL_SIZE)%Q.
Definition GRID_ROWS : Z := Qceiling (inject_Z CANVAS_H / inject_Z GRID_CELL_SIZE)%Q.
Definition GRID_TOTAL : Z := GRID_COLS * GRID_ROWS.

(** [Math.PI], the double nearest to pi. *)
Definition Math_PI : Q := 884279719003555 # 281474976710656.

Record Spawn := { spawn_x : Q; spawn_y : Q; spawn_angle : Q }.

Definition spawnConfigs : list Spawn :=
  [ {| spawn_x := 250 # 1;  spawn_y := 200 # 1; spawn_angle := (Math_PI * (1 # 4))%Q |};
    {| spawn_x := 1150 # 1; spawn_y := 200 # 1; spawn_angle := (Math_PI * (3 # 4))%Q |};
    {| spawn_x := 1150 # 1; spawn_y := 700 # 1; spawn_angle := (Math_PI * (5 # 4))%Q |};
    {| spawn_x := 250 # 1;  spawn_y := 700 # 1; spawn_angle := (Math_PI * (7 # 4))%Q |};
    {| spawn_x := 700 # 1;  spawn_y := 100 # 1; spawn_angle := (Math_PI * (1 # 2))%Q |};
    {| spawn_x := 700 # 1;  spawn_y := 800 # 1; spawn_angle := (Math_PI * (3 # 2))%Q |};
    {| spawn_x := 100 # 1;  spawn_y := 450 # 1; spawn_angle := 0 |};
    {| spawn_x := 1300 # 1; spawn_y := 450 # 1; spawn_angle := Math_PI |} ].

Definition COLORS : list string :=
  [ "#ff8c00"; "#00bfff"; "#ff2e63"; "#39ff14";
    "#e040fb"; "#ffeb3b"; "#00e5ff"; "#ff6e40" ]%string.

(** The operations of [Math] whose values the model does not compute. *)
Class MathLib := { cos : Q -> Q; sin : Q -> Q }.

(** ** Competitors *)

Module Player.

(** The object [createPlayer] returns.  [color] is [None] where the
    source would hold [undefined]. *)
Record t := mk {
  id : string;
  name : JS.jsstring;
  x : Q;
  y : Q;
  angle : Q;
  turning : Z;
  trailX : list Q;
  trailY : list Q;
  trailLen : Z;
  trailStart : Z;
  trailSentCount : Z;
  alive : bool;
  score : Z;
  lives : Z;
  color : option string;
  spawnIndex : Z
}.

Definition set_alive (b : bool) (p : t) : t :=
  mk (id p) (name p) (x p) (y p) (angle p) (turning p) (trailX p) (trailY p)
     (trailLen p) (trailStart p) (trailSentCount p) b (score p) (lives p)
     (color p) (spawnIndex p).

Definition set_pose (x' y' a' : Q) (p : t) : t :=
  mk (id p) (name p) x' y' a' (turning p) (trailX p) (trailY p)
     (trailLen p) (trailStart p) (trailSentCount p) (alive p) (score p)
     (lives p) (color p) (spawnIndex p).

Definition set_turning (tu : Z) (p : t) : t :=
  mk (id p) (name p) (x p) (y p) (angle p) tu (trailX p) (trailY p)
     (trailLen p) (trailStart p) (trailSentCount p) (alive p) (score p)
     (lives p) (color p) (spawnIndex p).

Definition set_trail (tx ty : list Q) (len start sent : Z) (p : t) : t :=
  mk (id p) (name p) (x p) (y p) (angle p) (turning p) tx ty
     len start sent (alive p) (score p) (lives p) (color p) (spawnIndex p).

Definition set_score (s : Z) (p : t) : t :=
  mk (id p) (name p) (x p) (y p) (angle p) (turning p) (trailX p) (trailY p)
     (trailLen p) (trailStart p) (trailSentCount p) (alive p) s (lives p)
     (color p) (spawnIndex p).

Definition set_lives (l : Z) (p : t) : t :=
  mk (id p) (name p) (x p) (y p) (angle p) (turning p) (trailX p) (trailY p)
     (trailLen p) (trailStart p) (trailSentCount p) (alive p) (score p) l
     (color p) (spawnIndex p).

Definition set_name (n : JS.jsstring) (p : t) : t :=
  mk (id p) n (x p) (y p) (angle p) (turning p) (trailX p) (trailY p)
     (trailLen p) (trailStart p) (trailSentCount p) (alive p) (score p)
     (lives p) (color p) (spawnIndex p).

Definition set_color (c : option string) (p : t) : t :=
  mk (id p) (name p) (x p) (y p) (angle p) (turning p) (trailX p) (trailY p)
     (trailLen p) (trailStart p) (trailSentCount p) (alive p) (score p)
     (lives p) c (spawnIndex p).

End Player.

(** The dictionary [players], in enumeration order. *)
Abbreviation Players := (list (string * Player.t)).

Fixpoint pget (k : string) (ps : Players) : option Player.t :=
  match ps with
  | [] => None
  | (k', p) :: r => if String.eqb k k' then Some p else pget k r
  end.

(** [players[k] = p]: replaces the entry of an existing key in place and
    appends a new key at the end, which is where the enumeration puts a
    key that is not the decimal form of an array index (the identifiers
    of the participants are such keys; the room code of the host is the
    first key of the dictionary of the host). *)
Fixpoint pset (k : string) (p : Player.t) (ps : Players) : Players :=
  match ps with
  | [] => [(k, p)]
  | (k', q) :: r => if String.eqb k k' then (k', p) :: r else (k', q) :: pset k p r
  end.

Definition keys (ps : Players) : list string := map fst ps.

(** [delete players[k]]. *)
Definition pdel (k : string) (ps : Players) : Players :=
  List.filter (fun kp => negb (String.eqb k (fst kp))) ps.

(** [createPlayer(id, index, name)]. *)
Definition createPlayer (id : string) (index : Z) (name : JS.value) : Player.t :=
  {| Player.id := id;
     Player.name :=
       match name with
       | JS.VString s =>
           if 0 <? Z.of_nat (length (JS.trim s)) then JS.trim s else JS.str "Player"
       | _ => JS.str "Player"
       end;
     Player.x := (inject_Z CANVAS_W / 2)%Q;
     Player.y := (inject_Z CANVAS_H / 2)%Q;
     Player.angle := 0;
     Player.turning := 0;
     Player.trailX := replicate (Z.to_nat TRAIL_MAX) 0%Q;
     Player.trailY := replicate (Z.to_nat TRAIL_MAX) 0%Q;
     Player.trailLen := 0;
     Player.trailStart := 0;
     Player.trailSentCount := 0;
     Player.alive := true;
     Player.score := 0;
     Player.lives := MAX_LIVES;
     Player.color := JS.alookup COLORS (Z.rem index (Z.of_nat (length COLORS)));
     Player.spawnIndex := index |}.

(** [getGameSpeed(roundStartTime)], with [Date.now()] as [now].  A start
    time of [null] is [None]; [!roundStartTime] also holds for 0. *)
Definition getGameSpeed (roundStartTime : option Z) (now : Z) : Q :=
  match roundStartTime with
  | None => BASE_SPEED
  | Some t0 =>
      if t0 =? 0 then BASE_SPEED
      else
        let elapsed := (inject_Z (now - t0) / 1000)%Q in
        let boosts := JS.toInt32 (elapsed / SPEED_INTERVAL)%Q in
        Qmin (BASE_SPEED + inject_Z boosts * SPEED_INCREMENT)%Q MAX_SPEED
  end.

(** [trailGetIndex(p, i)]: the slot of logical position [i]. *)
Definition trailGetIndex (p : Player.t) (i : Z) : Z :=
  Z.rem (Player.trailStart p + i) TRAIL_MAX.

(** [getCellIndex(x, y)]. *)
Definition getCellIndex (x y : Q) : Z :=
  let col := JS.toInt32 (x / inject_Z GRID_CELL_SIZE)%Q in
  let row := JS.toInt32 (y / inject_Z GRID_CELL_SIZE)%Q in
  if (col <? 0) || (col >=? GRID_COLS) || (row <? 0) || (row >=? GRID_ROWS)
  then -1
  else row * GRID_COLS + col.

(** ** game.js: spatial index (bit field and point pool), motion, collisions *)

Module Game.

(** One entry of the point pool: the four parallel typed arrays
    [gridPointsX], [gridPointsY], [gridPointsPlayer], [gridPointsTrailPos]
    at one index. *)
Record GridPoint := {
  ptX : Q;
  ptY : Q;
  ptPlayer : Z;
  ptTrailPos : Z
}.

(** The module level variables.  [gridPoints] holds the entries
    [0 .. gridPointCount - 1] of the pool, oldest first; the entries
    beyond [gridPointCount] are never read.  [staticSent] is
    [staticSentTo.has('_broadcast')]. *)
Record Globals := {
  spatialBitfield : option (list Z);
  gridDirty : bool;
  gridPoints : list GridPoint;
  staticSent : bool
}.

(** The state of the module when it is loaded. *)
Definition initial : Globals :=
  {| spatialBitfield := None; gridDirty := true; gridPoints := []; staticSent := false |}.

Definition MAX_GRID_ENTRIES : Z := 8 * TRAIL_MAX.
Definition TRAIL_BUFFER_SIZE : Z := 1200.

Definition gridPointCount (g : Globals) : Z := Z.of_nat (length (gridPoints g)).

Definition createBitfield : list Z := replicate (Z.to_nat GRID_TOTAL) 0.

Definition clearBitfield (g : Globals) : Globals :=
  {| spatialBitfield :=
       match spatialBitfield g with
       | Some bf => Some (replicate (length bf) 0)
       | None => None
       end;
     gridDirty := gridDirty g;
     gridPoints := [];
     staticSent := staticSent g |}.

Definition set_gridDirty (b : bool) (g : Globals) : Globals :=
  {| spatialBitfield := spatialBitfield g; gridDirty := b;
     gridPoints := gridPoints g; staticSent := staticSent g |}.

Definition set_staticSent (b : bool) (g : Globals) : Globals :=
  {| spatialBitfield := spatialBitfield g; gridDirty := gridDirty g;
     gridPoints := gridPoints g; staticSent := b |}.

(** [spatialBitfield[cellIdx]]; 0 where the bit field is missing. *)
Definition bitfieldAt (g : Globals) (cellIdx : Z) : Z :=
  match spatialBitfield g with
  | Some bf => JS.aget 0 bf cellIdx
  | None => 0
  end.

(** The statements both [rebuildSpatialGrid] and [gridInsertPoint] run
    for a point whose cell is inside the grid: mark the cell, and store
    the point if the pool has room. *)
Definition markPoint (g : Globals) (cellIdx : Z) (x y : Q) (player trailPos : Z)
  : Globals :=
  {| spatialBitfield :=
       match spatialBitfield g with
       | Some bf => Some (JS.aset bf cellIdx (JS.toUint8 player))
       | None => None
       end;
     gridDirty := gridDirty g;
     gridPoints :=
       if gridPointCount g <? MAX_GRID_ENTRIES
       then gridPoints g ++
            [ {| ptX := x; ptY := y; ptPlayer := JS.toUint8 player;
                 ptTrailPos := JS.toUint16 trailPos |} ]
       else gridPoints g;
     staticSent := staticSent g |}.

(** The inner loop of [rebuildSpatialGrid] for one competitor. *)
Definition rebuildPlayer (playerIdx : Z) (p : Player.t) (g : Globals) : Globals :=
  fold_left
    (fun g i =>
       let idx := Z.rem (Player.trailStart p + i) TRAIL_MAX in
       let tx := JS.aget 0%Q (Player.trailX p) idx in
       let ty := JS.aget 0%Q (Player.trailY p) idx in
       let cellIdx := getCellIndex tx ty in
       if cellIdx >=? 0 then markPoint g cellIdx tx ty playerIdx i else g)
    (JS.range (Player.trailLen p)) g.

Fixpoint rebuildLoop (playerIdx : Z) (ps : Players) (g : Globals) : Globals :=
  match ps with
  | [] => g
  | (_, p) :: r =>
      let playerIdx := playerIdx + 1 in
      if Player.alive p
      then rebuildLoop playerIdx r (rebuildPlayer playerIdx p g)
      else rebuildLoop playerIdx r g
  end.

(** [rebuildSpatialGrid(players)]. *)
Definition rebuildSpatialGrid (g : Globals) (players : Players) : Globals :=
  let g1 :=
    match spatialBitfield g with
    | Some _ => g
    | None =>
        {| spatialBitfield := Some createBitfield; gridDirty := gridDirty g;
           gridPoints := gridPoints g; staticSent := staticSent g |}
    end in
  set_gridDirty false (rebuildLoop 0 players (clearBitfield g1)).

(** [gridInsertPoint(playerId, bufferIdx, trailPosition, x, y, playerIndex)]. *)
Definition gridInsertPoint (g : Globals) (playerId : string)
    (bufferIdx trailPosition : Z) (x y : Q) (playerIndex : Z) : Globals :=
  match spatialBitfield g with
  | None => g
  | Some _ =>
      let cellIdx := getCellIndex x y in
      if cellIdx >=? 0
      then markPoint g cellIdx x y (if playerIndex =? 0 then 1 else playerIndex)
                     trailPosition
      else g
  end.

(** [trailPush(p, x, y)]. *)
Definition trailPush (g : Globals) (p : Player.t) (x y : Q) : Globals * Player.t :=
  if Player.trailLen p <? TRAIL_MAX then
    let idx := Z.rem (Player.trailStart p + Player.trailLen p) TRAIL_MAX in
    let p1 :=
      Player.set_trail (JS.aset (Player.trailX p) idx x) (JS.aset (Player.trailY p) idx y)
        (Player.trailLen p + 1) (Player.trailStart p) (Player.trailSentCount p) p in
    (gridInsertPoint g (Player.id p1) idx (Player.trailLen p1 - 1) x y
       (Player.spawnIndex p1 + 1), p1)
  else
    (set_gridDirty true g,
     Player.set_trail
       (JS.aset (Player.trailX p) (Player.trailStart p) x)
       (JS.aset (Player.trailY p) (Player.trailStart p) y)
       (Player.trailLen p)
       (Z.rem (Player.trailStart p + 1) TRAIL_MAX)
       (if Player.trailSentCount p >? 0
        then Player.trailSentCount p - 1 else Player.trailSentCount p)
       p).

(** The wall test at the end of [movePlayer]. *)
Definition outOfBounds (x y : Q) : bool :=
  JS.Qltb x 0 || JS.Qgtb x (inject_Z CANVAS_W)
  || JS.Qltb y 0 || JS.Qgtb y (inject_Z CANVAS_H).

Section Motion.
Context {M : MathLib}.

(** The position [movePlayer] computes for [p]. *)
Definition nextAngle (p : Player.t) : Q :=
  (Player.angle p + inject_Z (Player.turning p) * TURN_SPEED)%Q.
Definition nextX (p : Player.t) (speed : Q) : Q :=
  (Player.x p + cos (nextAngle p) * speed)%Q.
Definition nextY (p : Player.t) (speed : Q) : Q :=
  (Player.y p + sin (nextAngle p) * speed)%Q.

(** [movePlayer(p, speed)]. *)
Definition movePlayer (g : Globals) (p : Player.t) (speed : Q)
  : Globals * Player.t :=
  let p1 := Player.set_pose (nextX p speed) (nextY p speed) (nextAngle p) p in
  let '(g2, p2) := trailPush g p1 (Player.x p1) (Player.y p1) in
  if outOfBounds (Player.x p2) (Player.y p2)
  then (g2, Player.set_alive false p2)
  else (g2, p2).
End Motion.

(** The test a pool point that is not skipped goes through: the
    bounding box reject, then the squared distance. *)
Definition pointHits (px py ptX ptY : Q) : bool :=
  let dx := (px - ptX)%Q in
  let dy := (py - ptY)%Q in
  if JS.Qgtb dx COLLISION_RADIUS || JS.Qltb dx (- COLLISION_RADIUS)
     || JS.Qgtb dy COLLISION_RADIUS || JS.Qltb dy (- COLLISION_RADIUS)
  then false
  else JS.Qltb (dx * dx + dy * dy)%Q COLLISION_RADIUS_SQ.

(** The two [continue] branches of the inner loop of [checkCollisions]. *)
Definition pointSkipped (p : Player.t) (myIndex : Z) (pt : GridPoint) : bool :=
  let isSelf := ptPlayer pt =? myIndex in
  if isSelf
  then ptTrailPos pt >=? Player.trailLen p - COLLISION_SKIP_OWN
  else ptTrailPos pt >=? 598.

(** The loop over the pool for one neighbouring cell. *)
Definition cellHit (g : Globals) (p : Player.t) (myIndex cellIdx : Z) : bool :=
  existsb
    (fun pt =>
       if negb (getCellIndex (ptX pt) (ptY pt) =? cellIdx) then false
       else if pointSkipped p myIndex pt then false
       else pointHits (Player.x p) (Player.y p) (ptX pt) (ptY pt))
    (gridPoints g).

(** The loops over [dr] and [dc]: the value of [hit] for [p]. *)
Definition playerHit (g : Globals) (p : Player.t) (myIndex : Z) : bool :=
  let col := JS.toInt32 (Player.x p / inject_Z GRID_CELL_SIZE)%Q in
  let row := JS.toInt32 (Player.y p / inject_Z GRID_CELL_SIZE)%Q in
  existsb
    (fun dr =>
       existsb
         (fun dc =>
            let nr := row + dr in
            let nc := col + dc in
            if (nr <? 0) || (nr >=? GRID_ROWS) || (nc <? 0) || (nc >=? GRID_COLS)
            then false
            else
              let cellIdx := nr * GRID_COLS + nc in
              if bitfieldAt g cellIdx =? 0 then false
              else cellHit g p myIndex cellIdx)
         [-1; 0; 1])
    [-1; 0; 1].

(** The first loop of [checkCollisions]: [playerIndexMap] (the 1-based
    rank of each key; every competitor is stored under its [id])
    restricted to the living competitors, which is [aliveList] with the
    index each of its members is looked up under. *)
Fixpoint aliveList (idx : Z) (ps : Players) : list (string * Z) :=
  match ps with
  | [] => []
  | (k, p) :: r =>
      let idx := idx + 1 in
      if Player.alive p then (k, idx) :: aliveList idx r else aliveList idx r
  end.

(** [checkCollisions(players)]. *)
Definition checkCollisions (g : Globals) (players : Players) : Globals * Players :=
  let g1 :=
    if gridDirty g || negb (bool_decide (is_Some (spatialBitfield g)))
    then rebuildSpatialGrid g players else g in
  (g1,
   fold_left
     (fun ps '(k, myIndex) =>
        match pget k ps with
        | Some p =>
            if playerHit g1 p myIndex then pset k (Player.set_alive false p) ps else ps
        | None => ps
        end)
     (aliveList 0 players) players).

(** [startRound(players)]: the loop, with the counter [i].  The counter
    starts at 0 and only grows, so the look-up in [spawnConfigs] always
    succeeds; the last branch is never taken. *)
Fixpoint startRoundLoop (i : Z) (ps : Players) : Players :=
  match ps with
  | [] => []
  | (k, p) :: r =>
      if Player.lives p <=? 0 then
        (k, Player.set_alive false
              (Player.set_trail (Player.trailX p) (Player.trailY p) 0 0 0 p))
          :: startRoundLoop i r
      else
        match JS.alookup spawnConfigs (Z.rem i (Z.of_nat (length spawnConfigs))) with
        | Some spawn =>
            (k, Player.set_alive true
                  (Player.set_trail (Player.trailX p) (Player.trailY p) 0 0 0
                     (Player.set_turning 0
                        (Player.set_pose (spawn_x spawn) (spawn_y spawn)
                           (spawn_angle spawn) p))))
              :: startRoundLoop (i + 1) r
        | None => (k, p) :: startRoundLoop (i + 1) r
        end
  end.

Definition startRound (g : Globals) (players : Players) : Globals * Players :=
  let g1 := set_gridDirty true g in
  (match spatialBitfield g1 with
   | Some _ => clearBitfield g1
   | None => g1
   end,
   startRoundLoop 0 players).

Definition resetStaticSent (g : Globals) : Globals := set_staticSent false g.

(** *** The state codec *)

(** The per competitor object [pd] of a snapshot, as it arrives after
    JSON transport: a key that is absent or [undefined] is [None]. *)
Record PlayerState := {
  ps_x : option Z;
  ps_y : option Z;
  ps_a : option Z;
  ps_tu : option Z;
  ps_tl : option Z;
  ps_ts : option Z;
  ps_tc : option Z;
  ps_al : option bool;
  ps_s : option Z;
  ps_l : option Z;
  ps_tr : option (list Z);
  ps_id : option string;
  ps_n : option JS.jsstring;
  ps_c : option string;
  ps_si : option Z
}.

(** The snapshot [state]; [st_p] is the object under the key [p]. *)
Record State := {
  st_p : list (string * PlayerState);
  st_ra : bool;
  st_cd : Z;
  st_rst : option Z;
  st_mw : option string;
  st_t : Z
}.

(** [(v * 10 + 0.5) | 0] and [(v * 1000 + 0.5) | 0]. *)
Definition encode10 (v : Q) : Z := JS.toInt32 (v * 10 + (1 # 2))%Q.
Definition encode1000 (v : Q) : Z := JS.toInt32 (v * 1000 + (1 # 2))%Q.

(** [trailData]: the samples at logical positions [trailSentCount ..
    trailLen - 1], flattened.  Up to [TRAIL_BUFFER_SIZE] integers go
    through the [Int16Array] buffer; a longer delta is built in a plain
    array. *)
Definition trailData (p : Player.t) : option (list Z) :=
  let newCount := Player.trailLen p - Player.trailSentCount p in
  if newCount >? 0 then
    let dataLen := newCount * 2 in
    let store := if dataLen <=? TRAIL_BUFFER_SIZE then JS.toInt16 else (fun z => z) in
    Some
      (flat_map
         (fun i =>
            let trailIdx := Player.trailSentCount p + i in
            let idx := Z.rem (Player.trailStart p + trailIdx) TRAIL_MAX in
            [ store (encode10 (JS.aget 0%Q (Player.trailX p) idx));
              store (encode10 (JS.aget 0%Q (Player.trailY p) idx)) ])
         (JS.range newCount))
  else None.

(** The body of the loop of [serializeGameState] for one competitor:
    the object [pd] and the competitor with [trailSentCount] advanced. *)
Definition serializePlayer (sendStatic : bool) (p : Player.t)
  : PlayerState * Player.t :=
  let tr := trailData p in
  let p1 :=
    Player.set_trail (Player.trailX p) (Player.trailY p) (Player.trailLen p)
      (Player.trailStart p) (Player.trailLen p) p in
  ({| ps_x := Some (encode10 (Player.x p1));
      ps_y := Some (encode10 (Player.y p1));
      ps_a := Some (encode1000 (Player.angle p1));
      ps_tu := Some (Player.turning p1);
      ps_tl := Some (Player.trailLen p1);
      ps_ts := Some (Player.trailStart p1);
      ps_tc := Some (Player.trailSentCount p1);
      ps_al := Some (Player.alive p1);
      ps_s := Some (Player.score p1);
      ps_l := Some (Player.lives p1);
      ps_tr := tr;
      ps_id := if sendStatic then Some (Player.id p1) else None;
      ps_n := if sendStatic then Some (Player.name p1) else None;
      ps_c := if sendStatic then Player.color p1 else None;
      ps_si := if sendStatic then Some (Player.spawnIndex p1) else None |},
   p1).

Fixpoint serializeLoop (sendStatic : bool) (ps : Players)
  : list (string * PlayerState) * Players :=
  match ps with
  | [] => ([], [])
  | (k, p) :: r =>
      let '(pd, p1) := serializePlayer sendStatic p in
      let '(out, r1) := serializeLoop sendStatic r in
      ((k, pd) :: out, (k, p1) :: r1)
  end.

(** [serializeGameState(players, roundActive, countdown, roundStartTime,
    matchWinner)]. *)
Definition serializeGameState (g : Globals) (players : Players)
    (roundActive : bool) (countdown : Z) (roundStartTime : option Z)
    (matchWinner : option string) (now : Z) : State * Globals * Players :=
  let sendStatic := negb (staticSent g) in
  let '(out, players1) := serializeLoop sendStatic players in
  ({| st_p := out; st_ra := roundActive; st_cd := countdown;
      st_rst := roundStartTime; st_mw := matchWinner; st_t := now |},
   (if sendStatic then set_staticSent true g else g),
   players1).

(** One iteration of the loop that applies a delta in [applyGameState]. *)
Definition appendSample (p : Player.t) (vx vy : Q) : Player.t :=
  let idx := Z.rem (Player.trailStart p + Player.trailLen p) TRAIL_MAX in
  let tx := JS.aset (Player.trailX p) idx vx in
  let ty := JS.aset (Player.trailY p) idx vy in
  let len := Player.trailLen p + 1 in
  if len >? TRAIL_MAX
  then Player.set_trail tx ty TRAIL_MAX
         (Z.rem (Player.trailStart p + 1) TRAIL_MAX) (Player.trailSentCount p) p
  else Player.set_trail tx ty len (Player.trailStart p) (Player.trailSentCount p) p.

(** The loop [for (i = 0; i < trail.length / 2; i++)] over a compact
    delta.  For an array of odd length the source reads one element past
    the end and stores NaN as the last ordinate; the model stores 0.
    [serializeGameState] only produces arrays of even length. *)
Fixpoint applyTrail (trail : list Z) (p : Player.t) : Player.t :=
  match trail with
  | vx :: vy :: rest =>
      applyTrail rest (appendSample p (inject_Z vx / 10)%Q (inject_Z vy / 10)%Q)
  | [vx] => appendSample p (inject_Z vx / 10)%Q 0%Q
  | [] => p
  end.

Definition nonEmpty {A} (o : option (list A)) : bool :=
  match o with
  | Some (_ :: _) => true
  | _ => false
  end.

Definition truthyString (o : option string) : bool :=
  match o with
  | Some c => negb (String.eqb c "")
  | None => false
  end.

(** The body of the loop of [applyGameState] for the entry [ps] of the
    key [id], in the compact format (the snapshot has the key [p] and
    none of the keys of the older raw format), in its four steps. *)

(** The competitor the entry is applied to: [players[id]], or a new one
    made from the identity fields of the entry. *)
Definition mirrorPlayer (players : Players) (id : string) (ps : PlayerState)
  : Player.t :=
  match pget id players with
  | Some p => p
  | None =>
      let p := createPlayer id
                 (match ps_si ps with Some si => si | None => 0 end)
                 (JS.VString (if nonEmpty (ps_n ps)
                              then default [] (ps_n ps) else JS.str "Player")) in
      Player.set_color
        (if truthyString (ps_c ps) then ps_c ps else JS.alookup COLORS 0) p
  end.

(** The delta: the new samples are appended and [trailSentCount] is
    taken from the entry. *)
Definition applyDelta (ps : PlayerState) (p : Player.t) : Player.t :=
  match ps_tr ps with
  | Some (v :: trail) =>
      let p1 := applyTrail (v :: trail) p in
      Player.set_trail (Player.trailX p1) (Player.trailY p1) (Player.trailLen p1)
        (Player.trailStart p1)
        (match ps_tc ps with Some tc => tc | None => 0 end) p1
  | _ => p
  end.

(** The reset of the trail when the entry reports a length of 0. *)
Definition applyReset (ps : PlayerState) (p : Player.t) : Player.t :=
  match ps_tl ps with
  | Some 0 => Player.set_trail (Player.trailX p) (Player.trailY p) 0 0 0 p
  | _ => p
  end.

(** The scalar fields: position and heading are decoded, the flags and
    counters copied, the identity fields taken over when present. *)
Definition applyScalars (ps : PlayerState) (p : Player.t) : Player.t :=
  let p3 :=
    Player.set_pose
      (match ps_x ps with Some v => (inject_Z v / 10)%Q | None => Player.x p end)
      (match ps_y ps with Some v => (inject_Z v / 10)%Q | None => Player.y p end)
      (match ps_a ps with Some v => (inject_Z v / 1000)%Q | None => Player.angle p end)
      p in
  let p4 :=
    Player.set_alive
      (match ps_al ps with Some b => b | None => Player.alive p3 end) p3 in
  let p5 :=
    Player.set_score
      (match ps_s ps with Some v => v | None => Player.score p4 end) p4 in
  let p6 :=
    match ps_l ps with Some v => Player.set_lives v p5 | None => p5 end in
  let p7 :=
    if nonEmpty (ps_n ps) then Player.set_name (default [] (ps_n ps)) p6 else p6 in
  if truthyString (ps_c ps) then Player.set_color (ps_c ps) p7 else p7.

Definition applyPlayerState (players : Players) (id : string) (ps : PlayerState)
  : Players :=
  pset id
    (applyScalars ps (applyReset ps (applyDelta ps (mirrorPlayer players id ps))))
    players.

(** [applyGameState(players, state)] on a compact snapshot. *)
Definition applyGameState (players : Players) (state : State) : Players :=
  fold_left (fun ps '(id, pd) => applyPlayerState ps id pd) (st_p state) players.

(** [applyPlayerUpdate(players, update)]. *)
Definition applyPlayerUpdate (players : Players) (uid : string) (turning : Z)
  : Players :=
  match pget uid players with
  | Some p => pset uid (Player.set_turning turning p) players
  | None => players
  end.

(** [getPlayerUpdate(p)]: the object [{ id, turning }]. *)
Definition getPlayerUpdate (p : Player.t) : string * Z :=
  (Player.id p, Player.turning p).

End Game.

(** ** The list-per-cell variant of the spatial index

    The second copy of game.js kept in the repository differs from the one
    above in the spatial index (every cell owns a list of references to
    trail samples) and in [checkCollisions], which reads a sample through
    the trail of its owner.  The other functions are the same text, apart
    from the pre-allocated [Int16Array] in [serializeGameState]. *)

Module GameList.

(** One reference in a cell: the triple [playerId, bufferIndex,
    trailPosition] the source pushes as three consecutive elements. *)
Record CellEntry := {
  ce_playerId : string;
  ce_bufIdx : Z;
  ce_trailPos : Z
}.

Record Globals := {
  spatialGrid : option (list (list CellEntry));
  gridDirty : bool
}.

Definition initial : Globals := {| spatialGrid := None; gridDirty := true |}.

Definition createGrid : list (list CellEntry) := replicate (Z.to_nat GRID_TOTAL) [].

(** [clearGrid(grid)]: the cells [0 .. GRID_TOTAL - 1] are emptied. *)
Definition clearGrid (grid : list (list CellEntry)) : list (list CellEntry) :=
  fold_left (fun gr i => JS.aset gr i []) (JS.range GRID_TOTAL) grid.

(** [spatialGrid[cellIdx].push(playerId, bufIdx, trailPosition)]. *)
Definition cellPush (grid : list (list CellEntry)) (cellIdx : Z) (e : CellEntry)
  : list (list CellEntry) :=
  JS.aset grid cellIdx (JS.aget [] grid cellIdx ++ [e]).

Definition rebuildPlayer (id : string) (p : Player.t) (grid : list (list CellEntry))
  : list (list CellEntry) :=
  fold_left
    (fun gr i =>
       let idx := Z.rem (Player.trailStart p + i) TRAIL_MAX in
       let cellIdx :=
         getCellIndex (JS.aget 0%Q (Player.trailX p) idx)
                      (JS.aget 0%Q (Player.trailY p) idx) in
       if cellIdx >=? 0
       then cellPush gr cellIdx
              {| ce_playerId := id; ce_bufIdx := idx; ce_trailPos := i |}
       else gr)
    (JS.range (Player.trailLen p)) grid.

(** [rebuildSpatialGrid(players)]. *)
Definition rebuildSpatialGrid (g : Globals) (players : Players) : Globals :=
  let grid :=
    match spatialGrid g with
    | Some gr => gr
    | None => createGrid
    end in
  {| spatialGrid :=
       Some (fold_left
               (fun gr '(id, p) =>
                  if Player.alive p then rebuildPlayer id p gr else gr)
               players (clearGrid grid));
     gridDirty := false |}.

(** [gridInsertPoint(playerId, bufferIdx, trailPosition, x, y)]. *)
Definition gridInsertPoint (g : Globals) (playerId : string)
    (bufferIdx trailPosition : Z) (x y : Q) : Globals :=
  match spatialGrid g with
  | None => g
  | Some gr =>
      let cellIdx := getCellIndex x y in
      if cellIdx >=? 0
      then {| spatialGrid :=
                Some (cellPush gr cellIdx
                        {| ce_playerId := playerId; ce_bufIdx := bufferIdx;
                           ce_trailPos := trailPosition |});
              gridDirty := gridDirty g |}
      else g
  end.

(** [trailPush(p, x, y)]. *)
Definition trailPush (g : Globals) (p : Player.t) (x y : Q) : Globals * Player.t :=
  if Player.trailLen p <? TRAIL_MAX then
    let idx := Z.rem (Player.trailStart p + Player.trailLen p) TRAIL_MAX in
    let p1 :=
      Player.set_trail (JS.aset (Player.trailX p) idx x) (JS.aset (Player.trailY p) idx y)
        (Player.trailLen p + 1) (Player.trailStart p) (Player.trailSentCount p) p in
    (gridInsertPoint g (Player.id p1) idx (Player.trailLen p1 - 1) x y, p1)
  else
    ({| spatialGrid := spatialGrid g; gridDirty := true |},
     Player.set_trail
       (JS.aset (Player.trailX p) (Player.trailStart p) x)
       (JS.aset (Player.trailY p) (Player.trailStart p) y)
       (Player.trailLen p)
       (Z.rem (Player.trailStart p + 1) TRAIL_MAX)
       (if Player.trailSentCount p >? 0
        then Player.trailSentCount p - 1 else Player.trailSentCount p)
       p).

(** The [continue] branches of the inner loop of [checkCollisions] that
    come before the coordinates of the sample are read. *)
Definition entrySkipped (players : Players) (p : Player.t) (e : CellEntry) : bool :=
  let isSelf := String.eqb (ce_playerId e) (Player.id p) in
  if isSelf
  then ce_trailPos e >=? Player.trailLen p - COLLISION_SKIP_OWN
  else
    match pget (ce_playerId e) players with
    | None => true
    | Some other =>
        if negb (Player.alive other) then true
        else ce_trailPos e >=? Player.trailLen other - 2
    end.

(** What the loop does with an entry it does not skip: read the sample
    from the trail of its owner (the entry is passed over when the owner
    is gone) and test it. *)
Definition entryTested (players : Players) (p : Player.t) (e : CellEntry) : bool :=
  match pget (ce_playerId e) players with
  | None => false
  | Some otherPlayer =>
      Game.pointHits (Player.x p) (Player.y p)
        (JS.aget 0%Q (Player.trailX otherPlayer) (ce_bufIdx e))
        (JS.aget 0%Q (Player.trailY otherPlayer) (ce_bufIdx e))
  end.

Definition cellHit (players : Players) (p : Player.t) (cell : list CellEntry) : bool :=
  existsb
    (fun e => if entrySkipped players p e then false else entryTested players p e)
    cell.

(** The cells the loops over [dr] and [dc] visit for [p]. *)
Definition neighbourhood (p : Player.t) : list Z :=
  let col := JS.toInt32 (Player.x p / inject_Z GRID_CELL_SIZE)%Q in
  let row := JS.toInt32 (Player.y p / inject_Z GRID_CELL_SIZE)%Q in
  flat_map
    (fun dr =>
       flat_map
         (fun dc =>
            let nr := row + dr in
            let nc := col + dc in
            if (nr <? 0) || (nr >=? GRID_ROWS) || (nc <? 0) || (nc >=? GRID_COLS)
            then []
            else [nr * GRID_COLS + nc])
         [-1; 0; 1])
    [-1; 0; 1].

(** The value of [hit] for [p]. *)
Definition playerHit (grid : list (list CellEntry)) (players : Players)
    (p : Player.t) : bool :=
  existsb (fun cellIdx => cellHit players p (JS.aget [] grid cellIdx))
          (neighbourhood p).

Definition aliveList (ps : Players) : list string :=
  map fst (List.filter (fun kp => Player.alive (snd kp)) ps).

(** The iteration of the second loop of [checkCollisions] for the
    member of [aliveList] stored under [k]. *)
Definition checkPlayer (grid : list (list CellEntry)) (ps : Players) (k : string)
  : Players :=
  match pget k ps with
  | Some p =>
      if playerHit grid ps p then pset k (Player.set_alive false p) ps else ps
  | None => ps
  end.

(** [checkCollisions(players)]. *)
Definition checkCollisions (g : Globals) (players : Players) : Globals * Players :=
  let g1 :=
    if gridDirty g || negb (bool_decide (is_Some (spatialGrid g)))
    then rebuildSpatialGrid g players else g in
  (g1,
   fold_left (checkPlayer (default [] (spatialGrid g1))) (aliveList players) players).

End GameList.

(** ** network.js: the host side of the round and match life cycle *)

Module Net.

(** The entry of one competitor in the [playerList] message. *)
Record ListEntry := {
  le_id : string;
  le_name : JS.jsstring;
  le_score : Z;
  le_lives : Z;
  le_color : option string;
  le_alive : bool
}.

(** The events [emit] passes to the callbacks of the user interface. *)
Inductive Event :=
| EvRoomCreated (code : string)
| EvPlayerJoined (playerId : string) (name : JS.value)
| EvInit (playerId : string)
| EvError (message : string)
| EvGameStart
| EvStateUpdate (state : Game.State)
| EvPlayerList (players : list (string * ListEntry)).

(** The messages the host sends, and the requests it receives, that the
    model covers. *)
Inductive Message :=
| MsgJoin (playerId : string) (name : JS.value)
| MsgInit (playerId : string) (state : Game.State)
| MsgGameStart
| MsgState (state : Game.State)
| MsgPlayerList (players : list (string * ListEntry))
| MsgRestart
| MsgInput (id : string) (turning : Z).

(** What becomes visible outside the object: a call of [emit] or of
    [conn.send] on the connection of [peer]. *)
Inductive Effect :=
| Emit (e : Event)
| Send (peer : string) (m : Message).

(** The timers of [runCountdown] (an interval) and of the end of a round
    (a timeout). *)
Inductive TimerKind :=
| CountdownInterval
| AutoRestartTimeout.

Record Timer := {
  timer_id : nat;
  timer_kind : TimerKind;
  timer_ms : Z
}.

(** The fields of the [Network] instance the host code uses, the module
    state of game.js ([game]), the pending timers other than the physics
    interval ([timers]), the next timer handle, and the trace of effects,
    oldest first.  [physicsInterval] is the handle of the physics clock,
    [None] for [null]: the clock runs exactly while it is [Some]. *)
Record t := {
  isHost : bool;
  players : Players;
  roundActive : bool;
  countdown : Z;
  roundStartTime : option Z;
  matchWinner : option string;
  gameStarted : bool;
  tickCounter : Z;
  physicsInterval : option nat;
  connections : list (string * bool);
  game : Game.Globals;
  timers : list Timer;
  nextTimer : nat;
  log : list Effect
}.

Definition BROADCAST_EVERY : Z := 4.

Definition set_players (ps : Players) (s : t) : t :=
  {| isHost := isHost s; players := ps; roundActive := roundActive s;
     countdown := countdown s; roundStartTime := roundStartTime s;
     matchWinner := matchWinner s; gameStarted := gameStarted s;
     tickCounter := tickCounter s; physicsInterval := physicsInterval s;
     connections := connections s; game := game s; timers := timers s;
     nextTimer := nextTimer s; log := log s |}.

Definition set_game (g : Game.Globals) (s : t) : t :=
  {| isHost := isHost s; players := players s; roundActive := roundActive s;
     countdown := countdown s; roundStartTime := roundStartTime s;
     matchWinner := matchWinner s; gameStarted := gameStarted s;
     tickCounter := tickCounter s; physicsInterval := physicsInterval s;
     connections := connections s; game := g; timers := timers s;
     nextTimer := nextTimer s; log := log s |}.

Definition set_roundActive (b : bool) (s : t) : t :=
  {| isHost := isHost s; players := players s; roundActive := b;
     countdown := countdown s; roundStartTime := roundStartTime s;
     matchWinner := matchWinner s; gameStarted := gameStarted s;
     tickCounter := tickCounter s; physicsInterval := physicsInterval s;
     connections := connections s; game := game s; timers := timers s;
     nextTimer := nextTimer s; log := log s |}.

Definition set_countdown (c : Z) (s : t) : t :=
  {| isHost := isHost s; players := players s; roundActive := roundActive s;
     countdown := c; roundStartTime := roundStartTime s;
     matchWinner := matchWinner s; gameStarted := gameStarted s;
     tickCounter := tickCounter s; physicsInterval := physicsInterval s;
     connections := connections s; game := game s; timers := timers s;
     nextTimer := nextTimer s; log := log s |}.

Definition set_roundStartTime (r : option Z) (s : t) : t :=
  {| isHost := isHost s; players := players s; roundActive := roundActive s;
     countdown := countdown s; roundStartTime := r;
     matchWinner := matchWinner s; gameStarted := gameStarted s;
     tickCounter := tickCounter s; physicsInterval := physicsInterval s;
     connections := connections s; game := game s; timers := timers s;
     nextTimer := nextTimer s; log := log s |}.

Definition set_matchWinner (w : option string) (s : t) : t :=
  {| isHost := isHost s; players := players s; roundActive := roundActive s;
     countdown := countdown s; roundStartTime := roundStartTime s;
     matchWinner := w; gameStarted := gameStarted s;
     tickCounter := tickCounter s; physicsInterval := physicsInterval s;
     connections := connections s; game := game s; timers := timers s;
     nextTimer := nextTimer s; log := log s |}.

Definition set_gameStarted (b : bool) (s : t) : t :=
  {| isHost := isHost s; players := players s; roundActive := roundActive s;
     countdown := countdown s; roundStartTime := roundStartTime s;
     matchWinner := matchWinner s; gameStarted := b;
     tickCounter := tickCounter s; physicsInterval := physicsInterval s;
     connections := connections s; game := game s; timers := timers s;
     nextTimer := nextTimer s; log := log s |}.

Definition set_tickCounter (c : Z) (s : t) : t :=
  {| isHost := isHost s; players := players s; roundActive := roundActive s;
     countdown := countdown s; roundStartTime := roundStartTime s;
     matchWinner := matchWinner s; gameStarted := gameStarted s;
     tickCounter := c; physicsInterval := physicsInterval s;
     connections := connections s; game := game s; timers := timers s;
     nextTimer := nextTimer s; log := log s |}.

Definition set_physicsInterval (h : option nat) (s : t) : t :=
  {| isHost := isHost s; players := players s; roundActive := roundActive s;
     countdown := countdown s; roundStartTime := roundStartTime s;
     matchWinner := matchWinner s; gameStarted := gameStarted s;
     tickCounter := tickCounter s; physicsInterval := h;
     connections := connections s; game := game s; timers := timers s;
     nextTimer := nextTimer s; log := log s |}.

Definition set_timers (ts : list Timer) (n : nat) (s : t) : t :=
  {| isHost := isHost s; players := players s; roundActive := roundActive s;
     countdown := countdown s; roundStartTime := roundStartTime s;
     matchWinner := matchWinner s; gameStarted := gameStarted s;
     tickCounter := tickCounter s; physicsInterval := physicsInterval s;
     connections := connections s; game := game s; timers := ts;
     nextTimer := n; log := log s |}.

Definition set_connections (cs : list (string * bool)) (s : t) : t :=
  {| isHost := isHost s; players := players s; roundActive := roundActive s;
     countdown := countdown s; roundStartTime := roundStartTime s;
     matchWinner := matchWinner s; gameStarted := gameStarted s;
     tickCounter := tickCounter s; physicsInterval := physicsInterval s;
     connections := cs; game := game s; timers := timers s;
     nextTimer := nextTimer s; log := log s |}.

Definition add_log (es : list Effect) (s : t) : t :=
  {| isHost := isHost s; players := players s; roundActive := roundActive s;
     countdown := countdown s; roundStartTime := roundStartTime s;
     matchWinner := matchWinner s; gameStarted := gameStarted s;
     tickCounter := tickCounter s; physicsInterval := physicsInterval s;
     connections := connections s; game := game s; timers := timers s;
     nextTimer := nextTimer s; log := log s ++ es |}.

(** [emit(event, data)]. *)
Definition emit (e : Event) (s : t) : t := add_log [Emit e] s.

(** The loop [for (const [peerId, conn] of this.connections) if
    (conn.open) conn.send(msg)]. *)
Definition sendAll (m : Message) (s : t) : t :=
  add_log
    (flat_map (fun '(peer, open) => if open : bool then [Send peer m] else [])
              (connections s))
    s.

(** [setInterval] and [setTimeout] for the two modelled callbacks. *)
Definition addTimer (k : TimerKind) (ms : Z) (s : t) : t :=
  set_timers
    (timers s ++ [ {| timer_id := nextTimer s; timer_kind := k; timer_ms := ms |} ])
    (S (nextTimer s)) s.

(** [clearInterval(h)], and the removal of a timeout that has fired. *)
Definition clearTimer (h : nat) (s : t) : t :=
  set_timers (List.filter (fun tm => negb (Nat.eqb (timer_id tm) h)) (timers s))
             (nextTimer s) s.

Definition resetStaticSent (s : t) : t :=
  set_game (Game.resetStaticSent (game s)) s.

(** [broadcastState()]. *)
Definition broadcastState (now : Z) (s : t) : t :=
  if negb (isHost s) then s
  else
    let '(state, g1, ps1) :=
      Game.serializeGameState (game s) (players s) (roundActive s) (countdown s)
        (roundStartTime s) (matchWinner s) now in
    emit (EvStateUpdate state)
      (sendAll (MsgState state) (set_players ps1 (set_game g1 s))).

(** [broadcastPlayerList()]. *)
Definition broadcastPlayerList (s : t) : t :=
  if negb (isHost s) then s
  else
    let list :=
      map (fun '(k, p) =>
             (k, {| le_id := Player.id p; le_name := Player.name p;
                    le_score := Player.score p; le_lives := Player.lives p;
                    le_color := Player.color p; le_alive := Player.alive p |}))
          (players s) in
    emit (EvPlayerList list) (sendAll (MsgPlayerList list) s).

(** [stopPhysicsLoop()]. *)
Definition stopPhysicsLoop (s : t) : t :=
  match physicsInterval s with
  | Some _ => set_physicsInterval None s
  | None => s
  end.

(** [startPhysicsLoop()]. *)
Definition startPhysicsLoop (s : t) : t :=
  let s1 := set_tickCounter 0 (stopPhysicsLoop s) in
  set_timers (timers s1) (S (nextTimer s1))
    (set_physicsInterval (Some (nextTimer s1)) s1).

(** [runCountdown()]: creates the one-second interval. *)
Definition runCountdown (s : t) : t :=
  if negb (isHost s) then s else addTimer CountdownInterval 1000 s.

(** The method [startRound()] of the host. *)
Definition startRound (now : Z) (s : t) : t :=
  if negb (isHost s) then s
  else
    let '(g1, ps1) := Game.startRound (game s) (players s) in
    startPhysicsLoop
      (set_matchWinner None
         (set_roundStartTime (Some now)
            (set_roundActive true (set_players ps1 (set_game g1 s))))).

(** The callback of the interval [h] of [runCountdown]. *)
Definition countdownTick (h : nat) (now : Z) (s : t) : t :=
  let s1 := set_countdown (countdown s - 1) s in
  let s2 := broadcastState now (resetStaticSent s1) in
  if countdown s2 <=? 0 then startRound now (clearTimer h s2) else s2.

(** [startGame()]. *)
Definition startGame (now : Z) (s : t) : t :=
  if negb (isHost s) then s
  else if Z.of_nat (length (keys (players s))) <? 2
  then emit (EvError "Need at least 2 players!") s
  else
    let s1 :=
      set_matchWinner None
        (set_countdown 3 (set_roundActive false (set_gameStarted true s))) in
    let s2 :=
      set_players
        (map (fun '(k, p) => (k, Player.set_score 0 (Player.set_lives MAX_LIVES p)))
             (players s1))
        s1 in
    let s3 := sendAll MsgGameStart (resetStaticSent s2) in
    runCountdown (emit EvGameStart (broadcastState now s3)).

(** The callback of the timeout [h] set at the end of a round. *)
Definition autoRestart (h : nat) (now : Z) (s : t) : t :=
  let s0 := clearTimer h s in
  if gameStarted s0
  then runCountdown (broadcastState now (resetStaticSent (set_countdown 3 s0)))
  else s0.

(** A non-empty string, [null] being falsy like the empty string. *)
Definition truthy (o : option string) : bool :=
  match o with
  | Some w => negb (String.eqb w "")
  | None => false
  end.

(** The host once [createRoom(playerName)] has got its identifier [id]
    from the signalling server: the fields as the constructor sets them,
    the host itself as the first competitor.  Timer handles start at 1. *)
Definition createRoom (id : string) (playerName : JS.value) : t :=
  {| isHost := true;
     players := [(id, createPlayer id 0 playerName)];
     roundActive := false;
     countdown := 0;
     roundStartTime := None;
     matchWinner := None;
     gameStarted := false;
     tickCounter := 0;
     physicsInterval := None;
     connections := [];
     game := Game.initial;
     timers := [];
     nextTimer := 1;
     log := [Emit (EvRoomCreated id)] |}.

(** [this.connections.set(conn.peer, conn)] in [handleConnection], with
    the state [open] of the connection. *)
Fixpoint connSet (peer : string) (open : bool) (cs : list (string * bool))
  : list (string * bool) :=
  match cs with
  | [] => [(peer, open)]
  | (k, o) :: r =>
      if String.eqb peer k then (k, open) :: r else (k, o) :: connSet peer open r
  end.

Definition handleConnection (peer : string) (open : bool) (s : t) : t :=
  set_connections (connSet peer open (connections s)) s.

(** The case [join] of [handleMessage]. *)
Definition handleJoin (now : Z) (conn : string) (playerId : string) (name : JS.value)
    (s : t) : t :=
  if negb (isHost s) then s
  else
    let playerCount := Z.of_nat (length (keys (players s))) in
    let s1 :=
      resetStaticSent
        (set_players (pset playerId (createPlayer playerId playerCount name) (players s))
           s) in
    let '(state1, g1, ps1) :=
      Game.serializeGameState (game s1) (players s1) (roundActive s1) (countdown s1)
        (roundStartTime s1) (matchWinner s1) now in
    let s2 := add_log [Send conn (MsgInit playerId state1)]
                (set_players ps1 (set_game g1 s1)) in
    let s3 :=
      if gameStarted s2
      then match pget playerId (players s2) with
           | Some p => set_players (pset playerId (Player.set_alive false p) (players s2)) s2
           | None => s2
           end
      else s2 in
    let s4 := resetStaticSent
                (broadcastPlayerList (emit (EvPlayerJoined playerId name) s3)) in
    let '(state2, g2, ps2) :=
      Game.serializeGameState (game s4) (players s4) (roundActive s4) (countdown s4)
        (roundStartTime s4) (matchWinner s4) now in
    add_log [Send conn (MsgState state2)] (set_players ps2 (set_game g2 s4)).

(** The cases [init] and [state] of [handleMessage]: the snapshot is
    applied and the round state copied from it. *)
Definition receiveState (state : Game.State) (s : t) : t :=
  set_matchWinner (Game.st_mw state)
    (set_roundStartTime (Game.st_rst state)
       (set_countdown (Game.st_cd state)
          (set_roundActive (Game.st_ra state)
             (set_players (Game.applyGameState (players s) state) s)))).

(** The loop of the case [playerList]; every entry the host sends has
    all its fields. *)
Definition receivePlayerList (list : list (string * ListEntry)) (ps : Players)
  : Players :=
  fold_left
    (fun ps '(id, e) =>
       match pget id ps with
       | Some p =>
           pset id
             (Player.set_alive (le_alive e)
                (Player.set_lives (le_lives e) (Player.set_score (le_score e) p)))
             ps
       | None =>
           pset id
             (Player.set_alive (le_alive e)
                (Player.set_lives (le_lives e)
                   (Player.set_score (le_score e)
                      (Player.set_color (le_color e)
                         (createPlayer id (Z.of_nat (length (keys ps)))
                            (JS.VString (le_name e)))))))
             ps
       end)
    list ps.

(** [handleMessage(conn, data)]. *)
Definition handleMessage (now : Z) (conn : string) (data : Message) (s : t) : t :=
  match data with
  | MsgJoin playerId name => handleJoin now conn playerId name s
  | MsgInit playerId state =>
      emit (EvStateUpdate state) (emit (EvInit playerId) (receiveState state s))
  | MsgState state => emit (EvStateUpdate state) (receiveState state s)
  | MsgGameStart =>
      if negb (isHost s) then emit EvGameStart (set_gameStarted true s) else s
  | MsgInput uid turning =>
      if isHost s
      then set_players (Game.applyPlayerUpdate (players s) uid turning) s
      else s
  | MsgPlayerList list =>
      if negb (isHost s)
      then emit (EvPlayerList list)
             (set_players (receivePlayerList list (players s)) s)
      else s
  | MsgRestart =>
      if isHost s && truthy (matchWinner s) then startGame now s else s
  end.

Section Physics.
Context {M : MathLib}.

(** The loop [for (const id in this.players) if (p.alive)
    movePlayer(p, speed)]. *)
Fixpoint moveAll (speed : Q) (g : Game.Globals) (ps : Players)
  : Game.Globals * Players :=
  match ps with
  | [] => (g, [])
  | (k, p) :: r =>
      let '(g1, p1) :=
        if Player.alive p then Game.movePlayer g p speed else (g, p) in
      let '(g2, r1) := moveAll speed g1 r in
      (g2, (k, p1) :: r1)
  end.

(** [wasAlive[id]] for the dictionary [before]. *)
Definition wasAlive (before : Players) (k : string) : bool :=
  match pget k before with
  | Some p => Player.alive p
  | None => false
  end.

(** The loop that takes a life from everyone who died in this tick. *)
Definition loseLives (before : Players) (ps : Players) : Players :=
  map (fun '(k, p) =>
         if wasAlive before k && negb (Player.alive p)
         then (k, Player.set_lives (Z.max 0 (Player.lives p - 1)) p)
         else (k, p))
      ps.

Definition aliveCount (ps : Players) : Z :=
  Z.of_nat (length (List.filter (fun kp => Player.alive (snd kp)) ps)).

(** The competitors with lives left, in enumeration order:
    [withLivesCount] is the length and [lastWithLivesId] the last key. *)
Definition withLives (ps : Players) : list string :=
  map fst (List.filter (fun kp => Player.lives (snd kp) >? 0) ps).

(** The phases of [physicsTick] up to the life bookkeeping: movement,
    then collision detection, then the loss of lives. *)
Definition tickMove (now : Z) (s : t) : Game.Globals * Players :=
  moveAll (getGameSpeed (roundStartTime s) now) (game s) (players s).

Definition tickCollide (now : Z) (s : t) : Game.Globals * Players :=
  let '(g1, ps1) := tickMove now s in
  Game.checkCollisions g1 ps1.

(** The block run when at most one competitor is still alive. *)
Definition roundEnd (now : Z) (s : t) : t :=
  let s1 := stopPhysicsLoop (set_roundActive false s) in
  let ids := withLives (players s1) in
  if Z.of_nat (length ids) <=? 1 then
    let s2 :=
      if Z.of_nat (length ids) =? 1
      then set_matchWinner (last ids) s1 else s1 in
    broadcastState now (broadcastPlayerList (resetStaticSent s2))
  else
    addTimer AutoRestartTimeout 3000
      (broadcastState now (broadcastPlayerList (resetStaticSent s1))).

(** The state of the host after movement, collision detection and the
    loss of lives, where [physicsTick] counts who is still alive. *)
Definition tickLives (now : Z) (s : t) : t :=
  let '(g2, ps2) := tickCollide now s in
  set_players (loseLives (players s) ps2) (set_game g2 s).

(** [physicsTick()]. *)
Definition physicsTick (now : Z) (s : t) : t :=
  if negb (isHost s) || negb (roundActive s) then stopPhysicsLoop s
  else
    let s1 := tickLives now s in
    let s2 := if aliveCount (players s1) <=? 1 then roundEnd now s1 else s1 in
    let s3 := set_tickCounter (tickCounter s2 + 1) s2 in
    if tickCounter s3 >=? BROADCAST_EVERY
    then broadcastState now (set_tickCounter 0 s3)
    else s3.
End Physics.

(** [this.connections.get(peer)]: the state [open] of the connection, or
    [None] where there is none. *)
Fixpoint connGet (peer : string) (cs : list (string * bool)) : option bool :=
  match cs with
  | [] => None
  | (k, o) :: r => if String.eqb peer k then Some o else connGet peer r
  end.

(** [sendInput(turning)].  [myId] and [hostId] are the fields of the
    instance that [createRoom] and [joinRoom] set. *)
Definition sendInput (myId hostId : string) (turning : Z) (s : t) : t :=
  if isHost s then
    match pget myId (players s) with
    | Some p => set_players (pset myId (Player.set_turning turning p) (players s)) s
    | None => s
    end
  else
    match connGet hostId (connections s) with
    | Some true => add_log [Send hostId (MsgInput myId turning)] s
    | _ => s
    end.

(** [sendRestart()]. *)
Definition sendRestart (hostId : string) (s : t) : t :=
  if negb (isHost s) then
    match connGet hostId (connections s) with
    | Some true => add_log [Send hostId MsgRestart] s
    | _ => s
    end
  else s.

(** The callback of [close] that [handleConnection] registers for the
    connection of [peer]: the new state, and the [playerId] of the
    [playerLeft] event it emits. *)
Definition handleClose (peer : string) (s : t) : t * string :=
  (set_players (pdel peer (players s))
     (set_connections
        (List.filter (fun c => negb (String.eqb peer (fst c))) (connections s)) s),
   peer).

(** [disconnect()]. *)
Definition disconnect (s : t) : t :=
  set_players [] (set_connections [] (stopPhysicsLoop s)).

End Net.

(** * Vocabulary of the specification *)

(** [r] is [s] with its leading and trailing white space removed. *)
Definition stripped (s r : JS.jsstring) : Prop :=
  exists pre post,
    s = pre ++ r ++ post
    /\ forallb JS.isWhiteSpace pre = true
    /\ forallb JS.isWhiteSpace post = true
    /\ (forall c t, r = c :: t -> JS.isWhiteSpace c = false)
    /\ (forall t c, r = t ++ [c] -> JS.isWhiteSpace c = false).


(** The elapsed time of a round in seconds, from two clock readings in
    milliseconds. *)
Definition elapsedSeconds (roundStartTime now : Z) : Q :=
  (inject_Z (now - roundStartTime) / 1000)%Q.

(** The speed curve in the words of the specification:
    min(BASE_SPEED + floor(elapsedSeconds / SPEED_INTERVAL) * SPEED_INCREMENT,
    MAX_SPEED). *)
Definition speedAtElapsed (elapsed : Q) : Q :=
  Qmin (BASE_SPEED + inject_Z (Qfloor (elapsed / SPEED_INTERVAL)) * SPEED_INCREMENT)%Q
       MAX_SPEED.

(** The elapsed times, in milliseconds, for which the 32-bit truncation of
    [getGameSpeed] is the floor: from 0 up to 2^31 speed intervals. *)
Definition SPEED_RANGE_MS : Z := 2 ^ 31 * 10000.

(** The sample at logical position [i] of the trail of [p] (0 is the
    oldest live sample). *)
Definition trailSample (p : Player.t) (i : Z) : Q * Q :=
  (JS.aget 0%Q (Player.trailX p) (trailGetIndex p i),
   JS.aget 0%Q (Player.trailY p) (trailGetIndex p i)).

(** The shape of a trail store: two arrays of [TRAIL_MAX] slots, [start]
    a slot, [length] at most the capacity. *)
Definition trailStore (p : Player.t) : Prop :=
  length (Player.trailX p) = Z.to_nat TRAIL_MAX
  /\ length (Player.trailY p) = Z.to_nat TRAIL_MAX
  /\ 0 <= Player.trailStart p < TRAIL_MAX
  /\ 0 <= Player.trailLen p <= TRAIL_MAX.

(** The invariant of the counters of a trail store. *)
Definition trailInv (p : Player.t) : Prop :=
  0 <= Player.trailSentCount p <= Player.trailLen p
  /\ Player.trailLen p <= TRAIL_MAX.

(** The bound on the length alone. *)
Definition trailLenOk (p : Player.t) : Prop :=
  0 <= Player.trailLen p <= TRAIL_MAX.

(** [trailPush] called once for each sample of a list, in order. *)
Definition pushAll (g : Game.Globals) (p : Player.t) (samples : list (Q * Q))
  : Game.Globals * Player.t :=
  fold_left (fun gp '(x, y) => Game.trailPush (fst gp) (snd gp) x y) samples (g, p).

(** The trail of [p] holds the last [trailLen p] samples of [samples],
    oldest first, and that is all of them up to the capacity. *)
Definition holdsLast (p : Player.t) (samples : list (Q * Q)) : Prop :=
  trailStore p
  /\ Player.trailLen p = Z.min (Z.of_nat (length samples)) TRAIL_MAX
  /\ forall i, 0 <= i < Player.trailLen p ->
       samples !! Z.to_nat (Z.of_nat (length samples) - Player.trailLen p + i)
       = Some (trailSample p i).

(** The samples a trail holds, oldest first. *)
Definition trailContents (p : Player.t) : list (Q * Q) :=
  map (trailSample p) (JS.range (Player.trailLen p)).

(** A run of 601 samples along a diagonal, and a new competitor. *)
Definition diagonal601 : list (Q * Q) :=
  map (fun i => (inject_Z i, inject_Z (2 * i))) (JS.range 601).

Definition rookie : Player.t := createPlayer "host" 0 (JS.VString (JS.str "Ann")).

(** The invariant, and the bound on the length, for every competitor of a
    dictionary. *)
Definition allTrailInv (ps : Players) : Prop :=
  Forall (fun kp => trailInv (snd kp)) ps.

Definition allTrailLenOk (ps : Players) : Prop :=
  Forall (fun kp => trailLenOk (snd kp)) ps.

(** The number of samples at the front of a flat delta, an incomplete
    last pair counted as one. *)
Definition deltaCount (trail : list Z) : Z := (Z.of_nat (length trail) + 1) / 2.

(** What an entry [pd] for the key [id] must satisfy for the sent count
    that [applyGameState] copies from it to fit the trail of the mirror: it
    carries no delta, or it reports an empty trail, or its [tc] lies
    between 0 and the length the trail of the mirror has after the delta. *)
Definition deltaFits (ps : Players) (id : string) (pd : Game.PlayerState) : Prop :=
  match Game.ps_tr pd with
  | Some (v :: trail) =>
      Game.ps_tl pd = Some 0
      \/ 0 <= default 0 (Game.ps_tc pd)
         <= Z.min TRAIL_MAX
              (match pget id ps with Some p => Player.trailLen p | None => 0 end
               + deltaCount (v :: trail))
  | _ => True
  end.

(** A host in the middle of a round: its only competitor has pushed three
    samples, two of which went out with an earlier snapshot. *)
Definition midRoundHost : Players :=
  [ ("host"%string,
     let p := snd (pushAll Game.initial rookie [(700, 450); (702, 450); (704, 450)]%Q) in
     Player.set_pose 704 450 0
       (Player.set_trail (Player.trailX p) (Player.trailY p) (Player.trailLen p)
          (Player.trailStart p) 2 p)) ].

(** The snapshot that host sends next. *)
Definition midRoundSnapshot : Game.State :=
  fst (fst (Game.serializeGameState Game.initial midRoundHost true 0 (Some 1000) None 2000)).

(** The rounding tolerance of the codec: 0.05 units for each coordinate,
    0.0005 rad for the heading. *)
Definition withinTolerance (host mirror : Player.t) : Prop :=
  (Qabs (Player.x mirror - Player.x host) <= 1 # 20)%Q
  /\ (Qabs (Player.y mirror - Player.y host) <= 1 # 20)%Q
  /\ (Qabs (Player.angle mirror - Player.angle host) <= 1 # 2000)%Q.

(** The states of a competitor the codec carries to a new mirror within
    the tolerance and with the whole trail: position and heading not
    negative and, once scaled, below 2^31; nothing of the trail sent yet;
    a trail length within the capacity. *)
Definition roundTrips (p : Player.t) : Prop :=
  (0 <= Player.x p)%Q /\ (Player.x p * 10 + (1 # 2) < inject_Z (2 ^ 31))%Q
  /\ (0 <= Player.y p)%Q /\ (Player.y p * 10 + (1 # 2) < inject_Z (2 ^ 31))%Q
  /\ (0 <= Player.angle p)%Q /\ (Player.angle p * 1000 + (1 # 2) < inject_Z (2 ^ 31))%Q
  /\ Player.trailSentCount p = 0
  /\ 0 <= Player.trailLen p <= TRAIL_MAX.

(** The snapshot of a dictionary, and the mirror a participant with no
    state of its own builds from it. *)
Definition snapshotOf (g : Game.Globals) (players : Players) (now : Z) : Game.State :=
  fst (fst (Game.serializeGameState g players true 0 (Some 1000) None now)).

Definition freshMirror (state : Game.State) : Players :=
  Game.applyGameState [] state.

(** A competitor half a unit beyond the left wall, turned 45 mrad to the
    left, just marked not alive; two of its three trail samples had been
    sent. *)
Definition beyondWall : Players :=
  [ ("host"%string,
     let p := snd (pushAll Game.initial rookie [(2, 450); (1, 450); (-1 # 2, 450)]%Q) in
     Player.set_alive false
       (Player.set_pose (-1 # 2) 450 (-45 # 1000)
          (Player.set_trail (Player.trailX p) (Player.trailY p) (Player.trailLen p)
             (Player.trailStart p) 2 p))) ].

(** A competitor in the middle of the arena with three samples to send. *)
Definition midArena : Players :=
  [ ("host"%string,
     Player.set_pose (7047 # 10) 450 (1234 # 1000)
       (snd (pushAll Game.initial rookie [(700, 450); (702, 450); (7047 # 10, 450)]%Q))) ].

(** How many of the first [n] competitors of the enumeration still have
    lives. *)
Definition livesRank (ps : Players) (n : nat) : Z :=
  Z.of_nat (length (List.filter (fun kp => Player.lives (snd kp) >? 0) (take n ps))).

Definition trailReset (p : Player.t) : Prop :=
  Player.trailLen p = 0 /\ Player.trailStart p = 0 /\ Player.trailSentCount p = 0.

Definition placedAt (sp : Spawn) (p : Player.t) : Prop :=
  Player.x p = spawn_x sp /\ Player.y p = spawn_y sp
  /\ Player.angle p = spawn_angle sp /\ Player.turning p = 0.

(** Two competitors before a round: the first has lost all its lives. *)
Definition secondRound : Players :=
  [ ("1234"%string, Player.set_lives 0 (createPlayer "1234" 0 (JS.VString (JS.str "Ann"))));
    ("peer-b"%string, Player.set_lives 2 (createPlayer "peer-b" 1 (JS.VString (JS.str "Bob")))) ].

(** A host alone in its lobby, and the lobby after a second participant
    has connected and joined. *)
Definition lobbyAlone : Net.t := Net.createRoom "1234" (JS.VString (JS.str "Ann")).

Definition lobbyTwo : Net.t :=
  Net.handleMessage 1000 "peer-b" (Net.MsgJoin "peer-b" (JS.VString (JS.str "Bob")))
    (Net.handleConnection "peer-b" true lobbyAlone).

(** The effects an operation added to the trace. *)
Definition newEffects (before after : Net.t) : list Net.Effect :=
  drop (length (Net.log before)) (Net.log after).

(** The fields of the host that steer the life cycle, apart from the
    competitors, the module state of game.js and the trace. *)
Record Control := {
  c_isHost : bool;
  c_roundActive : bool;
  c_countdown : Z;
  c_roundStartTime : option Z;
  c_matchWinner : option string;
  c_gameStarted : bool;
  c_physicsInterval : option nat;
  c_timers : list Net.Timer;
  c_nextTimer : nat
}.

Definition control (s : Net.t) : Control :=
  {| c_isHost := Net.isHost s;
     c_roundActive := Net.roundActive s;
     c_countdown := Net.countdown s;
     c_roundStartTime := Net.roundStartTime s;
     c_matchWinner := Net.matchWinner s;
     c_gameStarted := Net.gameStarted s;
     c_physicsInterval := Net.physicsInterval s;
     c_timers := Net.timers s;
     c_nextTimer := Net.nextTimer s |}.

(** The timeout that restarts the countdown after a round, and the
    interval of the countdown, with the handle [h]. *)
Definition autoRestartTimer (h : nat) : Net.Timer :=
  {| Net.timer_id := h; Net.timer_kind := Net.AutoRestartTimeout; Net.timer_ms := 3000 |}.

Definition countdownTimer (h : nat) : Net.Timer :=
  {| Net.timer_id := h; Net.timer_kind := Net.CountdownInterval; Net.timer_ms := 1000 |}.

(** The position lies outside [0, CANVAS_W] x [0, CANVAS_H]. *)
Definition leavesArena (x y : Q) : Prop :=
  (x < 0 \/ inject_Z CANVAS_W < x \/ y < 0 \/ inject_Z CANVAS_H < y)%Q.

(** The competitor stored under [k] is not alive. *)
Definition notAlive (k : string) (ps : Players) : Prop :=
  exists p, pget k ps = Some p /\ Player.alive p = false.

(** Cosine and sine by their Taylor polynomials of degree 4 and 5, exact
    at the heading 0. *)
Definition taylorMath : MathLib :=
  {| cos := fun a => (1 - a * a / 2 + a * a * a * a / 24)%Q;
     sin := fun a => (a - a * a * a / 6 + a * a * a * a * a / 120)%Q |}.

(** The host of [lobbyTwo] has started the match at 2 s and the countdown
    has run down: the first round is active from 5 s on. *)
Definition roundStarted : Net.t :=
  Net.countdownTick 1 5000
    (Net.countdownTick 1 4000
       (Net.countdownTick 1 3000 (Net.startGame 2000 lobbyTwo))).

(** The dictionary of [s] with the competitor under [k] moved to (x, y),
    heading 0, and given [lives] lives. *)
Definition relocate (k : string) (x y : Q) (lives : Z) (ps : Players) : Players :=
  match pget k ps with
  | Some p => pset k (Player.set_lives lives (Player.set_pose x y 0 p)) ps
  | None => ps
  end.

(** Both competitors of the round head for the right wall, less than one
    step away from it. *)
Definition headingOut : Net.t :=
  Net.set_players
    (relocate "peer-b" 1398 700 6 (relocate "1234" 1399 200 6 (Net.players roundStarted)))
    roundStarted.

(** The participant is on its last life, one step from the right wall;
    the host is in the middle of the arena. *)
Definition lastStand : Net.t :=
  Net.set_players
    (relocate "peer-b" 1398 700 1 (relocate "1234" 700 450 3 (Net.players roundStarted)))
    roundStarted.

(** The collision test in the words of the specification: both axis
    deltas within the collision radius, then the squared distance below
    the squared radius. *)
Definition withinRadius (px py tx ty : Q) : Prop :=
  (- COLLISION_RADIUS <= px - tx <= COLLISION_RADIUS
   /\ - COLLISION_RADIUS <= py - ty <= COLLISION_RADIUS
   /\ (px - tx) * (px - tx) + (py - ty) * (py - ty) < COLLISION_RADIUS_SQ)%Q.

(** The grace rule of the specification for the sample at the logical
    position [pos] of the trail of [owner], examined for the competitor
    [p]: it is [p]'s own and among its last [COLLISION_SKIP_OWN] samples,
    or it belongs to another competitor that is not alive (or is gone), or
    it belongs to another competitor and is among its last 2 samples. *)
Definition graceSkipped (players : Players) (p : Player.t) (owner : string) (pos : Z)
  : Prop :=
  (owner = Player.id p /\ Player.trailLen p - COLLISION_SKIP_OWN <= pos)
  \/ (owner <> Player.id p
      /\ forall other, pget owner players = Some other -> Player.alive other = false)
  \/ (owner <> Player.id p
      /\ exists other,
           pget owner players = Some other /\ Player.trailLen other - 2 <= pos).

(** A competitor with the given identity, position and trail, the samples
    oldest first. *)
Definition rider (id : string) (index : Z) (x y : Q) (trail : list (Q * Q)) : Player.t :=
  Player.set_pose x y 0
    (snd (pushAll Game.initial (createPlayer id index (JS.VString (JS.str "Rider"))) trail)).

(** Two living competitors that meet head on: the host rides to the
    left, the participant to the right, their heads 3 units apart; the
    next older sample of each is 5.5 units from the head of the other. *)
Definition headOn : Players :=
  [ ("1234"%string, rider "1234" 0 108 100 [(221 # 2, 100); (108, 100)]%Q);
    ("peer-b"%string,
     rider "peer-b" 1 105 100
       [(95, 100); (195 # 2, 100); (100, 100); (205 # 2, 100); (105, 100)]%Q) ].

(** A tick in which the participant, alive before it, leaves the arena
    through the right wall while the host rides 2 units beside the older
    part of its trail: the dictionary and the module state before the
    movement loop, the spatial index being up to date. *)
Definition besideTrail : Players :=
  [ ("1234"%string, rider "1234" 0 1385 102 [(2765 # 2, 102); (1385, 102)]%Q);
    ("peer-b"%string,
     rider "peer-b" 1 1400 100
       [(1390, 100); (2785 # 2, 100); (1395, 100); (2795 # 2, 100); (1400, 100)]%Q) ].

Definition besideTrailIndexed : Game.Globals :=
  Game.rebuildSpatialGrid Game.initial besideTrail.

(** Who is alive in a dictionary. *)
Definition aliveFlags (ps : Players) : list (string * bool) :=
  map (fun kp => (fst kp, Player.alive (snd kp))) ps.

(** What can happen to the host object between two of its callbacks: a
    connection arrives, a message arrives, the user of the host presses
    start or steers, and a timer that is pending fires. *)
Inductive hostStep {M : MathLib} : Net.t -> Net.t -> Prop :=
| StepConnection (peer : string) (open : bool) (s : Net.t) :
    hostStep s (Net.handleConnection peer open s)
| StepMessage (now : Z) (conn : string) (data : Net.Message) (s : Net.t) :
    hostStep s (Net.handleMessage now conn data s)
| StepStartGame (now : Z) (s : Net.t) :
    hostStep s (Net.startGame now s)
| StepCountdown (h : nat) (now : Z) (s : Net.t) :
    In (countdownTimer h) (Net.timers s) ->
    hostStep s (Net.countdownTick h now s)
| StepAutoRestart (h : nat) (now : Z) (s : Net.t) :
    In (autoRestartTimer h) (Net.timers s) ->
    hostStep s (Net.autoRestart h now s)
| StepPhysics (h : nat) (now : Z) (s : Net.t) :
    Net.physicsInterval s = Some h ->
    hostStep s (Net.physicsTick now s).

(** The states a host reaches from the creation of its room. *)
Inductive hostReachable {M : MathLib} : Net.t -> Prop :=
| ReachCreate (id : string) (playerName : JS.value) :
    hostReachable (Net.createRoom id playerName)
| ReachStep (s s' : Net.t) :
    hostReachable s -> hostStep s s' -> hostReachable s'.

(** While a clock of the life cycle is pending the match has been
    started. *)
Definition clocksStarted (s : Net.t) : Prop :=
  Net.isHost s = true
  /\ (Net.physicsInterval s <> None \/ Net.timers s <> [] -> Net.gameStarted s = true).

(** ** Vocabulary for the properties of the remaining code *)

(** A position the wall test of [movePlayer] accepts. *)
Definition insideArena (x y : Q) : Prop :=
  (0 <= x <= inject_Z CANVAS_W /\ 0 <= y <= inject_Z CANVAS_H)%Q.

(** The grid of the list-per-cell index, when there is one, has one list
    for every cell. *)
Definition gridShape (g : GameList.Globals) : Prop :=
  forall gr, GameList.spatialGrid g = Some gr -> length gr = Z.to_nat GRID_TOTAL.

(** The reference the list-per-cell index keeps for the sample at the
    logical position [i] of the trail of [p], stored under [owner]. *)
Definition entryOf (owner : string) (p : Player.t) (i : Z) : GameList.CellEntry :=
  {| GameList.ce_playerId := owner;
     GameList.ce_bufIdx := trailGetIndex p i;
     GameList.ce_trailPos := i |}.

(** The cell of the sample at the logical position [i] of the trail of [p]. *)
Definition sampleCell (p : Player.t) (i : Z) : Z :=
  getCellIndex (fst (trailSample p i)) (snd (trailSample p i)).

(** [e] is the reference to a sample of a living competitor of [ps] that
    lies in the cell [c]. *)
Definition indexed (ps : Players) (c : Z) (e : GameList.CellEntry) : Prop :=
  exists k p i,
    In (k, p) ps /\ Player.alive p = true /\ 0 <= i < Player.trailLen p
    /\ sampleCell p i = c /\ e = entryOf k p i.

(** The grid [checkCollisions] works on after a rebuild. *)
Definition rebuiltGrid (g : GameList.Globals) (ps : Players)
  : list (list GameList.CellEntry) :=
  default [] (GameList.spatialGrid (GameList.rebuildSpatialGrid g ps)).

(** A sample of a living competitor that has a cell, is not passed over by
    the grace rule for [p] and lies within the collision radius of [p]. *)
Definition lethalSample (ps : Players) (p : Player.t) : Prop :=
  exists owner o i,
    pget owner ps = Some o /\ Player.alive o = true
    /\ 0 <= i < Player.trailLen o /\ 0 <= sampleCell o i
    /\ ~ graceSkipped ps p owner i
    /\ withinRadius (Player.x p) (Player.y p)
         (fst (trailSample o i)) (snd (trailSample o i)).

(** [ps'] is [ps] with some competitors marked not alive, and nothing
    else changed: the same keys in the same order, every competitor
    either untouched or differing in [alive] alone. *)
Definition onlyDeaths (ps ps' : Players) : Prop :=
  keys ps' = keys ps
  /\ forall k p, pget k ps = Some p ->
       exists p', pget k ps' = Some p'
                  /\ (p' = p \/ p' = Player.set_alive false p).

(** The point pool of the bit-field index is within its capacity and the
    bit field, when there is one, has one byte for every cell. *)
Definition poolOk (g : Game.Globals) : Prop :=
  Game.gridPointCount g <= Game.MAX_GRID_ENTRIES
  /\ forall bf, Game.spatialBitfield g = Some bf -> length bf = Z.to_nat GRID_TOTAL.

(** *** Delta synchronisation *)

(** Two competitors with the same trail store. *)
Definition sameTrail (p q : Player.t) : Prop :=
  Player.trailX p = Player.trailX q /\ Player.trailY p = Player.trailY q
  /\ Player.trailLen p = Player.trailLen q
  /\ Player.trailStart p = Player.trailStart q.

(** A coordinate of a trail sample as it arrives: encoded by
    [(v * 10 + 0.5) | 0], stored in the [Int16Array] buffer, divided by 10
    on arrival. *)
Definition wireCoord (v : Q) : Q :=
  (inject_Z (JS.toInt16 (Game.encode10 v)) / 10)%Q.

Definition wireSample (s : Q * Q) : Q * Q :=
  (wireCoord (fst s), wireCoord (snd s)).

(** The samples of the trail of [h] that have been transmitted: the
    first [trailSentCount] of the samples it holds. *)
Definition sentPart (h : Player.t) : list (Q * Q) :=
  take (Z.to_nat (Player.trailSentCount h)) (trailContents h).

(** The copy [m] of a participant is in step with the authoritative
    competitor [h]: the trail of [m] holds the newest samples (up to the
    capacity) of what it has received, which ends with the transmitted
    part of the trail of [h]; [older] are the samples received before the
    oldest sample [h] still holds. *)
Definition mirrors (h m : Player.t) : Prop :=
  trailStore h /\ trailInv h
  /\ exists older, holdsLast m (older ++ map wireSample (sentPart h)).

(** What [applyGameState] makes of the copy [m] for the entry [pd]. *)
Definition applyEntry (pd : Game.PlayerState) (m : Player.t) : Player.t :=
  Game.applyScalars pd (Game.applyReset pd (Game.applyDelta pd m)).

(** The competitor [serializeGameState] leaves behind. *)
Definition afterSend (h : Player.t) : Player.t :=
  snd (Game.serializePlayer false h).

(** A competitor three samples into a round, nothing of its trail sent. *)
Definition threeAhead : Player.t :=
  snd (pushAll Game.initial rookie [(700, 450); (702, 450); (704, 450)]%Q).

(** ** client.js: what its callbacks and key handlers do to the [Network] object

    The user interface of client.js (canvas, overlays, score board) is not
    modelled; the definitions below are the statements of its callbacks
    that read or write the [Network] instance. *)

Module Client.

(** [keysDown.has(k)]. *)
Definition has (keysDown : list string) (k : string) : bool :=
  existsb (String.eqb k) keysDown.

(** The value [dir] that [updateTurnDirection] passes to [sendInput]. *)
Definition turnDirection (keysDown : list string) : Z :=
  let left := has keysDown "ArrowLeft" || has keysDown "a" || has keysDown "A" in
  let right := has keysDown "ArrowRight" || has keysDown "d" || has keysDown "D" in
  let dir := 0 in
  let dir := if left && negb right then -1 else dir in
  if right && negb left then 1 else dir.

(** The callback registered for [stateUpdate]: the snapshot is applied
    when the instance is not the host, and the round state is copied. *)
Definition onStateUpdate (state : Game.State) (c : Net.t) : Net.t :=
  let c1 :=
    if negb (Net.isHost c)
    then Net.set_players (Game.applyGameState (Net.players c) state) c
    else c in
  Net.set_countdown (Game.st_cd state)
    (Net.set_roundStartTime (Game.st_rst state)
       (Net.set_roundActive (Game.st_ra state) c1)).

(** A [state] message arriving at an instance: the case [state] of
    [handleMessage], whose [emit('stateUpdate', ...)] runs the callback
    before it returns. *)
Definition receiveStateMessage (now : Z) (conn : string) (state : Game.State)
    (c : Net.t) : Net.t :=
  onStateUpdate state (Net.handleMessage now conn (Net.MsgState state) c).

End Client.

(** Every competitor of [hs] has a copy in [ms] that is in step with it. *)
Definition allMirrored (hs ms : Players) : Prop :=
  forall k h, pget k hs = Some h -> exists m, pget k ms = Some m /\ mirrors h m.

(** The samples of the trail of [h] that have not been transmitted. *)
Definition unsentPart (h : Player.t) : list (Q * Q) :=
  drop (Z.to_nat (Player.trailSentCount h)) (trailContents h).

(** A participant that knows the host and a second competitor, before any
    snapshot has arrived. *)
Definition participant : Net.t :=
  {| Net.isHost := false;
     Net.players := [("host"%string, rookie)];
     Net.roundActive := true;
     Net.countdown := 0;
     Net.roundStartTime := Some 1000;
     Net.matchWinner := None;
     Net.gameStarted := true;
     Net.tickCounter := 0;
     Net.physicsInterval := None;
     Net.connections := [("host"%string, true)];
     Net.game := Game.initial;
     Net.timers := [];
     Net.nextTimer := 1;
     Net.log := [] |}.

(** Two competitors with the same identifier, turn intent and spawn
    index: what a snapshot never writes. *)
Definition sameIdentity (p q : Player.t) : Prop :=
  Player.id p = Player.id q /\ Player.turning p = Player.turning q
  /\ Player.spawnIndex p = Player.spawnIndex q.

(** The calls of [conn.send(m)] of the loop over the open connections. *)
Definition sendsTo (cs : list (string * bool)) (m : Net.Message) : list Net.Effect :=
  flat_map (fun '(peer, open) => if open : bool then [Net.Send peer m] else []) cs.

(** The snapshot [broadcastState] takes of the host [s] at the time [now]. *)
Definition snapshot (now : Z) (s : Net.t) : Game.State :=
  fst (fst (Game.serializeGameState (Net.game s) (Net.players s) (Net.roundActive s)
              (Net.countdown s) (Net.roundStartTime s) (Net.matchWinner s) now)).

(** A dictionary with a function applied to every competitor. *)
Definition pmap (f : Player.t -> Player.t) (ps : Players) : Players :=
  map (fun kp => (fst kp, f (snd kp))) ps.

(** [q] is [p] but for [trailSentCount]: what taking a snapshot does to a
    competitor, if anything. *)
Definition sameButSent (p q : Player.t) : Prop :=
  q = Player.set_trail (Player.trailX p) (Player.trailY p) (Player.trailLen p)
        (Player.trailStart p) (Player.trailSentCount q) p.

(** The fields of a competitor that only the life cycle writes. *)
Definition sameStanding (p q : Player.t) : Prop :=
  Player.id q = Player.id p /\ Player.name q = Player.name p
  /\ Player.score q = Player.score p /\ Player.lives q = Player.lives p
  /\ Player.color q = Player.color p /\ Player.spawnIndex q = Player.spawnIndex p
  /\ Player.turning q = Player.turning p.

(** The object [list] that [broadcastPlayerList] builds from a dictionary. *)
Definition playerList (ps : Players) : list (string * Net.ListEntry) :=
  map (fun '(k, p) =>
         (k, {| Net.le_id := Player.id p; Net.le_name := Player.name p;
                Net.le_score := Player.score p; Net.le_lives := Player.lives p;
                Net.le_color := Player.color p; Net.le_alive := Player.alive p |}))
      ps.

(** The entries of a snapshot of the dictionary [ps] that carries the
    static fields. *)
Definition fullEntries (ps : Players) : list (string * Game.PlayerState) :=
  map (fun kp => (fst kp, fst (Game.serializePlayer true (snd kp)))) ps.

(** The player byte [gridInsertPoint] stores for a sample of [p]:
    [p.spawnIndex + 1], or 1 where that is 0, in a [Uint8Array]. *)
Definition insertByte (p : Player.t) : Z :=
  JS.toUint8 (if Player.spawnIndex p + 1 =? 0 then 1 else Player.spawnIndex p + 1).

(** The pool point [trailPush] inserts for the sample it stores at the
    logical position [pos] of the trail of [p]. *)
Definition insertedPoint (p : Player.t) (x y : Q) (pos : Z) : Game.GridPoint :=
  {| Game.ptX := x; Game.ptY := y; Game.ptPlayer := insertByte p;
     Game.ptTrailPos := JS.toUint16 pos |}.

(** Three competitors in a started match of which the second has left:
    the third one keeps its spawn index 2 and is now second in the
    dictionary. *)
Definition thirdRider : Player.t := rider "peer-c" 2 1150 700 [(1150, 700)]%Q.

Definition afterDeparture : Players :=
  [ ("1234"%string, rider "1234" 0 250 200 [(250, 200)]%Q);
    ("peer-c"%string, thirdRider) ].

(** *** The bit-field index after a rebuild *)

(** The pool point a rebuild stores for the sample at the logical position
    [i] of the trail of the competitor at place [rank] of the dictionary,
    places counted from 1. *)
Definition poolPoint (rank : Z) (p : Player.t) (i : Z) : Game.GridPoint :=
  {| Game.ptX := fst (trailSample p i); Game.ptY := snd (trailSample p i);
     Game.ptPlayer := JS.toUint8 rank; Game.ptTrailPos := JS.toUint16 i |}.

(** The number of samples the living competitors hold. *)
Fixpoint livingSamples (ps : Players) : Z :=
  match ps with
  | [] => 0
  | (_, p) :: r =>
      (if Player.alive p then Z.max 0 (Player.trailLen p) else 0) + livingSamples r
  end.

(** The bit field is allocated, one byte for every cell. *)
Definition allocated (g : Game.Globals) : Prop :=
  exists bf, Game.spatialBitfield g = Some bf /\ length bf = Z.to_nat GRID_TOTAL.

(** The cell of every pool point is marked in the bit field. *)
Definition marked (g : Game.Globals) : Prop :=
  forall pt, In pt (Game.gridPoints g) ->
    Game.bitfieldAt g (getCellIndex (Game.ptX pt) (Game.ptY pt)) <> 0.

(** A sample the bit-field copy of [checkCollisions] finds lethal for the
    competitor [p] it examines under the index [myIndex]: a sample of a
    living competitor that has a cell and lies within the collision
    radius; of the competitor at place [myIndex] of the dictionary, one
    older than its last [COLLISION_SKIP_OWN] samples counted on the trail
    of [p]; of any other competitor, one at a logical position below 598. *)
Definition bitfieldLethal (ps : Players) (p : Player.t) (myIndex : Z) : Prop :=
  exists n owner o i,
    ps !! n = Some (owner, o) /\ Player.alive o = true
    /\ 0 <= i < Player.trailLen o /\ 0 <= sampleCell o i
    /\ (if Z.of_nat n + 1 =? myIndex
        then i < Player.trailLen p - COLLISION_SKIP_OWN
        else i < 598)
    /\ withinRadius (Player.x p) (Player.y p)
         (fst (trailSample o i)) (snd (trailSample o i)).
(** * Properties *)

(** ** Strings *)

Lemma trimStart_nil_iff (s : JS.jsstring) :
  JS.trimStart s = [] <-> forallb JS.isWhiteSpace s = true.
Proof.
  induction s as [|c r IH]; simpl; [tauto|].
  destruct (JS.isWhiteSpace c); simpl; [exact IH|].
  split; discriminate.
Qed.

Lemma trimStart_split (s : JS.jsstring) :
  exists pre, s = pre ++ JS.trimStart s /\ forallb JS.isWhiteSpace pre = true.
Proof.
  induction s as [|c r [pre [E W]]]; simpl.
  - exists []. split; reflexivity.
  - destruct (JS.isWhiteSpace c) eqn:Hc.
    + exists (c :: pre). simpl. rewrite Hc, W. split; [congruence | reflexivity].
    + exists []. split; reflexivity.
Qed.

Lemma trimStart_head (s : JS.jsstring) (c : N) (r : JS.jsstring) :
  JS.trimStart s = c :: r -> JS.isWhiteSpace c = false.
Proof.
  induction s as [|d t IH]; simpl; [discriminate|].
  destruct (JS.isWhiteSpace d) eqn:Hd; [exact IH|].
  intros E. injection E as -> _. exact Hd.
Qed.

Lemma forallb_rev {A} (f : A -> bool) (l : list A) :
  forallb f (rev l) = forallb f l.
Proof.
  induction l as [|a l IH]; simpl; [reflexivity|].
  rewrite forallb_app, IH. simpl. rewrite andb_true_r. apply andb_comm.
Qed.

Lemma trimEnd_split (s : JS.jsstring) :
  exists post, s = JS.trimEnd s ++ post /\ forallb JS.isWhiteSpace post = true.
Proof.
  unfold JS.trimEnd.
  destruct (trimStart_split (rev s)) as [pre [E W]].
  exists (rev pre). split.
  - rewrite <- rev_app_distr, <- E. symmetry. apply rev_involutive.
  - rewrite forallb_rev. exact W.
Qed.

Lemma trimEnd_last (s r : JS.jsstring) (c : N) :
  JS.trimEnd s = r ++ [c] -> JS.isWhiteSpace c = false.
Proof.
  unfold JS.trimEnd. intros E.
  apply (f_equal (@rev N)) in E.
  rewrite rev_involutive, rev_app_distr in E. simpl in E.
  exact (trimStart_head _ _ _ E).
Qed.

Lemma trimEnd_nil_iff (s : JS.jsstring) :
  JS.trimEnd s = [] <-> forallb JS.isWhiteSpace s = true.
Proof.
  unfold JS.trimEnd. rewrite <- (forallb_rev _ s), <- trimStart_nil_iff.
  split; intros E.
  - apply (f_equal (@rev N)) in E. rewrite rev_involutive in E. exact E.
  - rewrite E. reflexivity.
Qed.

(** Stripping the end keeps the first character of a string that is not
    all white space. *)
Lemma trimEnd_head (s : JS.jsstring) (c : N) (r : JS.jsstring) :
  JS.isWhiteSpace c = false ->
  exists r', JS.trimEnd (c :: s) = c :: r'.
Proof.
  intros Hc.
  destruct (trimEnd_split (c :: s)) as [post [E W]].
  destruct (JS.trimEnd (c :: s)) as [|d r'] eqn:T.
  - simpl in E. subst post. simpl in W. rewrite Hc in W. discriminate.
  - simpl in E. injection E as -> _. eauto.
Qed.

Lemma trim_nil_iff (s : JS.jsstring) :
  JS.trim s = [] <-> forallb JS.isWhiteSpace s = true.
Proof.
  unfold JS.trim. split; intros E.
  - apply trimEnd_nil_iff in E. apply trimStart_nil_iff.
    destruct (JS.trimStart s) as [|c r] eqn:T; [reflexivity|].
    pose proof (trimStart_head _ _ _ T) as Hc.
    simpl in E. rewrite Hc in E. discriminate.
  - apply trimStart_nil_iff in E. rewrite E. reflexivity.
Qed.

Lemma trim_stripped (s : JS.jsstring) : stripped s (JS.trim s).
Proof.
  unfold JS.trim.
  destruct (trimStart_split s) as [pre [E1 W1]].
  destruct (trimEnd_split (JS.trimStart s)) as [post [E2 W2]].
  exists pre, post. repeat split; try assumption.
  - rewrite <- E2. exact E1.
  - intros c t E.
    destruct (JS.trimStart s) as [|d u] eqn:T.
    + unfold JS.trimEnd in E. simpl in E. discriminate.
    + pose proof (trimStart_head _ _ _ T) as Hd.
      destruct (trimEnd_head u d u Hd) as [r' E'].
      rewrite E' in E. injection E as -> _. exact Hd.
  - intros t c E. exact (trimEnd_last _ _ _ E).
Qed.

(** ** Integer conversions *)

Lemma wrap_small (bits z : Z) :
  0 < bits -> - 2 ^ (bits - 1) <= z < 2 ^ (bits - 1) -> JS.wrap bits z = z.
Proof.
  intros Hb Hz. unfold JS.wrap.
  assert (E : 2 ^ bits = 2 * 2 ^ (bits - 1)).
  { replace bits with (Z.succ (bits - 1)) at 1 by lia.
    rewrite Z.pow_succ_r by lia. reflexivity. }
  rewrite Z.mod_small by lia. lia.
Qed.

Lemma Qtrunc_nonneg (q : Q) : (0 <= q)%Q -> JS.Qtrunc q = Qfloor q.
Proof.
  destruct q as [n d]. unfold Qle. simpl. intros H.
  unfold JS.Qtrunc. simpl. apply Z.quot_div_nonneg; lia.
Qed.

Lemma toInt32_floor (q : Q) :
  (0 <= q)%Q -> Qfloor q < 2 ^ 31 -> JS.toInt32 q = Qfloor q.
Proof.
  intros H0 H1. unfold JS.toInt32. rewrite Qtrunc_nonneg by exact H0.
  apply wrap_small; [lia|].
  split; [|exact H1].
  assert (0 <= Qfloor q); [|lia].
  rewrite <- (Qfloor_Z 0). apply Qfloor_resp_le. exact H0.
Qed.

(** ** createPlayer *)

(** C10.  Whatever [createPlayer(id, index, name)] is given, the display
    name of the competitor it creates is "Player" when [name] is not a
    string or holds nothing but white space, and otherwise [name] with its
    leading and trailing white space removed; the competitor starts with
    [MAX_LIVES] lives, alive, its trail empty ([trailLen], [trailStart] and
    [trailSentCount] all 0), and with the colour [COLORS[index % 8]], which
    for an index that is not negative is the colour at position
    [index mod 8]. *)
Theorem createPlayer_spec (id : string) (index : Z) (name : JS.value) :
  let p := createPlayer id index name in
  match name with
  | JS.VString s =>
      if forallb JS.isWhiteSpace s
      then Player.name p = JS.str "Player"
      else Player.name p = JS.trim s /\ stripped s (Player.name p)
  | _ => Player.name p = JS.str "Player"
  end
  /\ Player.lives p = MAX_LIVES
  /\ Player.alive p = true
  /\ Player.trailLen p = 0
  /\ Player.trailStart p = 0
  /\ Player.trailSentCount p = 0
  /\ Player.color p = JS.alookup COLORS (Z.rem index 8)
  /\ (0 <= index ->
      Player.color p = COLORS !! Z.to_nat (index mod 8)
      /\ is_Some (Player.color p)).
Proof.
  intros p. repeat split; try reflexivity.
  - destruct name as [| | b | q | s]; try reflexivity.
    subst p. simpl.
    destruct (forallb JS.isWhiteSpace s) eqn:W.
    + apply trim_nil_iff in W. rewrite W. reflexivity.
    + destruct (JS.trim s) as [|c r] eqn:T.
      * apply trim_nil_iff in T. congruence.
      * simpl length. rewrite <- T.
        replace (0 <? Z.of_nat (S (length r))) with true
          by (symmetry; apply Z.ltb_lt; lia).
        split; [reflexivity | apply trim_stripped].
  - subst p. unfold createPlayer, JS.alookup. cbn [Player.color].
    change (Z.of_nat (length COLORS)) with 8.
    rewrite Z.rem_mod_nonneg by lia.
    pose proof (Z.mod_pos_bound index 8 ltac:(lia)) as B.
    destruct (index mod 8 <? 0) eqn:L; [apply Z.ltb_lt in L; lia | reflexivity].
  - subst p. unfold createPlayer, JS.alookup. cbn [Player.color].
    change (Z.of_nat (length COLORS)) with 8.
    rewrite Z.rem_mod_nonneg by lia.
    pose proof (Z.mod_pos_bound index 8 ltac:(lia)) as B.
    destruct (index mod 8 <? 0) eqn:L; [apply Z.ltb_lt in L; lia |].
    apply lookup_lt_is_Some. change (length COLORS) with 8%nat. lia.
Qed.

(** The competitor created for the twelfth participant, named " Bob ". *)
Lemma createPlayer_spec_witness :
  Player.color (createPlayer "p11" 11 (JS.VString (JS.str " Bob ")))
  = Some "#39ff14"%string
  /\ Player.name (createPlayer "p11" 11 (JS.VString (JS.str " Bob "))) = JS.str "Bob".
Proof.
  destruct (createPlayer_spec "p11" 11 (JS.VString (JS.str " Bob ")))
    as (Hn & _ & _ & _ & _ & _ & _ & Hc).
  split.
  - destruct (Hc ltac:(lia)) as [E _]. rewrite E. reflexivity.
  - assert (W : forallb JS.isWhiteSpace (JS.str " Bob ") = false) by reflexivity.
    cbv beta iota zeta in Hn. rewrite W in Hn.
    destruct Hn as [E _]. rewrite E. reflexivity.
Defined.

(** ** getGameSpeed *)

Lemma boosts_floor (d : Z) :
  0 <= d < SPEED_RANGE_MS ->
  JS.toInt32 (inject_Z d / 1000 / SPEED_INTERVAL)%Q = d / 10000.
Proof.
  intros [H0 H1].
  assert (E : (inject_Z d / 1000 / SPEED_INTERVAL == d # 10000)%Q).
  { unfold SPEED_INTERVAL, inject_Z, Qeq, Qdiv, Qmult, Qinv. simpl. lia. }
  assert (F : Qfloor (inject_Z d / 1000 / SPEED_INTERVAL)%Q = d / 10000).
  { rewrite (Qfloor_comp _ _ E). reflexivity. }
  rewrite toInt32_floor.
  - exact F.
  - rewrite E. unfold Qle. simpl. lia.
  - rewrite F. unfold SPEED_RANGE_MS in H1.
    apply Z.div_lt_upper_bound; lia.
Qed.

Lemma getGameSpeed_started (t0 now : Z) :
  t0 <> 0 -> 0 <= now - t0 < SPEED_RANGE_MS ->
  getGameSpeed (Some t0) now
  = Qmin (BASE_SPEED + inject_Z ((now - t0) / 10000) * SPEED_INCREMENT)%Q MAX_SPEED.
Proof.
  intros Hz Hd. unfold getGameSpeed.
  destruct (t0 =? 0) eqn:Z0; [apply Z.eqb_eq in Z0; contradiction|].
  cbv zeta. rewrite (boosts_floor _ Hd). reflexivity.
Qed.

Lemma speedAtElapsed_ms (t0 now : Z) :
  speedAtElapsed (elapsedSeconds t0 now)
  = Qmin (BASE_SPEED + inject_Z ((now - t0) / 10000) * SPEED_INCREMENT)%Q MAX_SPEED.
Proof.
  unfold speedAtElapsed, elapsedSeconds.
  assert (E : (inject_Z (now - t0) / 1000 / SPEED_INTERVAL == (now - t0) # 10000)%Q).
  { unfold SPEED_INTERVAL, inject_Z, Qeq, Qdiv, Qmult, Qinv. simpl. lia. }
  rewrite (Qfloor_comp _ _ E). reflexivity.
Qed.

Lemma speed_step_le (a b : Z) :
  a <= b ->
  (BASE_SPEED + inject_Z a * SPEED_INCREMENT
   <= BASE_SPEED + inject_Z b * SPEED_INCREMENT)%Q.
Proof.
  intros H. rewrite Zle_Qle in H. unfold BASE_SPEED, SPEED_INCREMENT. lra.
Qed.

(** C8, amended.  [getGameSpeed] returns exactly [BASE_SPEED] when the
    round has not started (no start time) and at an elapsed time of 0.
    For an elapsed time from 0 up to 2^31 speed intervals it returns
    min(BASE_SPEED + floor(elapsedSeconds / SPEED_INTERVAL) *
    SPEED_INCREMENT, MAX_SPEED); that is [BASE_SPEED + 0.5] at 10 seconds,
    it does not decrease as the elapsed time grows within that range, and
    it is [MAX_SPEED] from (MAX_SPEED - BASE_SPEED) / SPEED_INCREMENT *
    SPEED_INTERVAL = 110 seconds on within that range. *)
Theorem getGameSpeed_curve :
  (forall now : Z, getGameSpeed None now = BASE_SPEED)
  /\ (forall t0 : Z, getGameSpeed (Some t0) t0 == BASE_SPEED)%Q
  /\ (forall t0 now : Z,
        t0 <> 0 -> 0 <= now - t0 < SPEED_RANGE_MS ->
        getGameSpeed (Some t0) now = speedAtElapsed (elapsedSeconds t0 now))
  /\ (forall t0 : Z,
        t0 <> 0%Z -> getGameSpeed (Some t0) (t0 + 10000)%Z == BASE_SPEED + (1 # 2))%Q
  /\ (forall t0 now1 now2 : Z,
        (0 <= now1 - t0)%Z -> (now1 <= now2)%Z -> (now2 - t0 < SPEED_RANGE_MS)%Z ->
        getGameSpeed (Some t0) now1 <= getGameSpeed (Some t0) now2)%Q
  /\ ((MAX_SPEED - BASE_SPEED) / SPEED_INCREMENT * SPEED_INTERVAL == 110)%Q
  /\ (forall t0 now : Z,
        t0 <> 0%Z -> (110000 <= now - t0 < SPEED_RANGE_MS)%Z ->
        getGameSpeed (Some t0) now == MAX_SPEED)%Q.
Proof.
  assert (R : 0 < SPEED_RANGE_MS) by reflexivity.
  repeat apply conj.
  - reflexivity.
  - intros t0. destruct (Z.eq_dec t0 0) as [->|Hz]; [reflexivity|].
    rewrite getGameSpeed_started by lia.
    rewrite Z.sub_diag. reflexivity.
  - intros t0 now Hz Hd.
    rewrite getGameSpeed_started, speedAtElapsed_ms by assumption. reflexivity.
  - intros t0 Hz.
    rewrite getGameSpeed_started by (try assumption; unfold SPEED_RANGE_MS; lia).
    replace (t0 + 10000 - t0) with 10000 by lia. reflexivity.
  - intros t0 now1 now2 H1 H12 H2.
    destruct (Z.eq_dec t0 0) as [->|Hz]; [apply Qle_refl|].
    rewrite !getGameSpeed_started by lia.
    apply Q.min_le_compat_r, speed_step_le.
    apply Z.div_le_mono; lia.
  - reflexivity.
  - intros t0 now Hz [H1 H2].
    rewrite getGameSpeed_started by lia.
    apply Q.min_r.
    assert (K : 11 <= (now - t0) / 10000) by (apply Z.div_le_lower_bound; lia).
    apply (speed_step_le _ _) in K.
    eapply Qle_trans; [|exact K]. unfold Qle. simpl. lia.
Qed.

(** A round started at 01:00:00.000 and read 25 seconds later. *)
Lemma getGameSpeed_curve_witness :
  getGameSpeed (Some 3600000%Z) 3625000 = speedAtElapsed (elapsedSeconds 3600000 3625000)
  /\ (getGameSpeed (Some 3600000%Z) 3610000 == 3)%Q
  /\ (getGameSpeed (Some 3600000%Z) 3610000 <= getGameSpeed (Some 3600000%Z) 3625000)%Q
  /\ (getGameSpeed (Some 3600000%Z) 3710000 == 8)%Q.
Proof.
  destruct getGameSpeed_curve as (_ & _ & Hf & H10 & Hm & _ & Hc).
  split; [|split; [|split]].
  - apply Hf; [discriminate | unfold SPEED_RANGE_MS; lia].
  - rewrite (H10 3600000 ltac:(discriminate)). reflexivity.
  - apply Hm; [lia | lia | unfold SPEED_RANGE_MS; lia].
  - rewrite (Hc 3600000 3710000 ltac:(discriminate)); [reflexivity|].
    unfold SPEED_RANGE_MS; lia.
Defined.

(** C8 as stated fails in two places.  A clock that reads 5 seconds less
    than the start time gives an elapsed time of -5 s: the source
    truncates toward zero and returns [BASE_SPEED], where the floor of the
    stated formula gives [BASE_SPEED - 0.5].  And at an elapsed time of
    2^31 speed intervals, which is more than 110 seconds, the 32-bit
    truncation wraps and the result is not [MAX_SPEED]. *)
Lemma getGameSpeed_counterexample :
  (getGameSpeed (Some 10000%Z) 5000 == 5 # 2)%Q
  /\ (speedAtElapsed (elapsedSeconds 10000 5000) == 2)%Q
  /\ (110 <= elapsedSeconds 1 (1 + SPEED_RANGE_MS))%Q
  /\ (getGameSpeed (Some 1%Z) (1 + SPEED_RANGE_MS) < BASE_SPEED)%Q
  /\ ~ (getGameSpeed (Some 1%Z) (1 + SPEED_RANGE_MS) == MAX_SPEED)%Q.
Proof.
  repeat apply conj; try (vm_compute; reflexivity); try (vm_compute; discriminate).
Qed.

(** ** The trail ring buffer *)

Ltac trail_arith := cbn; unfold TRAIL_MAX in *; lia.

Lemma aget_aset_eq {A} (d : A) (l : list A) (i : Z) (v : A) :
  0 <= i < Z.of_nat (length l) -> JS.aget d (JS.aset l i v) i = v.
Proof.
  intros [H0 H1]. unfold JS.aget, JS.aset.
  destruct (i <? 0) eqn:L; [apply Z.ltb_lt in L; lia|].
  rewrite list_lookup_insert_eq by lia. reflexivity.
Qed.

Lemma aget_aset_ne {A} (d : A) (l : list A) (i j : Z) (v : A) :
  i <> j -> JS.aget d (JS.aset l i v) j = JS.aget d l j.
Proof.
  intros Hne. unfold JS.aget, JS.aset.
  destruct (j <? 0) eqn:Lj; [reflexivity|].
  destruct (i <? 0) eqn:Li; [reflexivity|].
  apply Z.ltb_ge in Lj, Li.
  rewrite list_lookup_insert_ne by lia. reflexivity.
Qed.

Lemma length_aset {A} (l : list A) (i : Z) (v : A) :
  length (JS.aset l i v) = length l.
Proof. unfold JS.aset. destruct (i <? 0); [reflexivity | apply length_insert]. Qed.

(** What [trailPush] does to the competitor does not depend on the
    spatial index, and is the same in both copies of game.js. *)
Lemma trailPush_variants (g : Game.Globals) (h : GameList.Globals)
    (p : Player.t) (x y : Q) :
  snd (GameList.trailPush h p x y) = snd (Game.trailPush g p x y).
Proof.
  unfold GameList.trailPush, Game.trailPush.
  destruct (Player.trailLen p <? TRAIL_MAX); reflexivity.
Qed.

Lemma trailPush_grow (g : Game.Globals) (p : Player.t) (x y : Q) :
  trailStore p -> Player.trailLen p < TRAIL_MAX ->
  let p' := snd (Game.trailPush g p x y) in
  trailStore p'
  /\ Player.trailLen p' = Player.trailLen p + 1
  /\ Player.trailStart p' = Player.trailStart p
  /\ Player.trailSentCount p' = Player.trailSentCount p
  /\ (forall i, 0 <= i < Player.trailLen p -> trailSample p' i = trailSample p i)
  /\ trailSample p' (Player.trailLen p) = (x, y).
Proof.
  intros (LX & LY & HS & HL) Hlt. unfold Game.trailPush.
  destruct (Player.trailLen p <? TRAIL_MAX) eqn:C; [|apply Z.ltb_ge in C; lia].
  cbn [snd]. unfold TRAIL_MAX in *.
  set (idx := Z.rem (Player.trailStart p + Player.trailLen p) 600).
  assert (Eidx : idx = (Player.trailStart p + Player.trailLen p) mod 600)
    by (apply Z.rem_mod_nonneg; lia).
  assert (Bidx : 0 <= idx < 600) by (rewrite Eidx; apply Z.mod_pos_bound; lia).
  repeat apply conj; try reflexivity.
  - cbn. rewrite length_aset. exact LX.
  - cbn. rewrite length_aset. exact LY.
  - trail_arith.
  - trail_arith.
  - trail_arith.
  - trail_arith.
  - intros i Hi. unfold trailSample, trailGetIndex, TRAIL_MAX. cbn.
    assert (N : idx <> Z.rem (Player.trailStart p + i) 600).
    { rewrite Eidx, Z.rem_mod_nonneg by lia. Z.div_mod_to_equations. lia. }
    rewrite !aget_aset_ne by exact N. reflexivity.
  - unfold trailSample, trailGetIndex, TRAIL_MAX. cbn. fold idx.
    rewrite !aget_aset_eq by lia. reflexivity.
Qed.

Lemma trailPush_wrap (g : Game.Globals) (p : Player.t) (x y : Q) :
  trailStore p -> Player.trailLen p = TRAIL_MAX ->
  let p' := snd (Game.trailPush g p x y) in
  trailStore p'
  /\ Player.trailLen p' = TRAIL_MAX
  /\ Player.trailStart p' = (Player.trailStart p + 1) mod TRAIL_MAX
  /\ Player.trailSentCount p'
     = (if Player.trailSentCount p >? 0
        then Player.trailSentCount p - 1 else Player.trailSentCount p)
  /\ (forall i, 0 <= i < TRAIL_MAX - 1 -> trailSample p' i = trailSample p (i + 1))
  /\ trailSample p' (TRAIL_MAX - 1) = (x, y)
  /\ JS.aget 0%Q (Player.trailX p') (trailGetIndex p 0) = x
  /\ JS.aget 0%Q (Player.trailY p') (trailGetIndex p 0) = y
  /\ Game.gridDirty (fst (Game.trailPush g p x y)) = true.
Proof.
  intros (LX & LY & HS & HL) Hfull. unfold Game.trailPush.
  destruct (Player.trailLen p <? TRAIL_MAX) eqn:C; [apply Z.ltb_lt in C; lia|].
  cbn [snd fst]. unfold TRAIL_MAX in *.
  assert (E1 : Z.rem (Player.trailStart p + 1) 600 = (Player.trailStart p + 1) mod 600)
    by (apply Z.rem_mod_nonneg; lia).
  assert (B1 : 0 <= (Player.trailStart p + 1) mod 600 < 600)
    by (apply Z.mod_pos_bound; lia).
  assert (E0 : trailGetIndex p 0 = Player.trailStart p).
  { unfold trailGetIndex, TRAIL_MAX. rewrite Z.rem_mod_nonneg by lia.
    rewrite Z.add_0_r. apply Z.mod_small; lia. }
  repeat apply conj; try reflexivity.
  - cbn. rewrite length_aset. exact LX.
  - cbn. rewrite length_aset. exact LY.
  - trail_arith.
  - trail_arith.
  - trail_arith.
  - trail_arith.
  - cbn. exact Hfull.
  - cbn. exact E1.
  - intros i Hi. unfold trailSample, trailGetIndex, TRAIL_MAX. cbn.
    rewrite E1.
    assert (Es : Z.rem ((Player.trailStart p + 1) mod 600 + i) 600
                 = Z.rem (Player.trailStart p + (i + 1)) 600).
    { rewrite !Z.rem_mod_nonneg by lia. Z.div_mod_to_equations. lia. }
    rewrite Es.
    assert (N : Player.trailStart p <> Z.rem (Player.trailStart p + (i + 1)) 600).
    { rewrite Z.rem_mod_nonneg by lia. Z.div_mod_to_equations. lia. }
    rewrite !aget_aset_ne by exact N. reflexivity.
  - unfold trailSample, trailGetIndex, TRAIL_MAX. cbn. rewrite E1.
    assert (Es : Z.rem ((Player.trailStart p + 1) mod 600 + (600 - 1)) 600
                 = Player.trailStart p).
    { rewrite Z.rem_mod_nonneg by lia. Z.div_mod_to_equations. lia. }
    rewrite Es, !aget_aset_eq by lia. reflexivity.
  - rewrite E0. cbn. apply aget_aset_eq. lia.
  - rewrite E0. cbn. apply aget_aset_eq. lia.
Qed.

Lemma pushAll_snoc (g : Game.Globals) (p : Player.t) (xs : list (Q * Q)) (x y : Q) :
  pushAll g p (xs ++ [(x, y)])
  = Game.trailPush (fst (pushAll g p xs)) (snd (pushAll g p xs)) x y.
Proof. unfold pushAll. rewrite fold_left_app. reflexivity. Qed.

Lemma holdsLast_push (g : Game.Globals) (p : Player.t) (xs : list (Q * Q)) (x y : Q) :
  holdsLast p xs -> holdsLast (snd (Game.trailPush g p x y)) (xs ++ [(x, y)]).
Proof.
  intros (HS & HL & HV).
  assert (Hlen : 0 <= Player.trailLen p <= TRAIL_MAX) by apply HS.
  destruct (Z_lt_ge_dec (Player.trailLen p) TRAIL_MAX) as [Hlt|Hge].
  - destruct (trailPush_grow g p x y HS Hlt) as (S' & L' & _ & _ & Old & New).
    assert (Exs : Z.of_nat (length xs) = Player.trailLen p) by lia.
    unfold holdsLast. rewrite length_app. cbn [length].
    split; [exact S'|]. split; [unfold TRAIL_MAX in *; lia|].
    intros i Hi. rewrite L' in Hi |- *.
    destruct (Z.eq_dec i (Player.trailLen p)) as [->|Hne].
    + rewrite New.
      replace (Z.to_nat _) with (length xs + 0)%nat by lia.
      rewrite lookup_app_r by lia.
      replace (length xs + 0 - length xs)%nat with 0%nat by lia. reflexivity.
    + rewrite Old by lia. rewrite <- (HV i) by lia.
      rewrite lookup_app_l by lia. f_equal. lia.
  - assert (Hfull : Player.trailLen p = TRAIL_MAX) by lia.
    destruct (trailPush_wrap g p x y HS Hfull) as (S' & L' & _ & _ & Old & New & _).
    unfold holdsLast. rewrite length_app. cbn [length].
    split; [exact S'|]. split; [unfold TRAIL_MAX in *; lia|].
    intros i Hi. rewrite L' in Hi |- *.
    destruct (Z.eq_dec i (TRAIL_MAX - 1)) as [->|Hne].
    + rewrite New.
      replace (Z.to_nat _) with (length xs + 0)%nat by (unfold TRAIL_MAX in *; lia).
      rewrite lookup_app_r by lia.
      replace (length xs + 0 - length xs)%nat with 0%nat by lia. reflexivity.
    + rewrite Old by lia. rewrite <- (HV (i + 1)) by lia.
      rewrite lookup_app_l by (unfold TRAIL_MAX in *; lia).
      f_equal. unfold TRAIL_MAX in *. lia.
Qed.

Lemma holdsLast_pushAll (g : Game.Globals) (p : Player.t) (old xs : list (Q * Q)) :
  holdsLast p old -> holdsLast (snd (pushAll g p xs)) (old ++ xs).
Proof.
  intros H. induction xs as [|[x y] xs IH] using rev_ind.
  - rewrite app_nil_r. exact H.
  - rewrite pushAll_snoc, app_assoc. apply holdsLast_push, IH.
Qed.

Lemma length_range (n : Z) : Z.of_nat (length (JS.range n)) = Z.max 0 n.
Proof. unfold JS.range. rewrite length_map, length_seq. lia. Qed.

Lemma lookup_range (n : Z) (k : nat) :
  Z.of_nat k < n -> JS.range n !! k = Some (Z.of_nat k).
Proof.
  intros H. unfold JS.range. rewrite list_lookup_fmap.
  rewrite lookup_seq_lt by lia. reflexivity.
Qed.

Lemma holdsLast_contents (p : Player.t) : trailStore p -> holdsLast p (trailContents p).
Proof.
  intros HS. pose proof HS as (_ & _ & _ & HL).
  assert (E : Z.of_nat (length (trailContents p)) = Player.trailLen p).
  { unfold trailContents. rewrite length_map, length_range. lia. }
  split; [exact HS|]. rewrite E. split; [lia|].
  intros i Hi. unfold trailContents. rewrite list_lookup_fmap.
  rewrite lookup_range by lia. cbn. f_equal. f_equal. lia.
Qed.



(** ** The invariant of the trail counters *)

Lemma trailPush_inv (g : Game.Globals) (p : Player.t) (x y : Q) :
  trailInv p -> trailInv (snd (Game.trailPush g p x y)).
Proof.
  unfold trailInv, Game.trailPush. intros [[H0 H1] H2].
  destruct (Player.trailLen p <? TRAIL_MAX) eqn:C; cbn.
  - apply Z.ltb_lt in C. lia.
  - apply Z.ltb_ge in C.
    destruct (Player.trailSentCount p >? 0) eqn:E; lia.
Qed.

Lemma spawn_lookup (i : Z) :
  0 <= i ->
  exists sp,
    JS.alookup spawnConfigs (Z.rem i (Z.of_nat (length spawnConfigs))) = Some sp
    /\ spawnConfigs !! Z.to_nat (i mod 8) = Some sp.
Proof.
  intros Hi. change (Z.of_nat (length spawnConfigs)) with 8.
  rewrite Z.rem_mod_nonneg by lia.
  pose proof (Z.mod_pos_bound i 8 ltac:(lia)) as B.
  destruct (lookup_lt_is_Some_2 spawnConfigs (Z.to_nat (i mod 8))) as [sp E].
  { change (length spawnConfigs) with 8%nat. lia. }
  exists sp. split; [|exact E].
  unfold JS.alookup.
  destruct (i mod 8 <? 0) eqn:L; [apply Z.ltb_lt in L; lia | exact E].
Qed.

Lemma startRoundLoop_inv (i : Z) (ps : Players) :
  0 <= i -> allTrailInv (Game.startRoundLoop i ps).
Proof.
  revert i. induction ps as [|[k p] r IH]; intros i Hi; cbn [Game.startRoundLoop].
  - constructor.
  - destruct (Player.lives p <=? 0).
    + constructor; [|apply IH; lia].
      unfold trailInv, TRAIL_MAX. cbn. lia.
    + destruct (spawn_lookup i Hi) as (sp & -> & _).
      constructor; [|apply IH; lia].
      unfold trailInv, TRAIL_MAX. cbn. lia.
Qed.

Lemma serializeLoop_inv (sendStatic : bool) (ps : Players) :
  allTrailInv ps -> allTrailInv (snd (Game.serializeLoop sendStatic ps)).
Proof.
  induction ps as [|[k p] r IH]; intros H; cbn.
  - constructor.
  - inversion H as [|? ? Hp Hr]; subst.
    destruct (Game.serializeLoop sendStatic r) as [out r1] eqn:E. cbn in *.
    constructor; [|apply IH; exact Hr].
    cbn. unfold trailInv in *. cbn in *. lia.
Qed.

Lemma serializeGameState_players (g : Game.Globals) (ps : Players) (ra : bool)
    (cd : Z) (rst : option Z) (mw : option string) (now : Z) :
  snd (Game.serializeGameState g ps ra cd rst mw now)
  = snd (Game.serializeLoop (negb (Game.staticSent g)) ps).
Proof.
  unfold Game.serializeGameState.
  destruct (Game.serializeLoop (negb (Game.staticSent g)) ps). reflexivity.
Qed.

(** Induction over a flat array two elements at a time. *)
Lemma pairs_ind {A} (P : list A -> Prop) :
  P [] -> (forall a, P [a]) -> (forall a b l, P l -> P (a :: b :: l)) ->
  forall l, P l.
Proof.
  intros H0 H1 H2.
  assert (K : forall l, P l /\ forall a, P (a :: l)).
  { induction l as [|b l [IH1 IH2]]; split; auto. }
  intros l. apply K.
Qed.

Lemma appendSample_counters (p : Player.t) (vx vy : Q) :
  trailLenOk p ->
  Player.trailLen (Game.appendSample p vx vy) = Z.min TRAIL_MAX (Player.trailLen p + 1)
  /\ Player.trailSentCount (Game.appendSample p vx vy) = Player.trailSentCount p.
Proof.
  unfold trailLenOk, Game.appendSample. intros H.
  unfold TRAIL_MAX in *.
  destruct (Player.trailLen p + 1 >? 600) eqn:C; cbn; split; try reflexivity.
  all: lia.
Qed.

Lemma applyTrail_counters (trail : list Z) (p : Player.t) :
  trailLenOk p ->
  Player.trailLen (Game.applyTrail trail p)
  = Z.min TRAIL_MAX (Player.trailLen p + deltaCount trail)
  /\ Player.trailSentCount (Game.applyTrail trail p) = Player.trailSentCount p.
Proof.
  revert p. induction trail as [|a|a b l IH] using pairs_ind; intros p Hp.
  - change (deltaCount []) with 0. cbn [Game.applyTrail].
    unfold trailLenOk, TRAIL_MAX in *. split; [lia | reflexivity].
  - change (deltaCount [a]) with 1. cbn [Game.applyTrail].
    apply appendSample_counters, Hp.
  - cbn [Game.applyTrail].
    destruct (appendSample_counters p (inject_Z a / 10)%Q (inject_Z b / 10)%Q Hp)
      as [L1 S1].
    assert (Hp' : trailLenOk (Game.appendSample p (inject_Z a / 10)%Q (inject_Z b / 10)%Q)).
    { unfold trailLenOk, TRAIL_MAX in *. rewrite L1. lia. }
    destruct (IH _ Hp') as [L2 S2]. rewrite L2, S2, L1, S1.
    split; [|reflexivity].
    assert (D : deltaCount (a :: b :: l) = deltaCount l + 1).
    { unfold deltaCount. cbn [length].
      replace (Z.of_nat (S (S (length l))) + 1)
        with (Z.of_nat (length l) + 1 + 1 * 2) by lia.
      apply Z.div_add. lia. }
    assert (0 <= deltaCount l) by (apply Z.div_pos; lia).
    rewrite D. unfold trailLenOk, TRAIL_MAX in *. lia.
Qed.

Lemma Forall_pset (P : string * Player.t -> Prop) (k : string) (p : Player.t)
    (ps : Players) :
  (forall k', P (k', p)) -> Forall P ps -> Forall P (pset k p ps).
Proof.
  intros Hp. induction ps as [|[k' q] r IH]; intros H; cbn.
  - constructor; [apply Hp | constructor].
  - inversion H as [|? ? Hq Hr]; subst.
    destruct (String.eqb k k'); constructor; auto.
Qed.

Lemma pget_Forall (P : string * Player.t -> Prop) (k : string) (p : Player.t)
    (ps : Players) :
  Forall P ps -> pget k ps = Some p -> exists k', P (k', p).
Proof.
  induction ps as [|[k' q] r IH]; intros H E; cbn in E; [discriminate|].
  inversion H as [|? ? Hq Hr]; subst.
  destruct (String.eqb k k').
  - injection E as ->. eauto.
  - auto.
Qed.

Lemma pget_pset_eq (k : string) (p : Player.t) (ps : Players) :
  pget k (pset k p ps) = Some p.
Proof.
  induction ps as [|[k' q] r IH]; cbn.
  - rewrite String.eqb_refl. reflexivity.
  - destruct (String.eqb k k') eqn:E; cbn; rewrite E; [reflexivity | exact IH].
Qed.

Lemma pget_pset_ne (k k' : string) (p : Player.t) (ps : Players) :
  k <> k' -> pget k' (pset k p ps) = pget k' ps.
Proof.
  intros Hne. induction ps as [|[k2 q] r IH]; cbn.
  - destruct (String.eqb k' k) eqn:E; [apply String.eqb_eq in E; congruence | reflexivity].
  - destruct (String.eqb k k2) eqn:E; cbn.
    + apply String.eqb_eq in E. subst k2.
      destruct (String.eqb k' k) eqn:E2; [apply String.eqb_eq in E2; congruence | reflexivity].
    + destruct (String.eqb k' k2); [reflexivity | exact IH].
Qed.

Lemma applyScalars_trail (pd : Game.PlayerState) (p : Player.t) :
  Player.trailLen (Game.applyScalars pd p) = Player.trailLen p
  /\ Player.trailSentCount (Game.applyScalars pd p) = Player.trailSentCount p.
Proof.
  unfold Game.applyScalars.
  destruct (Game.truthyString (Game.ps_c pd)), (Game.nonEmpty (Game.ps_n pd)),
    (Game.ps_l pd); cbn; split; reflexivity.
Qed.

Lemma mirrorPlayer_lenOk (ps : Players) (id : string) (pd : Game.PlayerState) :
  allTrailLenOk ps -> trailLenOk (Game.mirrorPlayer ps id pd).
Proof.
  intros H. unfold Game.mirrorPlayer.
  destruct (pget id ps) as [p|] eqn:E.
  - destruct (pget_Forall _ _ _ _ H E) as [k' Hp]. exact Hp.
  - unfold trailLenOk, TRAIL_MAX. cbn. lia.
Qed.

Lemma mirrorPlayer_len (ps : Players) (id : string) (pd : Game.PlayerState) :
  Player.trailLen (Game.mirrorPlayer ps id pd)
  = match pget id ps with Some p => Player.trailLen p | None => 0 end.
Proof. unfold Game.mirrorPlayer. destruct (pget id ps); reflexivity. Qed.

Lemma mirrorPlayer_inv (ps : Players) (id : string) (pd : Game.PlayerState) :
  allTrailInv ps -> trailInv (Game.mirrorPlayer ps id pd).
Proof.
  intros H. unfold Game.mirrorPlayer.
  destruct (pget id ps) as [p|] eqn:E.
  - destruct (pget_Forall _ _ _ _ H E) as [k' Hp]. exact Hp.
  - unfold trailInv, TRAIL_MAX. cbn. lia.
Qed.

Lemma trailInv_lenOk (p : Player.t) : trailInv p -> trailLenOk p.
Proof. unfold trailInv, trailLenOk. lia. Qed.

Lemma applyDelta_lenOk (pd : Game.PlayerState) (p : Player.t) :
  trailLenOk p -> trailLenOk (Game.applyDelta pd p).
Proof.
  intros Hp. unfold Game.applyDelta.
  destruct (Game.ps_tr pd) as [[|v trail]|]; try exact Hp.
  destruct (applyTrail_counters (v :: trail) p Hp) as [L _].
  unfold trailLenOk in *. cbn [Player.trailLen Player.set_trail]. rewrite L.
  assert (0 <= deltaCount (v :: trail)) by (apply Z.div_pos; lia).
  unfold TRAIL_MAX in *. lia.
Qed.

Lemma applyReset_lenOk (pd : Game.PlayerState) (p : Player.t) :
  trailLenOk p -> trailLenOk (Game.applyReset pd p).
Proof.
  intros Hp. unfold Game.applyReset.
  destruct (Game.ps_tl pd) as [[| |]|]; try exact Hp.
  unfold trailLenOk, TRAIL_MAX. cbn. lia.
Qed.

Lemma applyPlayerState_lenOk (ps : Players) (id : string) (pd : Game.PlayerState) :
  allTrailLenOk ps -> allTrailLenOk (Game.applyPlayerState ps id pd).
Proof.
  intros H. unfold Game.applyPlayerState, allTrailLenOk.
  apply Forall_pset; [|exact H].
  intros k'. cbn [snd]. unfold trailLenOk.
  rewrite (proj1 (applyScalars_trail pd _)).
  apply applyReset_lenOk, applyDelta_lenOk, mirrorPlayer_lenOk, H.
Qed.

Lemma applyGameState_lenOk (ps : Players) (state : Game.State) :
  allTrailLenOk ps -> allTrailLenOk (Game.applyGameState ps state).
Proof.
  unfold Game.applyGameState. revert ps.
  induction (Game.st_p state) as [|[id pd] r IH]; intros ps H; cbn.
  - exact H.
  - apply IH, applyPlayerState_lenOk, H.
Qed.

Lemma applyReset_zero (pd : Game.PlayerState) (p : Player.t) :
  Game.ps_tl pd = Some 0 ->
  Player.trailLen (Game.applyReset pd p) = 0
  /\ Player.trailSentCount (Game.applyReset pd p) = 0.
Proof. intros E. unfold Game.applyReset. rewrite E. split; reflexivity. Qed.

Lemma applyReset_nonzero (pd : Game.PlayerState) (p : Player.t) :
  Game.ps_tl pd <> Some 0 -> Game.applyReset pd p = p.
Proof.
  intros E. unfold Game.applyReset.
  destruct (Game.ps_tl pd) as [[|t|t]|]; try reflexivity. congruence.
Qed.

Lemma applyDelta_some (pd : Game.PlayerState) (p : Player.t) (v : Z) (trail : list Z) :
  Game.ps_tr pd = Some (v :: trail) -> trailLenOk p ->
  Player.trailLen (Game.applyDelta pd p)
  = Z.min TRAIL_MAX (Player.trailLen p + deltaCount (v :: trail))
  /\ Player.trailSentCount (Game.applyDelta pd p) = default 0 (Game.ps_tc pd).
Proof.
  intros E Hp. unfold Game.applyDelta. rewrite E.
  destruct (applyTrail_counters (v :: trail) p Hp) as [L _].
  cbn [Player.trailLen Player.trailSentCount Player.set_trail].
  split; [exact L|]. destruct (Game.ps_tc pd); reflexivity.
Qed.

Lemma applyDelta_none (pd : Game.PlayerState) (p : Player.t) :
  Game.nonEmpty (Game.ps_tr pd) = false -> Game.applyDelta pd p = p.
Proof.
  unfold Game.applyDelta, Game.nonEmpty.
  destruct (Game.ps_tr pd) as [[|v trail]|]; [reflexivity | discriminate | reflexivity].
Qed.

(** The invariant holds for the competitor an entry was applied to exactly
    when the sent count of the entry fits. *)
Lemma applied_inv_iff (ps : Players) (id : string) (pd : Game.PlayerState) :
  allTrailInv ps ->
  trailInv (Game.applyScalars pd
              (Game.applyReset pd (Game.applyDelta pd (Game.mirrorPlayer ps id pd))))
  <-> deltaFits ps id pd.
Proof.
  intros H.
  pose proof (mirrorPlayer_inv ps id pd H) as I0.
  pose proof (trailInv_lenOk _ I0) as L0.
  pose proof (mirrorPlayer_len ps id pd) as E0.
  set (p0 := Game.mirrorPlayer ps id pd) in *.
  unfold trailInv at 1.
  destruct (applyScalars_trail pd (Game.applyReset pd (Game.applyDelta pd p0)))
    as [-> ->].
  unfold deltaFits. rewrite <- E0.
  destruct (Game.ps_tr pd) as [[|v trail]|] eqn:T.
  - rewrite (applyDelta_none pd p0) by (unfold Game.nonEmpty; rewrite T; reflexivity).
    destruct (option_eq_dec (Game.ps_tl pd) (Some 0)) as [Z0|NZ].
    + destruct (applyReset_zero pd p0 Z0) as [-> ->]. unfold TRAIL_MAX. lia.
    + rewrite (applyReset_nonzero pd p0 NZ). unfold trailInv in I0. tauto.
  - destruct (applyDelta_some pd p0 v trail T L0) as [L S].
    assert (0 <= deltaCount (v :: trail)) by (apply Z.div_pos; lia).
    destruct (option_eq_dec (Game.ps_tl pd) (Some 0)) as [Z0|NZ].
    + destruct (applyReset_zero pd (Game.applyDelta pd p0) Z0) as [-> ->].
      unfold TRAIL_MAX. split; [intros _; left; exact Z0 | lia].
    + rewrite (applyReset_nonzero pd _ NZ), L, S.
      unfold trailLenOk, TRAIL_MAX in *.
      split; [intros K; right; lia | intros [K|K]; [contradiction | lia]].
  - rewrite (applyDelta_none pd p0) by (unfold Game.nonEmpty; rewrite T; reflexivity).
    destruct (option_eq_dec (Game.ps_tl pd) (Some 0)) as [Z0|NZ].
    + destruct (applyReset_zero pd p0 Z0) as [-> ->]. unfold TRAIL_MAX. lia.
    + rewrite (applyReset_nonzero pd p0 NZ). unfold trailInv in I0. tauto.
Qed.

Lemma In_pset (k : string) (p : Player.t) (ps : Players) :
  exists k', In (k', p) (pset k p ps).
Proof.
  induction ps as [|[k2 q] r [k' IH]]; cbn.
  - exists k. left. reflexivity.
  - destruct (String.eqb k k2).
    + exists k2. left. reflexivity.
    + exists k'. right. exact IH.
Qed.

Lemma applyPlayerState_inv_iff (ps : Players) (id : string) (pd : Game.PlayerState) :
  allTrailInv ps ->
  allTrailInv (Game.applyPlayerState ps id pd) <-> deltaFits ps id pd.
Proof.
  intros H. rewrite <- (applied_inv_iff ps id pd H).
  unfold Game.applyPlayerState, allTrailInv. split.
  - intros F.
    destruct (In_pset id
                (Game.applyScalars pd
                   (Game.applyReset pd (Game.applyDelta pd (Game.mirrorPlayer ps id pd))))
                ps) as [k' Hin].
    rewrite List.Forall_forall in F. exact (F _ Hin).
  - intros I. apply Forall_pset; [intros k'; exact I | exact H].
Qed.

(** C7, amended.  [trailPush], the reset of the trails in [startRound] and
    the advance of [trailSentCount] in [serializeGameState] preserve
    0 <= trailSentCount <= trailLen <= TRAIL_MAX for every competitor.
    [applyGameState] preserves 0 <= trailLen <= TRAIL_MAX; it copies
    [trailSentCount] from the snapshot whenever the entry carries a delta,
    so applying an entry preserves the whole invariant exactly when the
    entry carries no delta, reports an empty trail, or has a sent count
    between 0 and the length of the trail of the mirror after the delta. *)
Theorem trail_invariant_preserved :
  (forall (g : Game.Globals) (p : Player.t) (x y : Q),
     trailInv p -> trailInv (snd (Game.trailPush g p x y)))
  /\ (forall (g : Game.Globals) (ps : Players),
        allTrailInv (snd (Game.startRound g ps)))
  /\ (forall (g : Game.Globals) (ps : Players) (ra : bool) (cd : Z)
             (rst : option Z) (mw : option string) (now : Z),
        allTrailInv ps ->
        allTrailInv (snd (Game.serializeGameState g ps ra cd rst mw now)))
  /\ (forall (ps : Players) (state : Game.State),
        allTrailLenOk ps -> allTrailLenOk (Game.applyGameState ps state))
  /\ (forall (ps : Players) (id : string) (pd : Game.PlayerState),
        allTrailInv ps ->
        (allTrailInv (Game.applyPlayerState ps id pd) <-> deltaFits ps id pd)).
Proof.
  repeat apply conj.
  - apply trailPush_inv.
  - intros g ps. unfold Game.startRound. cbn [snd]. apply startRoundLoop_inv. lia.
  - intros g ps ra cd rst mw now H.
    rewrite serializeGameState_players. apply serializeLoop_inv, H.
  - apply applyGameState_lenOk.
  - apply applyPlayerState_inv_iff.
Qed.

(** The host of [midRoundHost] keeps the invariant through a push and a
    snapshot, and a mirror that is in step keeps it through the snapshot. *)
Lemma trail_invariant_preserved_witness :
  allTrailInv (snd (Game.serializeGameState Game.initial midRoundHost true 0
                      (Some 1000) None 2000))
  /\ allTrailLenOk (Game.applyGameState [] midRoundSnapshot)
  /\ allTrailInv
       (Game.applyPlayerState midRoundHost "host"
          {| Game.ps_x := Some 7060; Game.ps_y := Some 4500; Game.ps_a := Some 0;
             Game.ps_tu := Some 0; Game.ps_tl := Some 4; Game.ps_ts := Some 0;
             Game.ps_tc := Some 4; Game.ps_al := Some true; Game.ps_s := Some 0;
             Game.ps_l := Some 6; Game.ps_tr := Some [7060; 4500];
             Game.ps_id := None; Game.ps_n := None; Game.ps_c := None;
             Game.ps_si := None |}).
Proof.
  destruct trail_invariant_preserved as (_ & _ & Hser & Hlen & Happ).
  assert (I : allTrailInv midRoundHost).
  { constructor; [|constructor]. unfold trailInv. vm_compute.
    repeat split; discriminate. }
  split; [apply Hser, I|]. split; [apply Hlen; constructor|].
  apply (Happ _ _ _ I). right. vm_compute. split; discriminate.
Defined.

(** C7 as stated fails for [applyGameState]: the snapshot of
    [midRoundHost], whose trail holds three samples of which two had been
    sent, carries one sample and the sent count 3; applied to an empty
    mirror, where the invariant holds, it leaves a competitor with
    [trailLen] 1 and [trailSentCount] 3. *)
Lemma applyGameState_invariant_counterexample :
  allTrailInv midRoundHost
  /\ allTrailInv []
  /\ (exists p,
        pget "host" (Game.applyGameState [] midRoundSnapshot) = Some p
        /\ Player.trailLen p = 1
        /\ Player.trailSentCount p = 3)
  /\ ~ allTrailInv (Game.applyGameState [] midRoundSnapshot).
Proof.
  assert (E : exists p,
             Game.applyGameState [] midRoundSnapshot = [("host"%string, p)]
             /\ Player.trailLen p = 1 /\ Player.trailSentCount p = 3).
  { eexists. split; [vm_compute; reflexivity|]. split; reflexivity. }
  destruct E as (p & E & L & S).
  repeat apply conj.
  - constructor; [|constructor]. unfold trailInv. vm_compute.
    repeat split; discriminate.
  - constructor.
  - exists p. rewrite E. cbn. auto.
  - rewrite E. intros F. inversion F as [|? ? Hp _]; subst.
    unfold trailInv in Hp. cbn in Hp. lia.
Qed.

(** ** The state codec: a snapshot applied to a new mirror *)

Lemma toInt32_round (q : Q) :
  (0 <= q)%Q -> (q + (1 # 2) < inject_Z (2 ^ 31))%Q ->
  JS.toInt32 (q + (1 # 2))%Q = Qfloor (q + (1 # 2))%Q.
Proof.
  intros H0 H1. apply toInt32_floor; [lra|].
  pose proof (Qfloor_le (q + (1 # 2))) as F.
  assert (K : (inject_Z (Qfloor (q + (1 # 2))) < inject_Z (2 ^ 31))%Q) by lra.
  rewrite <- Zlt_Qlt in K. exact K.
Qed.

Lemma decode10_close (v : Q) :
  (0 <= v)%Q -> (v * 10 + (1 # 2) < inject_Z (2 ^ 31))%Q ->
  (Qabs (inject_Z (Game.encode10 v) / 10 - v) <= 1 # 20)%Q.
Proof.
  intros H0 H1. unfold Game.encode10.
  rewrite toInt32_round by (try assumption; lra).
  pose proof (Qfloor_le (v * 10 + (1 # 2))) as F.
  pose proof (Qlt_floor (v * 10 + (1 # 2))) as C.
  rewrite inject_Z_plus in C.
  set (n := inject_Z (Qfloor (v * 10 + (1 # 2)))) in *.
  change (inject_Z 1) with 1%Q in C.
  assert (E : (n / 10 == n * (1 # 10))%Q) by (unfold Qdiv; reflexivity).
  apply Qabs_Qle_condition. rewrite E. split; lra.
Qed.

Lemma decode1000_close (v : Q) :
  (0 <= v)%Q -> (v * 1000 + (1 # 2) < inject_Z (2 ^ 31))%Q ->
  (Qabs (inject_Z (Game.encode1000 v) / 1000 - v) <= 1 # 2000)%Q.
Proof.
  intros H0 H1. unfold Game.encode1000.
  rewrite toInt32_round by (try assumption; lra).
  pose proof (Qfloor_le (v * 1000 + (1 # 2))) as F.
  pose proof (Qlt_floor (v * 1000 + (1 # 2))) as C.
  rewrite inject_Z_plus in C.
  set (n := inject_Z (Qfloor (v * 1000 + (1 # 2)))) in *.
  change (inject_Z 1) with 1%Q in C.
  assert (E : (n / 1000 == n * (1 # 1000))%Q) by (unfold Qdiv; reflexivity).
  apply Qabs_Qle_condition. rewrite E. split; lra.
Qed.

Lemma length_flat_map_pairs {A B} (f : A -> B) (h : A -> B) (l : list A) :
  length (flat_map (fun a => [f a; h a]) l) = (2 * length l)%nat.
Proof. induction l as [|a l IH]; cbn; [reflexivity | rewrite IH; lia]. Qed.

(** The delta of a trail of which nothing was sent has two integers for
    every sample. *)
Lemma trailData_unsent (p : Player.t) :
  Player.trailSentCount p = 0 -> 0 < Player.trailLen p ->
  exists v trail,
    Game.trailData p = Some (v :: trail)
    /\ deltaCount (v :: trail) = Player.trailLen p.
Proof.
  intros H0 Hl. unfold Game.trailData. rewrite H0, Z.sub_0_r.
  destruct (Player.trailLen p >? 0) eqn:C; [|lia].
  match goal with |- context [flat_map ?f ?l] => set (fm := flat_map f l) end.
  assert (Lfm : Z.of_nat (length fm) = 2 * Player.trailLen p).
  { subst fm.
    match goal with
    | |- context [flat_map (fun i => [?s (@?a i); ?s (@?b i)]) ?l] =>
        rewrite (length_flat_map_pairs (fun i => s (a i)) (fun i => s (b i)) l)
    end.
    rewrite Nat2Z.inj_mul, length_range. lia. }
  destruct fm as [|v trail] eqn:E; [cbn in Lfm; lia|].
  exists v, trail. split; [reflexivity|].
  unfold deltaCount. rewrite Lfm.
  replace (2 * Player.trailLen p + 1) with (1 + Player.trailLen p * 2) by lia.
  rewrite Z.div_add by lia. reflexivity.
Qed.

Lemma applyScalars_pose (pd : Game.PlayerState) (p : Player.t) :
  Player.x (Game.applyScalars pd p)
  = match Game.ps_x pd with Some v => (inject_Z v / 10)%Q | None => Player.x p end
  /\ Player.y (Game.applyScalars pd p)
     = match Game.ps_y pd with Some v => (inject_Z v / 10)%Q | None => Player.y p end
  /\ Player.angle (Game.applyScalars pd p)
     = match Game.ps_a pd with Some v => (inject_Z v / 1000)%Q | None => Player.angle p end.
Proof.
  unfold Game.applyScalars.
  destruct (Game.truthyString (Game.ps_c pd)), (Game.nonEmpty (Game.ps_n pd)),
    (Game.ps_l pd); repeat split; reflexivity.
Qed.

(** One competitor through the codec, onto a mirror that does not know
    it. *)
Lemma roundTrip_player (sendStatic : bool) (ps : Players) (k : string) (p : Player.t) :
  roundTrips p -> pget k ps = None ->
  let pd := fst (Game.serializePlayer sendStatic p) in
  let m := Game.applyScalars pd
             (Game.applyReset pd (Game.applyDelta pd (Game.mirrorPlayer ps k pd))) in
  withinTolerance p m /\ Player.trailLen m = Player.trailLen p.
Proof.
  intros (X0 & X1 & Y0 & Y1 & A0 & A1 & S0 & L) Hk pd m.
  split.
  - subst m. unfold withinTolerance.
    destruct (applyScalars_pose pd
                (Game.applyReset pd (Game.applyDelta pd (Game.mirrorPlayer ps k pd))))
      as (-> & -> & ->).
    subst pd. cbn [fst Game.serializePlayer Game.ps_x Game.ps_y Game.ps_a
                   Player.x Player.y Player.angle Player.set_trail].
    split; [exact (decode10_close _ X0 X1)|].
    split; [exact (decode10_close _ Y0 Y1) | exact (decode1000_close _ A0 A1)].
  - subst m. rewrite (proj1 (applyScalars_trail pd _)).
    assert (Etl : Game.ps_tl pd = Some (Player.trailLen p)) by reflexivity.
    assert (Etr : Game.ps_tr pd = Game.trailData p) by reflexivity.
    assert (L0 : trailLenOk (Game.mirrorPlayer ps k pd)).
    { unfold Game.mirrorPlayer. rewrite Hk. unfold trailLenOk, TRAIL_MAX. cbn. lia. }
    assert (E0 : Player.trailLen (Game.mirrorPlayer ps k pd) = 0).
    { rewrite mirrorPlayer_len, Hk. reflexivity. }
    destruct (Z.eq_dec (Player.trailLen p) 0) as [E|E].
    + rewrite E in *. apply (applyReset_zero pd _ Etl).
    + rewrite applyReset_nonzero by (rewrite Etl; congruence).
      destruct (trailData_unsent p S0 ltac:(lia)) as (v & trail & T & D).
      rewrite <- Etr in T.
      destruct (applyDelta_some pd _ v trail T L0) as [Ld _].
      rewrite Ld, E0, D. unfold TRAIL_MAX in *. lia.
Qed.

Lemma serializeLoop_entries (sendStatic : bool) (ps : Players) :
  fst (Game.serializeLoop sendStatic ps)
  = map (fun kp => (fst kp, fst (Game.serializePlayer sendStatic (snd kp)))) ps.
Proof.
  induction ps as [|[k p] r IH]; [reflexivity|].
  cbn [Game.serializeLoop map fst snd].
  destruct (Game.serializePlayer sendStatic p) as [pd p1].
  destruct (Game.serializeLoop sendStatic r) as [out r1].
  cbn [fst] in *. rewrite IH. reflexivity.
Qed.

Lemma serializeGameState_entries (g : Game.Globals) (ps : Players) (ra : bool)
    (cd : Z) (rst : option Z) (mw : option string) (now : Z) :
  Game.st_p (fst (fst (Game.serializeGameState g ps ra cd rst mw now)))
  = map (fun kp => (fst kp, fst (Game.serializePlayer (negb (Game.staticSent g)) (snd kp))))
        ps.
Proof.
  unfold Game.serializeGameState. rewrite <- serializeLoop_entries.
  destruct (Game.serializeLoop (negb (Game.staticSent g)) ps). reflexivity.
Qed.

Lemma mirrorPlayer_fresh (ps : Players) (k : string) (pd : Game.PlayerState) :
  pget k ps = None -> Game.mirrorPlayer ps k pd = Game.mirrorPlayer [] k pd.
Proof. intros E. unfold Game.mirrorPlayer. rewrite E. reflexivity. Qed.

Lemma applyPlayerState_other (ps : Players) (id k : string) (pd : Game.PlayerState) :
  id <> k -> pget k (Game.applyPlayerState ps id pd) = pget k ps.
Proof. intros Hne. unfold Game.applyPlayerState. apply pget_pset_ne, Hne. Qed.

Lemma applyEntries_other (entries : list (string * Game.PlayerState)) (acc : Players)
    (k : string) :
  ~ In k (map fst entries) ->
  pget k (fold_left (fun ps '(id, pd) => Game.applyPlayerState ps id pd) entries acc)
  = pget k acc.
Proof.
  revert acc. induction entries as [|[id pd] r IH]; intros acc Hk; cbn [fold_left].
  - reflexivity.
  - cbn in Hk. rewrite IH by tauto. apply applyPlayerState_other. tauto.
Qed.

Lemma applyEntries_lookup (entries : list (string * Game.PlayerState)) (acc : Players)
    (k : string) (pd : Game.PlayerState) :
  List.NoDup (map fst entries) -> In (k, pd) entries -> pget k acc = None ->
  pget k (fold_left (fun ps '(id, pd) => Game.applyPlayerState ps id pd) entries acc)
  = Some (Game.applyScalars pd
            (Game.applyReset pd (Game.applyDelta pd (Game.mirrorPlayer [] k pd)))).
Proof.
  revert acc. induction entries as [|[id pd'] r IH]; intros acc ND Hin Hk.
  - destruct Hin.
  - cbn [map fst] in ND. inversion ND as [|? ? Hnot ND']; subst.
    cbn [fold_left]. destruct Hin as [E|Hin].
    + injection E as -> ->.
      rewrite applyEntries_other by exact Hnot.
      unfold Game.applyPlayerState. rewrite pget_pset_eq.
      rewrite (mirrorPlayer_fresh acc k pd Hk). reflexivity.
    + assert (Hne : id <> k).
      { intros ->. apply Hnot. apply (in_map fst) in Hin. exact Hin. }
      apply IH; [exact ND' | exact Hin |].
      rewrite applyPlayerState_other by exact Hne. exact Hk.
Qed.

Lemma encode10_round (v : Q) :
  (0 <= v)%Q -> (v * 10 + (1 # 2) < inject_Z (2 ^ 31))%Q ->
  Game.encode10 v = Qfloor (v * 10 + (1 # 2))%Q.
Proof. intros H0 H1. unfold Game.encode10. apply toInt32_round; [lra | exact H1]. Qed.

Lemma encode1000_round (v : Q) :
  (0 <= v)%Q -> (v * 1000 + (1 # 2) < inject_Z (2 ^ 31))%Q ->
  Game.encode1000 v = Qfloor (v * 1000 + (1 # 2))%Q.
Proof. intros H0 H1. unfold Game.encode1000. apply toInt32_round; [lra | exact H1]. Qed.




(** ** The start of a round *)

Lemma livesRank_0 (ps : Players) : livesRank ps 0 = 0.
Proof. reflexivity. Qed.

Lemma livesRank_S (k : string) (p : Player.t) (r : Players) (n : nat) :
  livesRank ((k, p) :: r) (S n)
  = (if Player.lives p >? 0 then 1 else 0) + livesRank r n.
Proof.
  unfold livesRank. cbn [take List.filter snd].
  destruct (Player.lives p >? 0); cbn [length]; lia.
Qed.

Lemma livesRank_nonneg (ps : Players) (n : nat) : 0 <= livesRank ps n.
Proof. unfold livesRank. lia. Qed.

Lemma startRoundLoop_nth (ps : Players) (i : Z) (n : nat) (k : string) (p : Player.t) :
  0 <= i -> ps !! n = Some (k, p) ->
  exists p',
    Game.startRoundLoop i ps !! n = Some (k, p')
    /\ trailReset p'
    /\ if Player.lives p >? 0
       then Player.alive p' = true
            /\ exists sp,
                 spawnConfigs !! Z.to_nat ((i + livesRank ps n) mod 8) = Some sp
                 /\ placedAt sp p'
       else Player.alive p' = false
            /\ Player.x p' = Player.x p /\ Player.y p' = Player.y p
            /\ Player.angle p' = Player.angle p.
Proof.
  revert i n. induction ps as [|[k0 p0] r IH]; intros i n Hi E; [discriminate|].
  cbn [Game.startRoundLoop].
  destruct (spawn_lookup i Hi) as (sp & Esp & Enth).
  destruct n as [|n].
  - cbn in E. injection E as -> ->. rewrite livesRank_0, Z.add_0_r.
    destruct (Player.lives p <=? 0) eqn:L; destruct (Player.lives p >? 0) eqn:G;
      try lia.
    + eexists. split; [reflexivity|]. repeat split; reflexivity.
    + rewrite Esp. eexists. split; [reflexivity|].
      split; [repeat split; reflexivity|].
      split; [reflexivity|]. exists sp. split; [exact Enth|].
      repeat split; reflexivity.
  - cbn in E. rewrite livesRank_S.
    destruct (Player.lives p0 <=? 0) eqn:L; destruct (Player.lives p0 >? 0) eqn:G;
      try lia.
    + destruct (IH i n Hi E) as (p' & E' & R).
      exists p'. split; [exact E'|]. rewrite Z.add_0_l. exact R.
    + rewrite Esp.
      destruct (IH (i + 1) n ltac:(lia) E) as (p' & E' & R).
      exists p'. split; [exact E'|].
      replace (i + (1 + livesRank r n)) with (i + 1 + livesRank r n) by lia.
      exact R.
Qed.

(** C6, amended.  [startRound] places every competitor with lives > 0 at
    the spawn slot whose number is the count of competitors with lives
    that come before it in the enumeration of the dictionary, modulo the
    number of spawn slots (the field [spawnIndex] is not consulted), with
    its turn intent 0, its trail reset ([trailLen], [trailStart],
    [trailSentCount] all 0) and alive; every competitor with lives <= 0 is
    made not alive, has its trail reset, keeps its position and takes no
    slot; and the method of the host that calls it sets [roundStartTime]
    to now and [roundActive] to true. *)
Theorem startRound_spec :
  (forall (g : Game.Globals) (ps : Players) (n : nat) (k : string) (p : Player.t),
     ps !! n = Some (k, p) ->
     exists p',
       snd (Game.startRound g ps) !! n = Some (k, p')
       /\ trailReset p'
       /\ if Player.lives p >? 0
          then Player.alive p' = true
               /\ exists sp,
                    spawnConfigs !! Z.to_nat (livesRank ps n mod 8) = Some sp
                    /\ placedAt sp p'
          else Player.alive p' = false
               /\ Player.x p' = Player.x p /\ Player.y p' = Player.y p
               /\ Player.angle p' = Player.angle p)
  /\ (forall (s : Net.t) (now : Z),
        Net.isHost s = true ->
        Net.players (Net.startRound now s)
        = snd (Game.startRound (Net.game s) (Net.players s))
        /\ Net.roundActive (Net.startRound now s) = true
        /\ Net.roundStartTime (Net.startRound now s) = Some now).
Proof.
  split.
  - intros g ps n k p E. unfold Game.startRound. cbn [snd].
    apply (startRoundLoop_nth ps 0 n k p); [lia | exact E].
  - intros s now H. unfold Net.startRound. rewrite H. cbn [negb].
    destruct (Game.startRound (Net.game s) (Net.players s)) as [g1 ps1].
    unfold Net.startPhysicsLoop, Net.stopPhysicsLoop. cbn [Net.physicsInterval
      Net.set_matchWinner Net.set_roundStartTime Net.set_roundActive
      Net.set_players Net.set_game].
    destruct (Net.physicsInterval s); repeat split; reflexivity.
Qed.

(** The round that [secondRound] enters, started by the host of
    [lobbyTwo]. *)
Lemma startRound_spec_witness :
  (exists p',
     snd (Game.startRound Game.initial secondRound) !! 1%nat = Some ("peer-b"%string, p')
     /\ Player.alive p' = true
     /\ Player.x p' = 250%Q /\ Player.y p' = 200%Q)
  /\ Net.roundStartTime (Net.startRound 5000 lobbyTwo) = Some 5000.
Proof.
  destruct startRound_spec as [Hgame Hnet].
  split.
  - destruct (Hgame Game.initial secondRound 1%nat "peer-b"%string
                (Player.set_lives 2 (createPlayer "peer-b" 1 (JS.VString (JS.str "Bob"))))
                eq_refl) as (p' & E & _ & R).
    change (Player.lives _ >? 0) with true in R.
    destruct R as (A & sp & Esp & X & Y & _).
    change (spawnConfigs !! Z.to_nat (livesRank secondRound 1 mod 8))
      with (Some {| spawn_x := 250; spawn_y := 200; spawn_angle := Math_PI * (1 # 4) |})
      in Esp.
    injection Esp as <-.
    exists p'. repeat split; assumption.
  - apply (Hnet lobbyTwo 5000). reflexivity.
Defined.

(** C6 as stated fails: the second competitor of [secondRound] has the
    [spawnIndex] 1, and the slot 1 mod 8 is at x = 1150, but since the
    first competitor has no lives left it is placed at the slot 0, at
    x = 250. *)
Lemma startRound_counterexample :
  exists p' sp,
    pget "peer-b" (snd (Game.startRound Game.initial secondRound)) = Some p'
    /\ Player.lives p' = 2
    /\ Player.spawnIndex p' = 1
    /\ spawnConfigs !! Z.to_nat (Player.spawnIndex p' mod 8) = Some sp
    /\ spawn_x sp = 1150%Q
    /\ Player.x p' = 250%Q
    /\ ~ (Player.x p' == spawn_x sp)%Q.
Proof.
  eexists. eexists.
  split; [vm_compute; reflexivity|].
  repeat apply conj; try reflexivity.
  vm_compute. discriminate.
Qed.

(** ** Requests out of turn *)

(** C9, amended.  A request to start the match made on the host while
    fewer than 2 participants are present is answered with the error
    event "Need at least 2 players!", which the user interface displays,
    and changes nothing else: [gameStarted], [countdown], the competitors
    with their lives and scores, [matchWinner], [roundActive] and the
    timers stay as they were.  A restart request received while
    [matchWinner] is null leaves the whole state unchanged and is dropped
    without any message. *)
Theorem lifecycle_misuse_rejected :
  (forall (s : Net.t) (now : Z),
     Net.isHost s = true ->
     Z.of_nat (length (keys (Net.players s))) < 2 ->
     let s' := Net.startGame now s in
     Net.log s' = Net.log s ++ [Net.Emit (Net.EvError "Need at least 2 players!")]
     /\ Net.gameStarted s' = Net.gameStarted s
     /\ Net.countdown s' = Net.countdown s
     /\ Net.players s' = Net.players s
     /\ Net.matchWinner s' = Net.matchWinner s
     /\ Net.roundActive s' = Net.roundActive s
     /\ Net.roundStartTime s' = Net.roundStartTime s
     /\ Net.timers s' = Net.timers s
     /\ Net.physicsInterval s' = Net.physicsInterval s
     /\ Net.game s' = Net.game s)
  /\ (forall (s : Net.t) (now : Z) (conn : string),
        Net.matchWinner s = None ->
        Net.handleMessage now conn Net.MsgRestart s = s).
Proof.
  split.
  - intros s now H L s'. subst s'. unfold Net.startGame. rewrite H. cbn [negb].
    apply Z.ltb_lt in L. rewrite L. repeat split; reflexivity.
  - intros s now conn H. unfold Net.handleMessage, Net.truthy. rewrite H.
    rewrite andb_false_r. reflexivity.
Qed.

(** The host alone in its lobby presses start; a participant of the lobby
    of two asks for a restart. *)
Lemma lifecycle_misuse_rejected_witness :
  newEffects lobbyAlone (Net.startGame 2000 lobbyAlone)
  = [Net.Emit (Net.EvError "Need at least 2 players!")]
  /\ Net.gameStarted (Net.startGame 2000 lobbyAlone) = false
  /\ Net.handleMessage 2000 "peer-b" Net.MsgRestart lobbyTwo = lobbyTwo.
Proof.
  destruct lifecycle_misuse_rejected as [Hstart Hrestart].
  destruct (Hstart lobbyAlone 2000 eq_refl ltac:(vm_compute; reflexivity))
    as (Hlog & Hgs & _).
  split; [unfold newEffects; rewrite Hlog, drop_app_length; reflexivity|].
  split; [rewrite Hgs; reflexivity|].
  apply Hrestart. reflexivity.
Defined.

(** C9 as stated fails for the restart request: received by the host of
    [lobbyTwo], where no match has ended, it adds nothing to the trace of
    events and messages, so nothing is shown to anyone. *)
Lemma restart_counterexample :
  Net.isHost lobbyTwo = true
  /\ Net.matchWinner lobbyTwo = None
  /\ newEffects lobbyTwo (Net.handleMessage 2000 "peer-b" Net.MsgRestart lobbyTwo) = []
  /\ ~ (exists e, In e (newEffects lobbyTwo
                          (Net.handleMessage 2000 "peer-b" Net.MsgRestart lobbyTwo))).
Proof.
  assert (E : newEffects lobbyTwo (Net.handleMessage 2000 "peer-b" Net.MsgRestart lobbyTwo)
              = []) by (vm_compute; reflexivity).
  split; [reflexivity|]. split; [vm_compute; reflexivity|].
  split; [exact E|]. rewrite E. intros [e []].
Qed.

(** ** The physics tick of the host *)

Lemma control_broadcastState (now : Z) (s : Net.t) :
  control (Net.broadcastState now s) = control s.
Proof.
  unfold Net.broadcastState.
  destruct (negb (Net.isHost s)); [reflexivity|].
  destruct (Game.serializeGameState _ _ _ _ _ _ _) as [[state g1] ps1].
  reflexivity.
Qed.

Lemma control_broadcastPlayerList (s : Net.t) :
  control (Net.broadcastPlayerList s) = control s.
Proof.
  unfold Net.broadcastPlayerList. destruct (negb (Net.isHost s)); reflexivity.
Qed.

Lemma control_resetStaticSent (s : Net.t) :
  control (Net.resetStaticSent s) = control s.
Proof. reflexivity. Qed.

Lemma players_broadcastPlayerList (s : Net.t) :
  Net.players (Net.broadcastPlayerList s) = Net.players s.
Proof.
  unfold Net.broadcastPlayerList. destruct (negb (Net.isHost s)); reflexivity.
Qed.

Lemma Qltb_lt (a b : Q) : JS.Qltb a b = true <-> (a < b)%Q.
Proof.
  unfold JS.Qltb. rewrite negb_true_iff. split.
  - intros E. apply Qnot_le_lt. intros L. apply Qle_bool_iff in L. congruence.
  - intros L. destruct (Qle_bool b a) eqn:E; [|reflexivity].
    apply Qle_bool_iff in E. exfalso. exact (Qlt_not_le _ _ L E).
Qed.

Lemma outOfBounds_spec (x y : Q) :
  Game.outOfBounds x y = true <-> leavesArena x y.
Proof.
  unfold Game.outOfBounds, leavesArena, JS.Qgtb.
  rewrite !orb_true_iff, !Qltb_lt. tauto.
Qed.

Lemma trailPush_pose (g : Game.Globals) (p : Player.t) (a b : Q) :
  Player.x (snd (Game.trailPush g p a b)) = Player.x p
  /\ Player.y (snd (Game.trailPush g p a b)) = Player.y p
  /\ Player.alive (snd (Game.trailPush g p a b)) = Player.alive p.
Proof.
  unfold Game.trailPush.
  destruct (Player.trailLen p <? TRAIL_MAX); repeat split; reflexivity.
Qed.

Lemma pget_serializeLoop (sendStatic : bool) (ps : Players) (k : string) :
  pget k (snd (Game.serializeLoop sendStatic ps))
  = option_map (fun p => snd (Game.serializePlayer sendStatic p)) (pget k ps).
Proof.
  induction ps as [|[k' p] r IH]; [reflexivity|].
  cbn [Game.serializeLoop].
  destruct (Game.serializePlayer sendStatic p) as [pd p1] eqn:E1.
  destruct (Game.serializeLoop sendStatic r) as [out r1].
  cbn [snd pget] in *.
  destruct (String.eqb k k'); [unfold option_map; rewrite E1; reflexivity | exact IH].
Qed.

Lemma notAlive_serialize (g : Game.Globals) (ps : Players) (ra : bool) (cd : Z)
    (rst : option Z) (mw : option string) (now : Z) (k : string) :
  notAlive k ps -> notAlive k (snd (Game.serializeGameState g ps ra cd rst mw now)).
Proof.
  intros (p & E & A). unfold notAlive.
  rewrite serializeGameState_players, pget_serializeLoop, E.
  eexists. split; [reflexivity|]. exact A.
Qed.

Lemma notAlive_broadcastState (now : Z) (s : Net.t) (k : string) :
  notAlive k (Net.players s) -> notAlive k (Net.players (Net.broadcastState now s)).
Proof.
  intros N. unfold Net.broadcastState.
  destruct (negb (Net.isHost s)); [exact N|].
  pose proof (notAlive_serialize (Net.game s) (Net.players s) (Net.roundActive s)
                (Net.countdown s) (Net.roundStartTime s) (Net.matchWinner s) now k N)
    as N'.
  destruct (Game.serializeGameState _ _ _ _ _ _ _) as [[state g1] ps1].
  exact N'.
Qed.

(** Collision detection never brings a competitor back to life. *)
Lemma notAlive_checkCollisions (g : Game.Globals) (ps : Players) (k : string) :
  notAlive k ps -> notAlive k (snd (Game.checkCollisions g ps)).
Proof.
  unfold Game.checkCollisions. cbn [snd].
  generalize (if Game.gridDirty g
                 || negb (bool_decide (is_Some (Game.spatialBitfield g)))
              then Game.rebuildSpatialGrid g ps else g) as g1.
  intros g1. generalize (Game.aliveList 0 ps) as todo.
  intros todo. revert ps.
  induction todo as [|[k' idx] r IH]; intros ps N; cbn [fold_left]; [exact N|].
  apply IH. destruct (pget k' ps) as [p'|] eqn:E'; [|exact N].
  destruct (Game.playerHit g1 p' idx); [|exact N].
  destruct N as (p & E & A).
  destruct (String.eqb_spec k' k) as [->|Hne].
  - exists (Player.set_alive false p'). split; [apply pget_pset_eq | reflexivity].
  - exists p. split; [|exact A]. rewrite pget_pset_ne by exact Hne. exact E.
Qed.

(** Only the keys of living entries are in [aliveList]. *)
Lemma aliveList_In (idx : Z) (ps : Players) (k : string) :
  In k (map fst (Game.aliveList idx ps)) ->
  exists p, In (k, p) ps /\ Player.alive p = true.
Proof.
  revert idx. induction ps as [|[k' p'] r IH]; intros idx H; cbn in H; [destruct H|].
  destruct (Player.alive p') eqn:A.
  - cbn in H. destruct H as [->|H].
    + exists p'. split; [left; reflexivity | exact A].
    + destruct (IH _ H) as (p & Hin & Ap). exists p. split; [right; exact Hin | exact Ap].
  - destruct (IH _ H) as (p & Hin & Ap). exists p. split; [right; exact Hin | exact Ap].
Qed.

Lemma pget_In_NoDup (ps : Players) (k : string) (p q : Player.t) :
  List.NoDup (keys ps) -> pget k ps = Some p -> In (k, q) ps -> q = p.
Proof.
  induction ps as [|[k' p'] r IH]; intros ND E Hin; [destruct Hin|].
  cbn in ND. inversion ND as [|? ? Hnot ND']; subst.
  cbn in E. destruct (String.eqb_spec k k') as [->|Hne].
  - injection E as <-. destruct Hin as [Eq|Hin]; [congruence|].
    exfalso. apply Hnot. apply (in_map fst) in Hin. exact Hin.
  - destruct Hin as [Eq|Hin]; [congruence|]. exact (IH ND' E Hin).
Qed.

Section Tick.
Context {M : MathLib}.

Lemma control_tickLives (now : Z) (s : Net.t) :
  control (Net.tickLives now s) = control s.
Proof.
  unfold Net.tickLives. destruct (Net.tickCollide now s) as [g2 ps2]. reflexivity.
Qed.

(** The end of [physicsTick]: the tick counter and the periodic
    broadcast leave the control fields alone. *)
Lemma physicsTick_running (now : Z) (s : Net.t) :
  Net.isHost s = true -> Net.roundActive s = true ->
  control (Net.physicsTick now s)
  = control (if Net.aliveCount (Net.players (Net.tickLives now s)) <=? 1
             then Net.roundEnd now (Net.tickLives now s)
             else Net.tickLives now s).
Proof.
  intros H R. unfold Net.physicsTick. rewrite H, R. cbn [negb orb].
  match goal with
  | |- context [if ?c then Net.broadcastState _ _ else _] => destruct c
  end.
  - rewrite control_broadcastState. reflexivity.
  - reflexivity.
Qed.

Lemma control_roundEnd (now : Z) (s : Net.t) :
  control (Net.roundEnd now s)
  = let ids := Net.withLives (Net.players s) in
    {| c_isHost := Net.isHost s;
       c_roundActive := false;
       c_countdown := Net.countdown s;
       c_roundStartTime := Net.roundStartTime s;
       c_matchWinner :=
         if Z.of_nat (length ids) =? 1 then last ids else Net.matchWinner s;
       c_gameStarted := Net.gameStarted s;
       c_physicsInterval := None;
       c_timers :=
         if Z.of_nat (length ids) <=? 1 then Net.timers s
         else Net.timers s ++ [autoRestartTimer (Net.nextTimer s)];
       c_nextTimer :=
         if Z.of_nat (length ids) <=? 1 then Net.nextTimer s
         else S (Net.nextTimer s) |}.
Proof.
  unfold Net.roundEnd. cbv zeta.
  assert (P : Net.players (Net.stopPhysicsLoop (Net.set_roundActive false s))
              = Net.players s).
  { unfold Net.stopPhysicsLoop. cbn. destruct (Net.physicsInterval s); reflexivity. }
  assert (C : control (Net.stopPhysicsLoop (Net.set_roundActive false s))
              = {| c_isHost := Net.isHost s; c_roundActive := false;
                   c_countdown := Net.countdown s;
                   c_roundStartTime := Net.roundStartTime s;
                   c_matchWinner := Net.matchWinner s;
                   c_gameStarted := Net.gameStarted s;
                   c_physicsInterval := None;
                   c_timers := Net.timers s;
                   c_nextTimer := Net.nextTimer s |}).
  { unfold Net.stopPhysicsLoop. cbn.
    destruct (Net.physicsInterval s) eqn:E; [reflexivity|].
    unfold control. cbn. rewrite E. reflexivity. }
  rewrite P.
  set (s1 := Net.stopPhysicsLoop (Net.set_roundActive false s)) in *.
  set (ids := Net.withLives (Net.players s)).
  destruct (Z.of_nat (length ids) <=? 1) eqn:L1.
  - rewrite control_broadcastState, control_broadcastPlayerList, control_resetStaticSent.
    destruct (Z.of_nat (length ids) =? 1) eqn:E1.
    + change (control (Net.set_matchWinner (last ids) s1))
        with {| c_isHost := c_isHost (control s1);
                c_roundActive := c_roundActive (control s1);
                c_countdown := c_countdown (control s1);
                c_roundStartTime := c_roundStartTime (control s1);
                c_matchWinner := last ids;
                c_gameStarted := c_gameStarted (control s1);
                c_physicsInterval := c_physicsInterval (control s1);
                c_timers := c_timers (control s1);
                c_nextTimer := c_nextTimer (control s1) |}.
      rewrite C. reflexivity.
    + exact C.
  - destruct (Z.of_nat (length ids) =? 1) eqn:E1; [lia|].
    set (s2 := Net.broadcastState now (Net.broadcastPlayerList (Net.resetStaticSent s1))).
    assert (C2 : control s2 = control s1).
    { subst s2. rewrite control_broadcastState, control_broadcastPlayerList.
      apply control_resetStaticSent. }
    change (control (Net.addTimer Net.AutoRestartTimeout 3000 s2))
      with {| c_isHost := c_isHost (control s2);
              c_roundActive := c_roundActive (control s2);
              c_countdown := c_countdown (control s2);
              c_roundStartTime := c_roundStartTime (control s2);
              c_matchWinner := c_matchWinner (control s2);
              c_gameStarted := c_gameStarted (control s2);
              c_physicsInterval := c_physicsInterval (control s2);
              c_timers := c_timers (control s2)
                          ++ [autoRestartTimer (c_nextTimer (control s2))];
              c_nextTimer := S (c_nextTimer (control s2)) |}.
    rewrite C2, C. reflexivity.
Qed.

Lemma control_autoRestart (h : nat) (now : Z) (s : Net.t) :
  Net.gameStarted s = true -> Net.isHost s = true ->
  control (Net.autoRestart h now s)
  = {| c_isHost := true;
       c_roundActive := Net.roundActive s;
       c_countdown := 3;
       c_roundStartTime := Net.roundStartTime s;
       c_matchWinner := Net.matchWinner s;
       c_gameStarted := true;
       c_physicsInterval := Net.physicsInterval s;
       c_timers :=
         List.filter (fun tm => negb (Nat.eqb (Net.timer_id tm) h)) (Net.timers s)
         ++ [countdownTimer (Net.nextTimer s)];
       c_nextTimer := S (Net.nextTimer s) |}.
Proof.
  intros G H. unfold Net.autoRestart. cbv zeta.
  change (Net.gameStarted (Net.clearTimer h s)) with (Net.gameStarted s). rewrite G.
  set (s1 := Net.broadcastState now
               (Net.resetStaticSent (Net.set_countdown 3 (Net.clearTimer h s)))).
  assert (C1 : control s1 = control (Net.set_countdown 3 (Net.clearTimer h s))).
  { subst s1. rewrite control_broadcastState. apply control_resetStaticSent. }
  assert (H1 : Net.isHost s1 = true).
  { apply (f_equal c_isHost) in C1. cbn in C1. rewrite C1. exact H. }
  unfold Net.runCountdown. rewrite H1. cbn [negb].
  change (control (Net.addTimer Net.CountdownInterval 1000 s1))
    with {| c_isHost := c_isHost (control s1);
            c_roundActive := c_roundActive (control s1);
            c_countdown := c_countdown (control s1);
            c_roundStartTime := c_roundStartTime (control s1);
            c_matchWinner := c_matchWinner (control s1);
            c_gameStarted := c_gameStarted (control s1);
            c_physicsInterval := c_physicsInterval (control s1);
            c_timers := c_timers (control s1)
                        ++ [countdownTimer (c_nextTimer (control s1))];
            c_nextTimer := S (c_nextTimer (control s1)) |}.
  rewrite C1. cbn. rewrite G, H. reflexivity.
Qed.

Lemma withLives_In (ps : Players) (w : string) :
  In w (Net.withLives ps) <-> exists p, In (w, p) ps /\ 0 < Player.lives p.
Proof.
  unfold Net.withLives. rewrite in_map_iff. split.
  - intros [[k p] [E Hin]]. cbn in E. subst k.
    apply filter_In in Hin. destruct Hin as [Hin L]. cbn in L.
    exists p. split; [exact Hin | lia].
  - intros [p [Hin L]]. exists (w, p). split; [reflexivity|].
    apply filter_In. split; [exact Hin|]. cbn. lia.
Qed.

(** C2.  In a physics tick of the host during a round, when at most one
    competitor is still alive after movement, collision detection and the
    loss of lives: [roundActive] becomes false and the physics clock is
    stopped.  With [ids] the competitors that have lives left: if there is
    at most one, [matchWinner] becomes its id, and stays as it was when
    there is none, and no timer is added; if there are more, [matchWinner]
    stays as it was and a timeout of 3000 ms is added, whose callback sets
    [countdown] to 3 and starts the one-second interval of the countdown;
    the callback is guarded by [gameStarted], which holds whenever a clock
    of the host is pending ([running_clock_started]). *)
Theorem physicsTick_round_end (s : Net.t) (now : Z) :
  Net.isHost s = true -> Net.roundActive s = true ->
  Net.aliveCount (Net.players (Net.tickLives now s)) <= 1 ->
  let s' := Net.physicsTick now s in
  let ids := Net.withLives (Net.players (Net.tickLives now s)) in
  Net.roundActive s' = false
  /\ Net.physicsInterval s' = None
  /\ (forall w, In w ids <->
        exists p, In (w, p) (Net.players (Net.tickLives now s)) /\ 0 < Player.lives p)
  /\ (Z.of_nat (length ids) <= 1 ->
        Net.matchWinner s' = match ids with [w] => Some w | _ => Net.matchWinner s end
        /\ Net.timers s' = Net.timers s)
  /\ (1 < Z.of_nat (length ids) ->
        Net.matchWinner s' = Net.matchWinner s
        /\ Net.timers s' = Net.timers s ++ [autoRestartTimer (Net.nextTimer s)]
        /\ forall now' : Z,
             Net.gameStarted s = true ->
             let r := Net.autoRestart (Net.nextTimer s) now' s' in
             Net.countdown r = 3
             /\ In (countdownTimer (S (Net.nextTimer s))) (Net.timers r)
             /\ ~ In (autoRestartTimer (Net.nextTimer s)) (Net.timers r)).
Proof.
  intros H R A s' ids.
  pose proof (physicsTick_running now s H R) as C.
  apply Z.leb_le in A. rewrite A in C.
  rewrite control_roundEnd in C. cbv zeta in C. fold ids in C. fold s' in C.
  pose proof (control_tickLives now s) as CL.
  assert (F : forall {A} (f : Control -> A),
             f (control (Net.tickLives now s)) = f (control s))
    by (intros; rewrite CL; reflexivity).
  pose proof (F _ c_isHost) as F1. pose proof (F _ c_matchWinner) as F2.
  pose proof (F _ c_timers) as F3. pose proof (F _ c_nextTimer) as F4.
  pose proof (F _ c_gameStarted) as F5. cbn in F1, F2, F3, F4, F5.
  rewrite F1, F2, F3, F4, F5 in C. clear F F1 F2 F3 F4 F5 CL.
  split; [exact (f_equal c_roundActive C)|].
  split; [exact (f_equal c_physicsInterval C)|].
  split; [intros w; apply withLives_In|].
  split.
  - intros L. apply Z.leb_le in L. rewrite L in C.
    split; [|exact (f_equal c_timers C)].
    apply (f_equal c_matchWinner) in C. cbn in C. rewrite C.
    apply Z.leb_le in L.
    destruct ids as [|w [|w2 r]]; cbn in L |- *; try reflexivity. lia.
  - intros L.
    assert (L1 : (Z.of_nat (length ids) <=? 1) = false) by (apply Z.leb_gt; lia).
    assert (L2 : (Z.of_nat (length ids) =? 1) = false) by (apply Z.eqb_neq; lia).
    rewrite L1, L2 in C.
    split; [exact (f_equal c_matchWinner C)|].
    split; [exact (f_equal c_timers C)|].
    intros now' G r.
    assert (G' : Net.gameStarted s' = true)
      by exact (eq_trans (f_equal c_gameStarted C) G).
    assert (H' : Net.isHost s' = true)
      by exact (eq_trans (f_equal c_isHost C) H).
    assert (T' : Net.timers s' = Net.timers s ++ [autoRestartTimer (Net.nextTimer s)])
      by exact (f_equal c_timers C).
    assert (N' : Net.nextTimer s' = S (Net.nextTimer s))
      by exact (f_equal c_nextTimer C).
    pose proof (control_autoRestart (Net.nextTimer s) now' s' G' H') as CR.
    fold r in CR. rewrite T', N' in CR.
    split; [exact (f_equal c_countdown CR)|].
    assert (TR : Net.timers r
                 = List.filter
                     (fun tm => negb (Nat.eqb (Net.timer_id tm) (Net.nextTimer s)))
                     (Net.timers s ++ [autoRestartTimer (Net.nextTimer s)])
                   ++ [countdownTimer (S (Net.nextTimer s))])
      by exact (f_equal c_timers CR).
    rewrite TR.
    split.
    + apply in_or_app. right. left. reflexivity.
    + intros Hin. apply in_app_or in Hin. destruct Hin as [Hin|[Hin|[]]].
      * apply filter_In in Hin. destruct Hin as [_ Hid]. cbn in Hid.
        rewrite Nat.eqb_refl in Hid. discriminate.
      * discriminate.
Qed.

Lemma movePlayer_wall (g : Game.Globals) (p : Player.t) (speed : Q) :
  let p' := snd (Game.movePlayer g p speed) in
  Player.x p' = Game.nextX p speed
  /\ Player.y p' = Game.nextY p speed
  /\ (leavesArena (Game.nextX p speed) (Game.nextY p speed) -> Player.alive p' = false).
Proof.
  unfold Game.movePlayer. cbv zeta.
  set (p1 := Player.set_pose (Game.nextX p speed) (Game.nextY p speed)
               (Game.nextAngle p) p).
  destruct (trailPush_pose g p1 (Player.x p1) (Player.y p1)) as (X & Y & _).
  destruct (Game.trailPush g p1 (Player.x p1) (Player.y p1)) as [g2 p2].
  cbn [snd] in X, Y.
  assert (X2 : Player.x p2 = Game.nextX p speed) by (rewrite X; reflexivity).
  assert (Y2 : Player.y p2 = Game.nextY p speed) by (rewrite Y; reflexivity).
  destruct (Game.outOfBounds (Player.x p2) (Player.y p2)) eqn:O; cbn [snd].
  - repeat split; try assumption.
  - repeat split; try assumption.
    intros L. rewrite <- X2, <- Y2 in L. apply outOfBounds_spec in L. congruence.
Qed.

Lemma keys_moveAll (speed : Q) (g : Game.Globals) (ps : Players) :
  keys (snd (Net.moveAll speed g ps)) = keys ps.
Proof.
  revert g. induction ps as [|[k p] r IH]; intros g; [reflexivity|].
  cbn [Net.moveAll].
  destruct (if Player.alive p then Game.movePlayer g p speed else (g, p)) as [g1 p1].
  specialize (IH g1). destruct (Net.moveAll speed g1 r) as [g2 r1].
  cbn [snd] in *. unfold keys in *. cbn [map fst]. rewrite IH. reflexivity.
Qed.

(** A living competitor is moved once, with the module state the loop
    has reached when its turn comes. *)
Lemma pget_moveAll (speed : Q) (g : Game.Globals) (ps : Players) (k : string)
    (p : Player.t) :
  pget k ps = Some p -> Player.alive p = true ->
  exists g', pget k (snd (Net.moveAll speed g ps))
             = Some (snd (Game.movePlayer g' p speed)).
Proof.
  revert g. induction ps as [|[k' q] r IH]; intros g E A; [discriminate|].
  cbn [Net.moveAll]. cbn [pget] in E.
  destruct (String.eqb k k') eqn:K.
  - injection E as ->. rewrite A.
    destruct (Game.movePlayer g p speed) as [g1 p1] eqn:Em.
    destruct (Net.moveAll speed g1 r) as [g2 r1].
    exists g. cbn [snd pget]. rewrite K, Em. reflexivity.
  - destruct (if Player.alive q then Game.movePlayer g q speed else (g, q)) as [g1 q1].
    destruct (IH g1 E A) as [g' E'].
    destruct (Net.moveAll speed g1 r) as [g2 r1].
    exists g'. cbn [snd pget] in *. rewrite K. exact E'.
Qed.

Lemma notAlive_loseLives (before ps : Players) (k : string) :
  notAlive k ps -> notAlive k (Net.loseLives before ps).
Proof.
  intros (p & E & A). unfold notAlive, Net.loseLives.
  induction ps as [|[k' q] r IH]; [discriminate|].
  cbn [map pget] in *.
  destruct (Net.wasAlive before k' && negb (Player.alive q)); cbn [pget];
    destruct (String.eqb k k').
  - injection E as ->. eexists. split; [reflexivity | exact A].
  - exact (IH E).
  - injection E as ->. eexists. split; [reflexivity | exact A].
  - exact (IH E).
Qed.

Lemma notAlive_roundEnd (now : Z) (s : Net.t) (k : string) :
  notAlive k (Net.players s) -> notAlive k (Net.players (Net.roundEnd now s)).
Proof.
  intros N. unfold Net.roundEnd. cbv zeta.
  set (s1 := Net.stopPhysicsLoop (Net.set_roundActive false s)).
  assert (N1 : notAlive k (Net.players s1)).
  { subst s1. unfold Net.stopPhysicsLoop. cbn.
    destruct (Net.physicsInterval s); exact N. }
  destruct (Z.of_nat (length (Net.withLives (Net.players s1))) <=? 1).
  - apply notAlive_broadcastState. rewrite players_broadcastPlayerList.
    destruct (Z.of_nat (length (Net.withLives (Net.players s1))) =? 1); exact N1.
  - change (Net.players (Net.addTimer Net.AutoRestartTimeout 3000 ?x))
      with (Net.players x).
    apply notAlive_broadcastState. rewrite players_broadcastPlayerList. exact N1.
Qed.

Lemma notAlive_physicsTick (now : Z) (s : Net.t) (k : string) :
  Net.isHost s = true -> Net.roundActive s = true ->
  notAlive k (Net.players (Net.tickLives now s)) ->
  notAlive k (Net.players (Net.physicsTick now s)).
Proof.
  intros H R N. unfold Net.physicsTick. rewrite H, R. cbn [negb orb]. cbv zeta.
  set (s2 := if Net.aliveCount (Net.players (Net.tickLives now s)) <=? 1
             then Net.roundEnd now (Net.tickLives now s)
             else Net.tickLives now s).
  assert (N2 : notAlive k (Net.players s2)).
  { subst s2. destruct (Net.aliveCount _ <=? 1); [apply notAlive_roundEnd|]; exact N. }
  match goal with
  | |- context [if ?c then Net.broadcastState _ _ else _] => destruct c
  end.
  - apply notAlive_broadcastState. exact N2.
  - exact N2.
Qed.

(** C5.  [movePlayer] stores the position it computes and, when that
    position lies outside [0, 1400] x [0, 900] on either axis, marks the
    competitor not alive before it returns.  In a tick of the host the
    dictionary handed to [checkCollisions] is the one the movement loop
    leaves: a competitor that was alive and whose computed position
    leaves the arena is already not alive in it, is not among the
    competitors collision detection examines, and is not alive when the
    tick ends. *)
Theorem wall_death_before_collisions :
  (forall (g : Game.Globals) (p : Player.t) (speed : Q),
     leavesArena (Game.nextX p speed) (Game.nextY p speed) ->
     Player.x (snd (Game.movePlayer g p speed)) = Game.nextX p speed
     /\ Player.y (snd (Game.movePlayer g p speed)) = Game.nextY p speed
     /\ Player.alive (snd (Game.movePlayer g p speed)) = false)
  /\ (forall (s : Net.t) (now : Z) (k : string) (p : Player.t),
        Net.isHost s = true -> Net.roundActive s = true ->
        List.NoDup (keys (Net.players s)) ->
        pget k (Net.players s) = Some p -> Player.alive p = true ->
        leavesArena (Game.nextX p (getGameSpeed (Net.roundStartTime s) now))
                    (Game.nextY p (getGameSpeed (Net.roundStartTime s) now)) ->
        notAlive k (snd (Net.tickMove now s))
        /\ Net.tickCollide now s
           = Game.checkCollisions (fst (Net.tickMove now s)) (snd (Net.tickMove now s))
        /\ ~ In k (map fst (Game.aliveList 0 (snd (Net.tickMove now s))))
        /\ notAlive k (Net.players (Net.physicsTick now s))).
Proof.
  split.
  - intros g p speed L.
    destruct (movePlayer_wall g p speed) as (X & Y & A). auto.
  - intros s now k p H R ND E A L.
    assert (N : notAlive k (snd (Net.tickMove now s))).
    { unfold Net.tickMove.
      destruct (pget_moveAll (getGameSpeed (Net.roundStartTime s) now) (Net.game s)
                  (Net.players s) k p E A) as [g' E'].
      eexists. split; [exact E'|].
      apply (movePlayer_wall g' p _). exact L. }
    assert (C : Net.tickCollide now s
                = Game.checkCollisions (fst (Net.tickMove now s))
                    (snd (Net.tickMove now s))).
    { unfold Net.tickCollide. destruct (Net.tickMove now s). reflexivity. }
    split; [exact N|]. split; [exact C|]. split.
    + intros Hin. destruct (aliveList_In _ _ _ Hin) as (q & Hq & Aq).
      destruct N as (p1 & E1 & A1).
      assert (ND' : List.NoDup (keys (snd (Net.tickMove now s)))).
      { unfold Net.tickMove. rewrite keys_moveAll. exact ND. }
      rewrite (pget_In_NoDup _ _ _ _ ND' E1 Hq) in Aq. congruence.
    + apply notAlive_physicsTick; [exact H | exact R |].
      unfold Net.tickLives. rewrite C.
      pose proof (notAlive_checkCollisions (fst (Net.tickMove now s))
                    (snd (Net.tickMove now s)) k N) as N'.
      destruct (Game.checkCollisions _ _) as [g2 ps2]. cbn [snd] in N'.
      apply notAlive_loseLives. exact N'.
Qed.

End Tick.

(** The tick at 6 s of [headingOut], where both competitors leave the
    arena and keep lives, and of [lastStand], where the participant
    loses its last life. *)
Lemma physicsTick_round_end_witness :
  (Net.roundActive (Net.physicsTick (M := taylorMath) 6000 headingOut) = false
   /\ Net.timers (Net.physicsTick (M := taylorMath) 6000 headingOut)
      = Net.timers headingOut ++ [autoRestartTimer (Net.nextTimer headingOut)]
   /\ Net.countdown
        (Net.autoRestart (Net.nextTimer headingOut) 9000
           (Net.physicsTick (M := taylorMath) 6000 headingOut)) = 3)
  /\ (Net.physicsInterval (Net.physicsTick (M := taylorMath) 6000 lastStand) = None
      /\ Net.matchWinner (Net.physicsTick (M := taylorMath) 6000 lastStand)
         = Some "1234"%string).
Proof.
  split.
  - destruct (physicsTick_round_end (M := taylorMath) headingOut 6000)
      as (RA & _ & _ & _ & Hmore).
    + vm_compute. reflexivity.
    + vm_compute. reflexivity.
    + vm_compute. discriminate.
    + destruct Hmore as (_ & T & Hfire); [vm_compute; reflexivity|].
      destruct (Hfire 9000) as (C & _); [vm_compute; reflexivity|].
      split; [exact RA|]. split; [exact T | exact C].
  - destruct (physicsTick_round_end (M := taylorMath) lastStand 6000)
      as (_ & PI & _ & Hone & _).
    + vm_compute. reflexivity.
    + vm_compute. reflexivity.
    + vm_compute. discriminate.
    + destruct Hone as (W & _); [vm_compute; discriminate|].
      split; [exact PI|]. rewrite W.
      assert (E : Net.withLives (Net.players (Net.tickLives (M := taylorMath) 6000 lastStand))
                  = ["1234"%string]) by (vm_compute; reflexivity).
      rewrite E. reflexivity.
Defined.

(** The host of [headingOut], at x = 1399 with heading 0, in the tick at
    6 s. *)
Lemma wall_death_before_collisions_witness :
  notAlive "1234" (snd (Net.tickMove (M := taylorMath) 6000 headingOut))
  /\ notAlive "1234" (Net.players (Net.physicsTick (M := taylorMath) 6000 headingOut)).
Proof.
  destruct (wall_death_before_collisions (M := taylorMath)) as [_ Htick].
  assert (E : exists p, pget "1234" (Net.players headingOut) = Some p
                        /\ Player.alive p = true
                        /\ leavesArena
                             (Game.nextX (M := taylorMath) p
                                (getGameSpeed (Net.roundStartTime headingOut) 6000))
                             (Game.nextY (M := taylorMath) p
                                (getGameSpeed (Net.roundStartTime headingOut) 6000))).
  { eexists. split; [vm_compute; reflexivity|]. split; [vm_compute; reflexivity|].
    right. left. vm_compute. reflexivity. }
  destruct E as (p & E & A & L).
  destruct (Htick headingOut 6000 "1234"%string p) as (N1 & _ & _ & N2);
    try assumption.
  - vm_compute. reflexivity.
  - vm_compute. reflexivity.
  - assert (K : keys (Net.players headingOut) = ["1234"; "peer-b"]%string)
      by (vm_compute; reflexivity).
    rewrite K. constructor; [intros [D|[]]; discriminate|].
    constructor; [intros []|constructor].
  - split; assumption.
Defined.

(** ** The clocks of the host only run in a started match *)

Lemma control_startGame (now : Z) (s : Net.t) :
  Net.isHost s = true -> 2 <= Z.of_nat (length (keys (Net.players s))) ->
  control (Net.startGame now s)
  = {| c_isHost := true;
       c_roundActive := false;
       c_countdown := 3;
       c_roundStartTime := Net.roundStartTime s;
       c_matchWinner := None;
       c_gameStarted := true;
       c_physicsInterval := Net.physicsInterval s;
       c_timers := Net.timers s ++ [countdownTimer (Net.nextTimer s)];
       c_nextTimer := S (Net.nextTimer s) |}.
Proof.
  intros H L. unfold Net.startGame. rewrite H. cbn [negb].
  destruct (Z.of_nat (length (keys (Net.players s))) <? 2) eqn:C; [lia|].
  cbv zeta.
  match goal with
  | |- control (Net.runCountdown (Net.emit _ (Net.broadcastState _ ?x))) = _ =>
      set (s3 := x)
  end.
  set (s4 := Net.broadcastState now s3).
  assert (C4 : control s4 = control s3) by apply control_broadcastState.
  assert (H4 : Net.isHost (Net.emit Net.EvGameStart s4) = true).
  { change (c_isHost (control s4) = true). rewrite C4. subst s3. cbn. exact H. }
  unfold Net.runCountdown. rewrite H4. cbn [negb].
  change (control (Net.addTimer Net.CountdownInterval 1000 (Net.emit Net.EvGameStart s4)))
    with {| c_isHost := c_isHost (control s4);
            c_roundActive := c_roundActive (control s4);
            c_countdown := c_countdown (control s4);
            c_roundStartTime := c_roundStartTime (control s4);
            c_matchWinner := c_matchWinner (control s4);
            c_gameStarted := c_gameStarted (control s4);
            c_physicsInterval := c_physicsInterval (control s4);
            c_timers := c_timers (control s4) ++ [countdownTimer (c_nextTimer (control s4))];
            c_nextTimer := S (c_nextTimer (control s4)) |}.
  rewrite C4. subst s3. cbn. rewrite H. reflexivity.
Qed.

Lemma startGame_refused (now : Z) (s : Net.t) :
  Net.isHost s = false \/ Z.of_nat (length (keys (Net.players s))) < 2 ->
  control (Net.startGame now s) = control s.
Proof.
  intros D. unfold Net.startGame.
  destruct (Net.isHost s); cbn [negb]; [|reflexivity].
  destruct D as [D|D]; [discriminate|].
  apply Z.ltb_lt in D. rewrite D. reflexivity.
Qed.

(** The fields the invariant reads, after the method [startRound]. *)
Lemma startRound_clocks (now : Z) (s : Net.t) :
  Net.isHost (Net.startRound now s) = Net.isHost s
  /\ Net.gameStarted (Net.startRound now s) = Net.gameStarted s.
Proof.
  unfold Net.startRound. destruct (negb (Net.isHost s)); [split; reflexivity|].
  destruct (Game.startRound (Net.game s) (Net.players s)) as [g1 ps1].
  unfold Net.startPhysicsLoop, Net.stopPhysicsLoop. cbn.
  destruct (Net.physicsInterval s); split; reflexivity.
Qed.

Lemma handleJoin_control (now : Z) (conn playerId : string) (name : JS.value)
    (s : Net.t) :
  control (Net.handleJoin now conn playerId name s) = control s.
Proof.
  unfold Net.handleJoin. destruct (negb (Net.isHost s)); [reflexivity|].
  cbv zeta.
  destruct (Game.serializeGameState _ _ _ _ _ _ _) as [[state1 g1] ps1].
  match goal with
  | |- context [Net.resetStaticSent (Net.broadcastPlayerList (Net.emit _ ?x))] =>
      set (s3 := x)
  end.
  assert (C3 : control s3 = control s).
  { subst s3. cbn [Net.gameStarted Net.add_log Net.set_players Net.set_game
                   Net.resetStaticSent].
    destruct (Net.gameStarted s); [|reflexivity].
    destruct (pget playerId _); reflexivity. }
  set (s4 := Net.resetStaticSent (Net.broadcastPlayerList (Net.emit _ s3))).
  assert (C4 : control s4 = control s).
  { subst s4. rewrite control_resetStaticSent, control_broadcastPlayerList. exact C3. }
  change (Net.roundActive s4) with (c_roundActive (control s4)).
  change (Net.countdown s4) with (c_countdown (control s4)).
  change (Net.roundStartTime s4) with (c_roundStartTime (control s4)).
  change (Net.matchWinner s4) with (c_matchWinner (control s4)).
  destruct (Game.serializeGameState _ _ _ _ _ _ _) as [[state2 g2] ps2].
  exact C4.
Qed.

Section Reach.
Context {M : MathLib}.

Lemma clocksStarted_of_control (s s' : Net.t) :
  control s' = control s -> clocksStarted s -> clocksStarted s'.
Proof.
  intros C [H J]. unfold clocksStarted.
  change (Net.isHost s') with (c_isHost (control s')).
  change (Net.physicsInterval s') with (c_physicsInterval (control s')).
  change (Net.timers s') with (c_timers (control s')).
  change (Net.gameStarted s') with (c_gameStarted (control s')).
  rewrite C. split; [exact H | exact J].
Qed.

Lemma clocksStarted_started (s : Net.t) :
  Net.isHost s = true -> Net.gameStarted s = true -> clocksStarted s.
Proof. intros H G. split; [exact H | intros _; exact G]. Qed.

Lemma clocksStarted_step (s s' : Net.t) :
  hostStep s s' -> clocksStarted s -> clocksStarted s'.
Proof.
  intros St J. pose proof J as [H Jc]. destruct St.
  - exact J.
  - destruct data as [pid name | pid st | | st | list | | uid tu];
      cbn [Net.handleMessage]; try rewrite H; cbn [negb andb]; try exact J.
    + apply (clocksStarted_of_control s); [apply handleJoin_control | exact J].
    + destruct (Net.truthy (Net.matchWinner s)); [|exact J].
      destruct (Z_lt_ge_dec (Z.of_nat (length (keys (Net.players s)))) 2) as [L|L].
      * apply (clocksStarted_of_control s); [|exact J].
        apply startGame_refused. right. exact L.
      * pose proof (control_startGame now s H ltac:(lia)) as C.
        apply clocksStarted_started;
          [exact (f_equal c_isHost C) | exact (f_equal c_gameStarted C)].
  - destruct (Z_lt_ge_dec (Z.of_nat (length (keys (Net.players s)))) 2) as [L|L].
    + apply (clocksStarted_of_control s); [|exact J].
      apply startGame_refused. right. exact L.
    + pose proof (control_startGame now s H ltac:(lia)) as C.
      apply clocksStarted_started;
        [exact (f_equal c_isHost C) | exact (f_equal c_gameStarted C)].
  - assert (G : Net.gameStarted s = true).
    { apply Jc. right. intros E. rewrite E in H0. destruct H0. }
    unfold Net.countdownTick. cbv zeta.
    set (s2 := Net.broadcastState now
                 (Net.resetStaticSent (Net.set_countdown (Net.countdown s - 1) s))).
    assert (C2 : control s2
                 = control (Net.set_countdown (Net.countdown s - 1) s)).
    { subst s2. rewrite control_broadcastState. apply control_resetStaticSent. }
    assert (H2 : Net.isHost s2 = true) by exact (eq_trans (f_equal c_isHost C2) H).
    assert (G2 : Net.gameStarted s2 = true)
      by exact (eq_trans (f_equal c_gameStarted C2) G).
    destruct (Net.countdown s2 <=? 0).
    + destruct (startRound_clocks now (Net.clearTimer h s2)) as [Hs Gs].
      apply clocksStarted_started; [rewrite Hs | rewrite Gs]; assumption.
    + apply clocksStarted_started; assumption.
  - assert (G : Net.gameStarted s = true).
    { apply Jc. right. intros E. rewrite E in H0. destruct H0. }
    pose proof (control_autoRestart h now s G H) as C.
    apply clocksStarted_started;
      [exact (f_equal c_isHost C) | exact (f_equal c_gameStarted C)].
  - assert (G : Net.gameStarted s = true).
    { apply Jc. left. rewrite H0. discriminate. }
    destruct (Net.roundActive s) eqn:R.
    + pose proof (physicsTick_running now s H R) as C.
      pose proof (control_tickLives now s) as CL.
      assert (K : c_isHost (control (Net.physicsTick now s)) = true
                  /\ c_gameStarted (control (Net.physicsTick now s)) = true).
      { rewrite C. destruct (Net.aliveCount _ <=? 1).
        - rewrite control_roundEnd. cbn.
          change (Net.isHost (Net.tickLives now s))
            with (c_isHost (control (Net.tickLives now s))).
          change (Net.gameStarted (Net.tickLives now s))
            with (c_gameStarted (control (Net.tickLives now s))).
          rewrite CL. split; assumption.
        - rewrite CL. split; assumption. }
      apply clocksStarted_started; apply K.
    + unfold Net.physicsTick. rewrite H, R. cbn [negb orb].
      unfold Net.stopPhysicsLoop. destruct (Net.physicsInterval s); [|exact J].
      apply clocksStarted_started; assumption.
Qed.


End Reach.

(** ** Collision detection *)

Lemma pointHits_spec (px py tx ty : Q) :
  Game.pointHits px py tx ty = true <-> withinRadius px py tx ty.
Proof.
  unfold Game.pointHits, withinRadius, JS.Qgtb. cbv zeta.
  set (dx := (px - tx)%Q). set (dy := (py - ty)%Q).
  destruct (JS.Qltb COLLISION_RADIUS dx || JS.Qltb dx (- COLLISION_RADIUS)
            || JS.Qltb COLLISION_RADIUS dy || JS.Qltb dy (- COLLISION_RADIUS)) eqn:B.
  - split; [discriminate|].
    intros ([A1 A2] & [A3 A4] & _).
    rewrite !orb_true_iff, !Qltb_lt in B.
    destruct B as [[[B|B]|B]|B]; exfalso;
      eapply Qlt_not_le; first [exact B | eassumption].
  - rewrite !orb_false_iff in B. destruct B as [[[B1 B2] B3] B4].
    rewrite Qltb_lt. split.
    + intros D. repeat split; try exact D; apply Qnot_lt_le; intros L;
        apply Qltb_lt in L; congruence.
    + intros (_ & _ & D). exact D.
Qed.

(** The list-per-cell copy skips a reference exactly by the grace rule. *)
Lemma entrySkipped_spec (players : Players) (p : Player.t) (e : GameList.CellEntry) :
  GameList.entrySkipped players p e = true
  <-> graceSkipped players p (GameList.ce_playerId e) (GameList.ce_trailPos e).
Proof.
  unfold GameList.entrySkipped, graceSkipped. cbv zeta.
  destruct (String.eqb_spec (GameList.ce_playerId e) (Player.id p)) as [Eq|Ne].
  - rewrite Z.geb_le. split.
    + intros H. left. split; assumption.
    + intros [[_ H]|[[C _]|[C _]]]; [exact H | contradiction | contradiction].
  - destruct (pget (GameList.ce_playerId e) players) as [other|] eqn:G.
    + destruct (Player.alive other) eqn:A; cbn [negb].
      * rewrite Z.geb_le. split.
        -- intros H. right. right. split; [exact Ne|]. exists other. split; [reflexivity | exact H].
        -- intros [[C _]|[[_ H]|[_ (o & Eo & H)]]]; [contradiction | |].
           ++ specialize (H other eq_refl). congruence.
           ++ injection Eo as <-. exact H.
      * split; [|reflexivity]. intros _. right. left. split; [exact Ne|].
        intros o Eo. injection Eo as <-. exact A.
    + split; [|reflexivity]. intros _. right. left. split; [exact Ne|].
      intros o Eo. discriminate.
Qed.

(** The list-per-cell copy of [checkCollisions] follows the collision
    rule of the specification: of the samples indexed in the 3 x 3
    neighbourhood of a competitor, it passes over exactly those the grace
    rule names, tests every other one by the bounding box and the squared
    distance, and marks the competitor not alive when one of them hits. *)
Theorem listGrid_collision_rule :
  (forall (players : Players) (p : Player.t) (e : GameList.CellEntry),
     GameList.entrySkipped players p e = true
     <-> graceSkipped players p (GameList.ce_playerId e) (GameList.ce_trailPos e))
  /\ (forall (grid : list (list GameList.CellEntry)) (players : Players) (p : Player.t),
        GameList.playerHit grid players p = true
        <-> exists cellIdx e other,
              In cellIdx (GameList.neighbourhood p)
              /\ In e (JS.aget [] grid cellIdx)
              /\ ~ graceSkipped players p (GameList.ce_playerId e) (GameList.ce_trailPos e)
              /\ pget (GameList.ce_playerId e) players = Some other
              /\ withinRadius (Player.x p) (Player.y p)
                   (JS.aget 0%Q (Player.trailX other) (GameList.ce_bufIdx e))
                   (JS.aget 0%Q (Player.trailY other) (GameList.ce_bufIdx e)))
  /\ (forall (grid : list (list GameList.CellEntry)) (ps : Players) (k : string)
             (p : Player.t),
        pget k ps = Some p ->
        (GameList.playerHit grid ps p = true -> notAlive k (GameList.checkPlayer grid ps k))
        /\ (GameList.playerHit grid ps p = false -> GameList.checkPlayer grid ps k = ps)).
Proof.
  split; [exact entrySkipped_spec|]. split.
  - intros grid players p. unfold GameList.playerHit, GameList.cellHit.
    rewrite existsb_exists. split.
    + intros (cellIdx & Hc & Hx). apply existsb_exists in Hx.
      destruct Hx as (e & He & Ht).
      destruct (GameList.entrySkipped players p e) eqn:S; [discriminate|].
      unfold GameList.entryTested in Ht.
      destruct (pget (GameList.ce_playerId e) players) as [other|] eqn:G; [|discriminate].
      exists cellIdx, e, other. repeat split; try assumption.
      * intros Gs. apply entrySkipped_spec in Gs. congruence.
      * apply pointHits_spec in Ht. apply Ht.
      * apply pointHits_spec in Ht. apply Ht.
      * apply pointHits_spec in Ht. apply Ht.
      * apply pointHits_spec in Ht. apply Ht.
      * apply pointHits_spec in Ht. apply Ht.
    + intros (cellIdx & e & other & Hc & He & Ns & G & W).
      exists cellIdx. split; [exact Hc|]. apply existsb_exists.
      exists e. split; [exact He|].
      destruct (GameList.entrySkipped players p e) eqn:S.
      * exfalso. apply Ns. apply entrySkipped_spec. exact S.
      * unfold GameList.entryTested. rewrite G. apply pointHits_spec. exact W.
  - intros grid ps k p E. unfold GameList.checkPlayer. rewrite E. split; intros H; rewrite H.
    + exists (Player.set_alive false p). split; [apply pget_pset_eq | reflexivity].
    + reflexivity.
Qed.

(** What the bit-field copy (game.js) skips: its own samples by the same
    rule, the samples of anyone else only from position 598 on, whoever
    owns them and whether the owner is alive or not. *)
Lemma pointSkipped_spec (p : Player.t) (myIndex : Z) (pt : Game.GridPoint) :
  Game.pointSkipped p myIndex pt = true
  <-> (Game.ptPlayer pt = myIndex
       /\ Player.trailLen p - COLLISION_SKIP_OWN <= Game.ptTrailPos pt)
      \/ (Game.ptPlayer pt <> myIndex /\ 598 <= Game.ptTrailPos pt).
Proof.
  unfold Game.pointSkipped. cbv zeta.
  destruct (Z.eqb_spec (Game.ptPlayer pt) myIndex) as [E|N]; rewrite Z.geb_le.
  - split; [intros H; left; split; assumption|].
    intros [[_ H]|[C _]]; [exact H | contradiction].
  - split; [intros H; right; split; assumption|].
    intros [[C _]|[_ H]]; [contradiction | exact H].
Qed.

(** C1 on game.js.  The loop of [checkCollisions] skips a sample of
    another competitor exactly from position 598 on, not by the life or
    the trail length of its owner.  In [headOn] both competitors are
    alive, and the only sample within the collision radius of either one
    that is not its own is the newest sample of the other, among the last
    2 of a trail of 5 resp. 2 samples, which the grace rule passes over:
    the list-per-cell copy leaves both alive, game.js marks both not
    alive.  In the tick of [besideTrail] the participant dies at the wall
    in the movement loop; the list-per-cell copy passes over the trail of
    the dead participant, game.js tests it and marks the host not alive. *)
Theorem bitfield_collision_divergence :
  (forall (p : Player.t) (myIndex : Z) (pt : Game.GridPoint),
     Game.pointSkipped p myIndex pt = true
     <-> (Game.ptPlayer pt = myIndex
          /\ Player.trailLen p - COLLISION_SKIP_OWN <= Game.ptTrailPos pt)
         \/ (Game.ptPlayer pt <> myIndex /\ 598 <= Game.ptTrailPos pt))
  /\ aliveFlags headOn = [("1234"%string, true); ("peer-b"%string, true)]
  /\ List.filter
       (fun i => Game.pointHits 108 100
                   (fst (trailSample (rider "peer-b" 1 105 100
                      [(95, 100); (195 # 2, 100); (100, 100); (205 # 2, 100); (105, 100)]%Q) i))
                   (snd (trailSample (rider "peer-b" 1 105 100
                      [(95, 100); (195 # 2, 100); (100, 100); (205 # 2, 100); (105, 100)]%Q) i)))
       (JS.range 5) = [4]
  /\ graceSkipped headOn (rider "1234" 0 108 100 [(221 # 2, 100); (108, 100)]%Q) "peer-b" 4
  /\ aliveFlags (snd (GameList.checkCollisions GameList.initial headOn))
     = [("1234"%string, true); ("peer-b"%string, true)]
  /\ aliveFlags (snd (Game.checkCollisions Game.initial headOn))
     = [("1234"%string, false); ("peer-b"%string, false)]
  /\ aliveFlags (snd (Net.moveAll (M := taylorMath) (5 # 2) besideTrailIndexed besideTrail))
     = [("1234"%string, true); ("peer-b"%string, false)]
  /\ aliveFlags
       (snd (GameList.checkCollisions GameList.initial
               (snd (Net.moveAll (M := taylorMath) (5 # 2) besideTrailIndexed besideTrail))))
     = [("1234"%string, true); ("peer-b"%string, false)]
  /\ aliveFlags
       (snd (Game.checkCollisions
               (fst (Net.moveAll (M := taylorMath) (5 # 2) besideTrailIndexed besideTrail))
               (snd (Net.moveAll (M := taylorMath) (5 # 2) besideTrailIndexed besideTrail))))
     = [("1234"%string, false); ("peer-b"%string, false)].
Proof.
  split; [exact pointSkipped_spec|].
  split; [vm_compute; reflexivity|].
  split; [vm_compute; reflexivity|].
  split.
  - right. right. split; [vm_compute; discriminate|].
    eexists. split; [vm_compute; reflexivity|]. vm_compute. discriminate.
  - split; [vm_compute; reflexivity|].
    split; [vm_compute; reflexivity|].
    split; [vm_compute; reflexivity|].
    split; vm_compute; reflexivity.
Qed.

(** * The spatial grid *)

Lemma grid_dims : GRID_COLS = 88 /\ GRID_ROWS = 57 /\ GRID_TOTAL = 5016.
Proof. vm_compute. auto. Qed.

Lemma Qtrunc_small_neg (q : Q) : (-1 < q)%Q -> (q <= 0)%Q -> JS.Qtrunc q = 0.
Proof.
  destruct q as [n d]. unfold Qlt, Qle, JS.Qtrunc. cbn. intros H1 H2.
  assert (E : n = - (- n)) by lia. rewrite E, Z.quot_opp_l by lia.
  rewrite Z.quot_small; lia.
Qed.

Lemma toInt32_small_neg (q : Q) : (-1 < q)%Q -> (q <= 0)%Q -> JS.toInt32 q = 0.
Proof.
  intros H1 H2. unfold JS.toInt32. rewrite (Qtrunc_small_neg q H1 H2). reflexivity.
Qed.

Lemma div16 (v : Q) : (v / inject_Z GRID_CELL_SIZE == v * (1 # 16))%Q.
Proof. reflexivity. Qed.

(** The column (or row) of a coordinate that is not negative. *)
Lemma cell_coord_nonneg (v : Q) :
  (0 <= v)%Q -> (v < 34359738368)%Q ->
  let c := JS.toInt32 (v / inject_Z GRID_CELL_SIZE) in
  (inject_Z c * 16 <= v /\ v < (inject_Z c + 1) * 16)%Q /\ 0 <= c.
Proof.
  intros H0 H1 c. subst c.
  pose proof (div16 v) as E.
  set (q := (v / inject_Z GRID_CELL_SIZE)%Q) in *.
  assert (L := Qfloor_le q). assert (U := Qlt_floor q).
  rewrite inject_Z_plus in U. change (inject_Z 1) with 1%Q in U.
  assert (F : JS.toInt32 q = Qfloor q).
  { apply toInt32_floor; [lra|].
    rewrite Zlt_Qlt. change (inject_Z (2 ^ 31)) with 2147483648%Q. lra. }
  rewrite F. split; [split; lra|].
  destruct (Z_lt_le_dec (Qfloor q) 0) as [N|N]; [|exact N].
  exfalso. assert (N' : (Qfloor q + 1 <= 0)%Z) by lia.
  rewrite Zle_Qle, inject_Z_plus in N'. change (inject_Z 1) with 1%Q in N'.
  change (inject_Z 0) with 0%Q in N'. lra.
Qed.

(** A coordinate less than one cell to the left of (or above) the arena
    falls into column (row) 0: [| 0] truncates toward zero. *)
Lemma cell_coord_neg (v : Q) :
  (-16 < v)%Q -> (v <= 0)%Q -> JS.toInt32 (v / inject_Z GRID_CELL_SIZE) = 0.
Proof.
  intros H1 H2. pose proof (div16 v) as E.
  set (q := (v / inject_Z GRID_CELL_SIZE)%Q) in *.
  apply toInt32_small_neg; lra.
Qed.

(** Two coordinates at most the collision radius apart, the first one
    inside the arena, are in the same or in adjacent columns (rows). *)
Lemma cell_coord_near (p t : Q) :
  (0 <= p <= 1400)%Q -> (- COLLISION_RADIUS <= p - t <= COLLISION_RADIUS)%Q ->
  -1 <= JS.toInt32 (t / inject_Z GRID_CELL_SIZE)
        - JS.toInt32 (p / inject_Z GRID_CELL_SIZE) <= 1.
Proof.
  unfold COLLISION_RADIUS. intros [P0 P1] [D0 D1].
  destruct (cell_coord_nonneg p) as [[A1 A2] A3]; [lra|lra|].
  set (cp := JS.toInt32 (p / inject_Z GRID_CELL_SIZE)) in *.
  destruct (Qlt_le_dec t 0) as [N|N].
  - rewrite (cell_coord_neg t) by lra.
    assert (cp < 1); [|lia].
    rewrite Zlt_Qlt. change (inject_Z 1) with 1%Q. lra.
  - destruct (cell_coord_nonneg t) as [[B1 B2] B3]; [lra|lra|].
    set (ct := JS.toInt32 (t / inject_Z GRID_CELL_SIZE)) in *.
    assert (X1 : ct < cp + 2).
    { rewrite Zlt_Qlt, inject_Z_plus. change (inject_Z 2) with 2%Q. lra. }
    assert (X2 : cp < ct + 2).
    { rewrite Zlt_Qlt, inject_Z_plus. change (inject_Z 2) with 2%Q. lra. }
    lia.
Qed.

Lemma outOfBounds_false (x y : Q) :
  Game.outOfBounds x y = false <-> insideArena x y.
Proof.
  unfold Game.outOfBounds, insideArena, JS.Qgtb, JS.Qltb.
  rewrite !orb_false_iff, !negb_false_iff, !Qle_bool_iff.
  change (inject_Z CANVAS_W) with 1400%Q. change (inject_Z CANVAS_H) with 900%Q.
  tauto.
Qed.

Lemma getCellIndex_cases (x y : Q) :
  getCellIndex x y = -1 \/ 0 <= getCellIndex x y < GRID_TOTAL.
Proof.
  destruct grid_dims as [C [R T]].
  unfold getCellIndex. cbv zeta.
  set (col := JS.toInt32 (x / inject_Z GRID_CELL_SIZE)).
  set (row := JS.toInt32 (y / inject_Z GRID_CELL_SIZE)).
  destruct ((col <? 0) || (col >=? GRID_COLS) || (row <? 0) || (row >=? GRID_ROWS))
    eqn:E; [left; reflexivity|right].
  rewrite !orb_false_iff in E. destruct E as [[[E1 E2] E3] E4].
  rewrite C, R in *. rewrite T. lia.
Qed.

Lemma getCellIndex_inside (x y : Q) :
  insideArena x y ->
  0 <= getCellIndex x y < GRID_TOTAL
  /\ getCellIndex x y
     = Qfloor (y / inject_Z GRID_CELL_SIZE) * GRID_COLS
       + Qfloor (x / inject_Z GRID_CELL_SIZE).
Proof.
  destruct grid_dims as [C [R T]].
  intros [[X0 X1] [Y0 Y1]].
  change (inject_Z CANVAS_W) with 1400%Q in X1.
  change (inject_Z CANVAS_H) with 900%Q in Y1.
  destruct (cell_coord_nonneg x) as [[A1 A2] A3]; [lra|lra|].
  destruct (cell_coord_nonneg y) as [[B1 B2] B3]; [lra|lra|].
  assert (FX : JS.toInt32 (x / inject_Z GRID_CELL_SIZE)
               = Qfloor (x / inject_Z GRID_CELL_SIZE)).
  { pose proof (div16 x) as E.
    set (q := (x / inject_Z GRID_CELL_SIZE)%Q) in *.
    assert (L := Qfloor_le q).
    apply toInt32_floor; [lra|].
    rewrite Zlt_Qlt. change (inject_Z (2 ^ 31)) with 2147483648%Q. lra. }
  assert (FY : JS.toInt32 (y / inject_Z GRID_CELL_SIZE)
               = Qfloor (y / inject_Z GRID_CELL_SIZE)).
  { pose proof (div16 y) as E.
    set (q := (y / inject_Z GRID_CELL_SIZE)%Q) in *.
    assert (L := Qfloor_le q).
    apply toInt32_floor; [lra|].
    rewrite Zlt_Qlt. change (inject_Z (2 ^ 31)) with 2147483648%Q. lra. }
  assert (E : getCellIndex x y
              = JS.toInt32 (y / inject_Z GRID_CELL_SIZE) * GRID_COLS
                + JS.toInt32 (x / inject_Z GRID_CELL_SIZE)).
  { unfold getCellIndex. cbv zeta.
    set (col := JS.toInt32 (x / inject_Z GRID_CELL_SIZE)) in *.
    set (row := JS.toInt32 (y / inject_Z GRID_CELL_SIZE)) in *.
    assert (col < 88).
    { rewrite Zlt_Qlt. change (inject_Z 88) with 88%Q. lra. }
    assert (row < 57).
    { rewrite Zlt_Qlt. change (inject_Z 57) with 57%Q. lra. }
    rewrite C, R.
    destruct (col <? 0) eqn:E1; [lia|]. destruct (col >=? 88) eqn:E2; [lia|].
    destruct (row <? 0) eqn:E3; [lia|]. destruct (row >=? 57) eqn:E4; [lia|].
    reflexivity. }
  split.
  - destruct (getCellIndex_cases x y) as [N|N]; [|exact N].
    rewrite E in N. rewrite C in N. lia.
  - rewrite E, FX, FY. reflexivity.
Qed.

(** The nine cells [checkCollisions] visits around a competitor inside
    the arena contain the cell of every point within the collision
    radius that has a cell at all. *)
Lemma neighbourhood_near (p : Player.t) (tx ty : Q) :
  insideArena (Player.x p) (Player.y p) ->
  withinRadius (Player.x p) (Player.y p) tx ty ->
  0 <= getCellIndex tx ty ->
  In (getCellIndex tx ty) (GameList.neighbourhood p).
Proof.
  intros [[X0 X1] [Y0 Y1]] [DX [DY _]] H.
  change (inject_Z CANVAS_W) with 1400%Q in X1.
  change (inject_Z CANVAS_H) with 900%Q in Y1.
  assert (NX := cell_coord_near (Player.x p) tx (conj X0 X1) DX).
  assert (NY := cell_coord_near (Player.y p) ty ltac:(split; lra) DY).
  unfold getCellIndex in *. cbv zeta in *.
  set (tc := JS.toInt32 (tx / inject_Z GRID_CELL_SIZE)) in *.
  set (tr := JS.toInt32 (ty / inject_Z GRID_CELL_SIZE)) in *.
  unfold GameList.neighbourhood. cbv zeta.
  set (col := JS.toInt32 (Player.x p / inject_Z GRID_CELL_SIZE)) in *.
  set (row := JS.toInt32 (Player.y p / inject_Z GRID_CELL_SIZE)) in *.
  destruct ((tc <? 0) || (tc >=? GRID_COLS) || (tr <? 0) || (tr >=? GRID_ROWS))
    eqn:E; [lia|].
  apply in_flat_map. exists (tr - row). split; [cbn; lia|].
  apply in_flat_map. exists (tc - col). split; [cbn; lia|].
  replace (row + (tr - row)) with tr by lia.
  replace (col + (tc - col)) with tc by lia.
  rewrite !orb_false_iff in E. destruct E as [[[E1 E2] E3] E4].
  rewrite E1, E2, E3, E4. left. reflexivity.
Qed.

(** X1.  [getCellIndex] answers -1 or an index below [GRID_TOTAL], and
    never -1 for a position the wall test of [movePlayer] accepts: inside
    the arena the cell is [floor(y / 16) * GRID_COLS + floor(x / 16)], and
    the nine cells [checkCollisions] visits around a competitor inside the
    arena contain the cell of every point within the collision radius
    that has a cell (a cell is 16 units wide, four times the radius). *)
Theorem grid_geometry :
  (forall x y : Q, getCellIndex x y = -1 \/ 0 <= getCellIndex x y < GRID_TOTAL)
  /\ (forall x y : Q,
        Game.outOfBounds x y = false ->
        0 <= getCellIndex x y < GRID_TOTAL
        /\ getCellIndex x y
           = Qfloor (y / inject_Z GRID_CELL_SIZE) * GRID_COLS
             + Qfloor (x / inject_Z GRID_CELL_SIZE))
  /\ (forall (p : Player.t) (tx ty : Q),
        Game.outOfBounds (Player.x p) (Player.y p) = false ->
        withinRadius (Player.x p) (Player.y p) tx ty ->
        0 <= getCellIndex tx ty ->
        In (getCellIndex tx ty) (GameList.neighbourhood p)).
Proof.
  split; [exact getCellIndex_cases|]. split.
  - intros x y H. apply getCellIndex_inside. apply outOfBounds_false. exact H.
  - intros p tx ty H. apply neighbourhood_near. apply outOfBounds_false. exact H.
Qed.

Lemma grid_geometry_witness :
  Game.outOfBounds (Player.x rookie) (Player.y rookie) = false
  /\ withinRadius (Player.x rookie) (Player.y rookie) 703 452
  /\ getCellIndex 700 450 = 28 * GRID_COLS + 43
  /\ In (getCellIndex 703 452) (GameList.neighbourhood rookie).
Proof.
  assert (A : Game.outOfBounds (Player.x rookie) (Player.y rookie) = false)
    by (vm_compute; reflexivity).
  assert (W : withinRadius (Player.x rookie) (Player.y rookie) 703 452).
  { repeat split; vm_compute; try discriminate; reflexivity. }
  split; [exact A|]. split; [exact W|]. split.
  - exact (proj2 (proj1 (proj2 grid_geometry) 700%Q 450%Q eq_refl)).
  - apply (proj2 (proj2 grid_geometry) rookie 703%Q 452%Q A W).
    vm_compute. discriminate.
Defined.

(** ** The list-per-cell index after a rebuild *)

Lemma In_range (n i : Z) : In i (JS.range n) <-> 0 <= i < n.
Proof.
  unfold JS.range. rewrite in_map_iff. split.
  - intros (k & <- & H). apply in_seq in H. lia.
  - intros [H0 H1]. exists (Z.to_nat i). split; [lia|]. apply in_seq. lia.
Qed.

Lemma aget_aset_nil {A} (gr : list (list A)) (i : Z) :
  JS.aget [] (JS.aset gr i []) i = [].
Proof.
  unfold JS.aget, JS.aset. destruct (i <? 0) eqn:L; [reflexivity|].
  destruct (gr !! Z.to_nat i) as [c|] eqn:E.
  - rewrite list_lookup_insert_eq; [reflexivity|].
    apply lookup_lt_Some in E. exact E.
  - rewrite (proj2 (list_lookup_insert_None gr _ [] _) E). reflexivity.
Qed.

Lemma clearGrid_fold (l : list Z) (gr : list (list GameList.CellEntry)) (c : Z) :
  (In c l \/ JS.aget [] gr c = []) ->
  JS.aget [] (fold_left (fun gr i => JS.aset gr i []) l gr) c = [].
Proof.
  revert gr. induction l as [|a l IH]; intros gr H; cbn [fold_left].
  - destruct H as [[]|H]. exact H.
  - apply IH. destruct (In_dec Z.eq_dec c l) as [I|N]; [left; exact I|right].
    destruct (Z.eq_dec a c) as [->|Ne]; [apply aget_aset_nil|].
    rewrite aget_aset_ne by exact Ne.
    destruct H as [[E|I]|H]; [contradiction|contradiction|exact H].
Qed.

Lemma length_fold_aset {A} (v : A) (l : list Z) (gr : list A) :
  length (fold_left (fun gr i => JS.aset gr i v) l gr) = length gr.
Proof.
  revert gr. induction l as [|a l IH]; intros gr; cbn [fold_left]; [reflexivity|].
  rewrite IH. apply length_aset.
Qed.

Lemma clearGrid_spec (gr : list (list GameList.CellEntry)) :
  length (GameList.clearGrid gr) = length gr
  /\ forall c, 0 <= c < GRID_TOTAL -> JS.aget [] (GameList.clearGrid gr) c = [].
Proof.
  split; [apply length_fold_aset|].
  intros c H. apply clearGrid_fold. left. apply In_range. exact H.
Qed.

Lemma In_cellPush (gr : list (list GameList.CellEntry)) (c' : Z)
    (x : GameList.CellEntry) :
  length gr = Z.to_nat GRID_TOTAL -> 0 <= c' < GRID_TOTAL ->
  length (GameList.cellPush gr c' x) = Z.to_nat GRID_TOTAL
  /\ forall c e,
       In e (JS.aget [] (GameList.cellPush gr c' x) c)
       <-> In e (JS.aget [] gr c) \/ (c = c' /\ e = x).
Proof.
  intros L H. unfold GameList.cellPush. split; [rewrite length_aset; exact L|].
  intros c e. destruct (Z.eq_dec c' c) as [<-|Ne].
  - rewrite aget_aset_eq by lia. rewrite in_app_iff. cbn [In]. intuition congruence.
  - rewrite aget_aset_ne by exact Ne. intuition congruence.
Qed.

Lemma rebuildPlayer_index (id : string) (p : Player.t) (l : list Z)
    (gr : list (list GameList.CellEntry)) :
  length gr = Z.to_nat GRID_TOTAL ->
  let gr' :=
    fold_left
      (fun gr i =>
         let idx := Z.rem (Player.trailStart p + i) TRAIL_MAX in
         let cellIdx :=
           getCellIndex (JS.aget 0%Q (Player.trailX p) idx)
                        (JS.aget 0%Q (Player.trailY p) idx) in
         if cellIdx >=? 0
         then GameList.cellPush gr cellIdx
                {| GameList.ce_playerId := id; GameList.ce_bufIdx := idx;
                   GameList.ce_trailPos := i |}
         else gr) l gr in
  length gr' = Z.to_nat GRID_TOTAL
  /\ forall c e,
       In e (JS.aget [] gr' c)
       <-> In e (JS.aget [] gr c)
           \/ exists i, In i l /\ sampleCell p i = c /\ 0 <= c /\ e = entryOf id p i.
Proof.
  revert gr. induction l as [|a l IH]; intros gr L; cbn [fold_left].
  - split; [exact L|]. intros c e. split; [intros H; left; exact H|].
    intros [H|(i & [] & _)]. exact H.
  - cbv zeta.
    change (getCellIndex
              (JS.aget 0%Q (Player.trailX p) (Z.rem (Player.trailStart p + a) TRAIL_MAX))
              (JS.aget 0%Q (Player.trailY p) (Z.rem (Player.trailStart p + a) TRAIL_MAX)))
      with (sampleCell p a).
    change {| GameList.ce_playerId := id;
              GameList.ce_bufIdx := Z.rem (Player.trailStart p + a) TRAIL_MAX;
              GameList.ce_trailPos := a |} with (entryOf id p a).
    destruct (sampleCell p a >=? 0) eqn:C.
    + apply Z.geb_le in C.
      assert (R : 0 <= sampleCell p a < GRID_TOTAL).
      { destruct (getCellIndex_cases (fst (trailSample p a)) (snd (trailSample p a)))
          as [N|N]; [unfold sampleCell in C; lia | exact N]. }
      destruct (In_cellPush gr (sampleCell p a) (entryOf id p a) L R) as [L1 P1].
      destruct (IH _ L1) as [L2 P2]. split; [exact L2|].
      intros c e. rewrite P2, P1. cbn [In]. split.
      * intros [[H|[-> ->]]|(i & I & Hc & H0 & He)].
        -- left; exact H.
        -- right. exists a. split; [left; reflexivity|]. repeat split; try reflexivity; lia.
        -- right. exists i. split; [right; exact I|]. repeat split; assumption.
      * intros [H|(i & [<-|I] & Hc & H0 & He)].
        -- left; left; exact H.
        -- left; right. split; [symmetry; exact Hc | exact He].
        -- right. exists i. repeat split; assumption.
    + rewrite Z.geb_leb in C. apply Z.leb_gt in C.
      destruct (IH _ L) as [L2 P2]. split; [exact L2|].
      intros c e. rewrite P2. cbn [In]. split.
      * intros [H|(i & I & Hc & H0 & He)]; [left; exact H|].
        right. exists i. split; [right; exact I|]. repeat split; assumption.
      * intros [H|(i & [<-|I] & Hc & H0 & He)]; [left; exact H | lia |].
        right. exists i. repeat split; assumption.
Qed.

Lemma rebuildPlayers_index (ps : Players) (gr : list (list GameList.CellEntry)) :
  length gr = Z.to_nat GRID_TOTAL ->
  let gr' :=
    fold_left
      (fun gr '(id, p) =>
         if Player.alive p then GameList.rebuildPlayer id p gr else gr) ps gr in
  length gr' = Z.to_nat GRID_TOTAL
  /\ forall c e,
       In e (JS.aget [] gr' c)
       <-> In e (JS.aget [] gr c) \/ (0 <= c /\ indexed ps c e).
Proof.
  revert gr. induction ps as [|[k p] r IH]; intros gr L; cbn [fold_left].
  - split; [exact L|]. intros c e. split; [intros H; left; exact H|].
    intros [H|[_ (k & p & i & [] & _)]]. exact H.
  - destruct (Player.alive p) eqn:A.
    + destruct (rebuildPlayer_index k p (JS.range (Player.trailLen p)) gr L) as [L1 P1].
      fold (GameList.rebuildPlayer k p gr) in L1, P1.
      destruct (IH _ L1) as [L2 P2]. split; [exact L2|].
      intros c e. rewrite P2, P1. split.
      * intros [[H|(i & I & Hc & H0 & He)]|[H0 (k' & p' & i & I & Al & Hi & Hc & He)]].
        -- left; exact H.
        -- right. split; [exact H0|]. exists k, p, i. apply In_range in I.
           split; [left; reflexivity|]. repeat split; try assumption; lia.
        -- right. split; [exact H0|]. exists k', p', i.
           split; [right; exact I|]. repeat split; try assumption; lia.
      * intros [H|[H0 (k' & p' & i & [E|I] & Al & Hi & Hc & He)]].
        -- left; left; exact H.
        -- injection E as <- <-. left; right. exists i. rewrite In_range.
           repeat split; try assumption; lia.
        -- right. split; [exact H0|]. exists k', p', i. repeat split; try assumption; lia.
    + destruct (IH _ L) as [L2 P2]. split; [exact L2|].
      intros c e. rewrite P2. split.
      * intros [H|[H0 (k' & p' & i & I & Al & Hi & Hc & He)]]; [left; exact H|].
        right. split; [exact H0|]. exists k', p', i.
        split; [right; exact I|]. repeat split; try assumption; lia.
      * intros [H|[H0 (k' & p' & i & [E|I] & Al & Hi & Hc & He)]]; [left; exact H | |].
        -- injection E as <- <-. congruence.
        -- right. split; [exact H0|]. exists k', p', i. repeat split; try assumption; lia.
Qed.

Lemma length_createGrid : length GameList.createGrid = Z.to_nat GRID_TOTAL.
Proof. unfold GameList.createGrid. apply length_replicate. Qed.

Lemma rebuiltGrid_index (g : GameList.Globals) (ps : Players) :
  gridShape g ->
  length (rebuiltGrid g ps) = Z.to_nat GRID_TOTAL
  /\ forall c e,
       0 <= c < GRID_TOTAL ->
       (In e (JS.aget [] (rebuiltGrid g ps) c) <-> indexed ps c e).
Proof.
  intros Sh. unfold rebuiltGrid, GameList.rebuildSpatialGrid. cbn [GameList.spatialGrid default].
  set (grid := match GameList.spatialGrid g with
               | Some gr => gr | None => GameList.createGrid end).
  assert (L : length grid = Z.to_nat GRID_TOTAL).
  { subst grid. destruct (GameList.spatialGrid g) as [gr|] eqn:E;
      [apply Sh; exact E | apply length_createGrid]. }
  destruct (clearGrid_spec grid) as [L0 C0]. rewrite L in L0.
  destruct (rebuildPlayers_index ps _ L0) as [L1 P1]. split; [exact L1|].
  intros c e Hc. rewrite P1, (C0 c Hc). cbn [In]. split.
  - intros [[]|[_ H]]. exact H.
  - intros H. right. split; [lia | exact H].
Qed.

Lemma pget_In (ps : Players) (k : string) (p : Player.t) :
  pget k ps = Some p -> In (k, p) ps.
Proof.
  induction ps as [|[k' p'] r IH]; cbn [pget]; [discriminate|].
  destruct (String.eqb_spec k k') as [->|Ne].
  - intros E. injection E as <-. left; reflexivity.
  - intros E. right. exact (IH E).
Qed.

Lemma neighbourhood_range (p : Player.t) (c : Z) :
  In c (GameList.neighbourhood p) -> 0 <= c < GRID_TOTAL.
Proof.
  destruct grid_dims as [C [R T]].
  unfold GameList.neighbourhood. cbv zeta.
  set (col := JS.toInt32 (Player.x p / inject_Z GRID_CELL_SIZE)).
  set (row := JS.toInt32 (Player.y p / inject_Z GRID_CELL_SIZE)).
  intros H. apply in_flat_map in H. destruct H as (dr & _ & H).
  apply in_flat_map in H. destruct H as (dc & _ & H).
  destruct ((row + dr <? 0) || (row + dr >=? GRID_ROWS)
            || (col + dc <? 0) || (col + dc >=? GRID_COLS)) eqn:E; [destruct H|].
  destruct H as [<-|[]].
  rewrite !orb_false_iff in E. destruct E as [[[E1 E2] E3] E4].
  rewrite C, R in *. rewrite T. lia.
Qed.

(** X2.  [rebuildSpatialGrid] of the list-per-cell index is exact: after
    it the grid is clean, has one list per cell, and the list of a cell
    holds a reference to a sample if and only if the sample is one of the
    stored samples of a living competitor and lies in that cell; the
    reference names the key of the owner, the slot and the logical
    position of the sample. *)
Theorem rebuildSpatialGrid_exact (g : GameList.Globals) (ps : Players) :
  gridShape g ->
  gridShape (GameList.rebuildSpatialGrid g ps)
  /\ GameList.gridDirty (GameList.rebuildSpatialGrid g ps) = false
  /\ forall c e,
       0 <= c < GRID_TOTAL ->
       (In e (JS.aget [] (rebuiltGrid g ps) c)
        <-> exists k p i,
              In (k, p) ps /\ Player.alive p = true /\ 0 <= i < Player.trailLen p
              /\ getCellIndex (fst (trailSample p i)) (snd (trailSample p i)) = c
              /\ e = {| GameList.ce_playerId := k;
                        GameList.ce_bufIdx := trailGetIndex p i;
                        GameList.ce_trailPos := i |}).
Proof.
  intros Sh. destruct (rebuiltGrid_index g ps Sh) as [L P]. split; [|split].
  - intros gr E. unfold rebuiltGrid in L. rewrite E in L. exact L.
  - reflexivity.
  - exact P.
Qed.

Lemma rebuildSpatialGrid_exact_witness :
  gridShape GameList.initial
  /\ GameList.gridDirty (GameList.rebuildSpatialGrid GameList.initial headOn) = false.
Proof.
  assert (Sh : gridShape GameList.initial) by (intros gr E; discriminate E).
  split; [exact Sh|].
  exact (proj1 (proj2 (rebuildSpatialGrid_exact GameList.initial headOn Sh))).
Defined.

(** X3.  With the list-per-cell index the grid is only an optimisation:
    on a freshly rebuilt grid, a competitor inside the arena is hit if and
    only if some stored sample of a living competitor that has a cell and
    is not passed over by the grace rule lies within the collision radius,
    wherever on the arena that sample is. *)
Theorem listGrid_hit_iff_lethal_sample (g : GameList.Globals) (ps : Players)
    (p : Player.t) :
  gridShape g ->
  List.NoDup (keys ps) ->
  Game.outOfBounds (Player.x p) (Player.y p) = false ->
  (GameList.playerHit (rebuiltGrid g ps) ps p = true <-> lethalSample ps p).
Proof.
  intros Sh ND Ar. apply outOfBounds_false in Ar.
  destruct (rebuiltGrid_index g ps Sh) as [_ Ix].
  destruct listGrid_collision_rule as [_ [Hit _]].
  rewrite Hit. unfold lethalSample. split.
  - intros (c & e & other & Hc & He & Ng & G & W).
    apply (Ix c e (neighbourhood_range p c Hc)) in He.
    destruct He as (k & q & i & I & Al & Hi & Hs & ->).
    cbn [entryOf GameList.ce_playerId GameList.ce_bufIdx GameList.ce_trailPos] in *.
    assert (q = other) by exact (pget_In_NoDup ps k other q ND G I). subst q.
    exists k, other, i. repeat split; try assumption; try lia.
    + rewrite <- Hs in Hc. apply neighbourhood_range in Hc. lia.
    + apply W.
    + apply W.
    + apply W.
    + apply W.
    + apply W.
  - intros (owner & o & i & G & Al & Hi & H0 & Ng & W).
    assert (R : 0 <= sampleCell o i < GRID_TOTAL).
    { destruct (getCellIndex_cases (fst (trailSample o i)) (snd (trailSample o i)))
        as [N|N]; [unfold sampleCell in H0; lia | exact N]. }
    exists (sampleCell o i), (entryOf owner o i), o.
    split; [exact (neighbourhood_near p _ _ Ar W H0)|].
    split.
    { apply (Ix _ _ R). exists owner, o, i.
      repeat split; try assumption; try lia. apply pget_In. exact G. }
    split; [exact Ng|]. split; [exact G | exact W].
Qed.

Lemma listGrid_hit_iff_lethal_sample_witness :
  gridShape GameList.initial
  /\ List.NoDup (keys headOn)
  /\ Game.outOfBounds 108 100 = false
  /\ (GameList.playerHit (rebuiltGrid GameList.initial headOn) headOn
        (rider "1234" 0 108 100 [(221 # 2, 100); (108, 100)]%Q) = true
      <-> lethalSample headOn (rider "1234" 0 108 100 [(221 # 2, 100); (108, 100)]%Q)).
Proof.
  assert (Sh : gridShape GameList.initial) by (intros gr E; discriminate E).
  assert (ND : List.NoDup (keys headOn)).
  { change (keys headOn) with ["1234"; "peer-b"]%string.
    apply List.NoDup_cons; [intros [H|[]]; discriminate H|].
    apply List.NoDup_cons; [intros []|apply List.NoDup_nil]. }
  assert (Ar : Game.outOfBounds 108 100 = false) by (vm_compute; reflexivity).
  split; [exact Sh|]. split; [exact ND|]. split; [exact Ar|].
  exact (listGrid_hit_iff_lethal_sample GameList.initial headOn
           (rider "1234" 0 108 100 [(221 # 2, 100); (108, 100)]%Q) Sh ND Ar).
Defined.

(** * What collision detection changes *)

Lemma keys_pset_some (k : string) (p q : Player.t) (ps : Players) :
  pget k ps = Some q -> keys (pset k p ps) = keys ps.
Proof.
  induction ps as [|[k' p'] r IH]; cbn [pget pset]; [discriminate|].
  destruct (String.eqb k k'); intros E; [reflexivity|].
  cbn [keys map fst]. f_equal. exact (IH E).
Qed.

Lemma set_alive_false_twice (p : Player.t) :
  Player.set_alive false (Player.set_alive false p) = Player.set_alive false p.
Proof. reflexivity. Qed.

Lemma onlyDeaths_refl (ps : Players) : onlyDeaths ps ps.
Proof.
  split; [reflexivity|]. intros k p E. exists p. split; [exact E | left; reflexivity].
Qed.

Lemma onlyDeaths_kill (ps0 ps : Players) (k : string) (q : Player.t) :
  onlyDeaths ps0 ps -> pget k ps = Some q ->
  onlyDeaths ps0 (pset k (Player.set_alive false q) ps).
Proof.
  intros [K H] E. split.
  - rewrite (keys_pset_some k _ q ps E). exact K.
  - intros k' p E'. destruct (H k' p E') as (p' & G & D).
    destruct (String.eqb_spec k k') as [->|Ne].
    + exists (Player.set_alive false q). split; [apply pget_pset_eq|].
      right. rewrite G in E. injection E as <-.
      destruct D as [->| ->]; reflexivity.
    + exists p'. split; [|exact D]. rewrite pget_pset_ne by exact Ne. exact G.
Qed.

Lemma onlyDeaths_fold {A} (f : Players -> A -> Players) (l : list A)
    (ps0 ps : Players) :
  (forall ps a,
     f ps a = ps
     \/ exists k q, pget k ps = Some q /\ f ps a = pset k (Player.set_alive false q) ps) ->
  onlyDeaths ps0 ps -> onlyDeaths ps0 (fold_left f l ps).
Proof.
  intros F. revert ps. induction l as [|a l IH]; intros ps H; cbn [fold_left]; [exact H|].
  apply IH. destruct (F ps a) as [->|(k & q & E & ->)]; [exact H|].
  apply onlyDeaths_kill; assumption.
Qed.

Lemma checkCollisions_frame (g : Game.Globals) (ps : Players) :
  onlyDeaths ps (snd (Game.checkCollisions g ps)).
Proof.
  unfold Game.checkCollisions. cbn [snd].
  apply onlyDeaths_fold; [|apply onlyDeaths_refl].
  intros ps1 [k idx]. destruct (pget k ps1) as [q|] eqn:E; [|left; reflexivity].
  destruct (Game.playerHit _ q idx); [|left; reflexivity].
  right. exists k, q. split; [exact E | reflexivity].
Qed.

(** X4.  Collision detection only kills: in both copies of game.js
    [checkCollisions] leaves the keys of the dictionary and their order
    as they are, and every competitor either untouched or changed in its
    [alive] flag alone, which goes from true to false; position, heading,
    trail, lives and score are never written, and a competitor that is
    not alive is not changed at all. *)
Theorem checkCollisions_only_kills :
  (forall (g : Game.Globals) (ps : Players),
     onlyDeaths ps (snd (Game.checkCollisions g ps)))
  /\ (forall (g : GameList.Globals) (ps : Players),
        onlyDeaths ps (snd (GameList.checkCollisions g ps)))
  /\ (forall (ps ps' : Players) (k : string) (p : Player.t),
        onlyDeaths ps ps' -> pget k ps = Some p -> Player.alive p = false ->
        pget k ps' = Some p).
Proof.
  split; [|split].
  - exact checkCollisions_frame.
  - intros g ps. unfold GameList.checkCollisions. cbn [snd].
    apply onlyDeaths_fold; [|apply onlyDeaths_refl].
    intros ps1 k. unfold GameList.checkPlayer.
    destruct (pget k ps1) as [q|] eqn:E; [|left; reflexivity].
    destruct (GameList.playerHit _ ps1 q); [|left; reflexivity].
    right. exists k, q. split; [exact E | reflexivity].
  - intros ps ps' k p [_ H] E A. destruct (H k p E) as (p' & G & [->| ->]); [exact G|].
    rewrite G. f_equal. destruct p. cbn in A. subst. reflexivity.
Qed.

Lemma checkCollisions_only_kills_witness :
  onlyDeaths [("host"%string, Player.set_alive false rookie)]
    (snd (Game.checkCollisions Game.initial
            [("host"%string, Player.set_alive false rookie)]))
  /\ pget "host" [("host"%string, Player.set_alive false rookie)]
     = Some (Player.set_alive false rookie)
  /\ Player.alive (Player.set_alive false rookie) = false
  /\ pget "host"
       (snd (Game.checkCollisions Game.initial
               [("host"%string, Player.set_alive false rookie)]))
     = Some (Player.set_alive false rookie).
Proof.
  assert (D := proj1 checkCollisions_only_kills Game.initial
                 [("host"%string, Player.set_alive false rookie)]).
  split; [exact D|]. split; [reflexivity|]. split; [reflexivity|].
  exact (proj2 (proj2 checkCollisions_only_kills) _ _ "host"%string
           (Player.set_alive false rookie) D eq_refl eq_refl).
Defined.

(** ** The point pool of the bit-field index *)

Lemma poolOk_markPoint (g : Game.Globals) (c : Z) (x y : Q) (pl tp : Z) :
  poolOk g -> poolOk (Game.markPoint g c x y pl tp).
Proof.
  intros [C B]. unfold poolOk, Game.markPoint, Game.gridPointCount in *.
  cbn [Game.gridPoints Game.spatialBitfield]. split.
  - destruct (Z.of_nat (length (Game.gridPoints g)) <? Game.MAX_GRID_ENTRIES) eqn:L;
      [|exact C].
    apply Z.ltb_lt in L. rewrite length_app. cbn [length]. lia.
  - intros bf E. destruct (Game.spatialBitfield g) as [bf0|]; [|discriminate].
    injection E as <-. rewrite length_aset. apply B. reflexivity.
Qed.

Lemma poolOk_rebuildPlayer (idx : Z) (p : Player.t) (g : Game.Globals) :
  poolOk g -> poolOk (Game.rebuildPlayer idx p g).
Proof.
  unfold Game.rebuildPlayer. generalize (JS.range (Player.trailLen p)) as l.
  intros l. revert g. induction l as [|a l IH]; intros g H; cbn [fold_left]; [exact H|].
  apply IH. cbv zeta.
  destruct (getCellIndex _ _ >=? 0); [apply poolOk_markPoint|]; exact H.
Qed.

Lemma poolOk_rebuildLoop (idx : Z) (ps : Players) (g : Game.Globals) :
  poolOk g -> poolOk (Game.rebuildLoop idx ps g).
Proof.
  revert idx g. induction ps as [|[k p] r IH]; intros idx g H; cbn [Game.rebuildLoop];
    [exact H|].
  destruct (Player.alive p); apply IH; [apply poolOk_rebuildPlayer|]; exact H.
Qed.

Lemma poolOk_clearBitfield (g : Game.Globals) :
  poolOk g -> poolOk (Game.clearBitfield g).
Proof.
  intros [C B]. split.
  - unfold Game.gridPointCount, Game.MAX_GRID_ENTRIES, TRAIL_MAX. cbn. lia.
  - intros bf E. cbn [Game.clearBitfield Game.spatialBitfield] in E.
    destruct (Game.spatialBitfield g) as [bf0|]; [|discriminate].
    injection E as <-. rewrite length_replicate. apply B. reflexivity.
Qed.

Lemma poolOk_rebuildSpatialGrid (g : Game.Globals) (ps : Players) :
  poolOk g -> poolOk (Game.rebuildSpatialGrid g ps).
Proof.
  intros H. unfold Game.rebuildSpatialGrid.
  assert (H1 : poolOk (Game.rebuildLoop 0 ps
                         (Game.clearBitfield
                            match Game.spatialBitfield g with
                            | Some _ => g
                            | None =>
                                {| Game.spatialBitfield := Some Game.createBitfield;
                                   Game.gridDirty := Game.gridDirty g;
                                   Game.gridPoints := Game.gridPoints g;
                                   Game.staticSent := Game.staticSent g |}
                            end))).
  { apply poolOk_rebuildLoop, poolOk_clearBitfield.
    destruct (Game.spatialBitfield g) as [bf|] eqn:E; [exact H|].
    destruct H as [C B]. split; [exact C|].
    intros bf E'. cbn in E'. injection E' as <-. apply length_replicate. }
  exact H1.
Qed.

Lemma poolOk_trailPush (g : Game.Globals) (p : Player.t) (x y : Q) :
  poolOk g -> poolOk (fst (Game.trailPush g p x y)).
Proof.
  intros H. unfold Game.trailPush.
  destruct (Player.trailLen p <? TRAIL_MAX); cbn [fst]; [|exact H].
  unfold Game.gridInsertPoint.
  destruct (Game.spatialBitfield g); [|exact H].
  destruct (getCellIndex x y >=? 0); [apply poolOk_markPoint|]; exact H.
Qed.

Lemma poolOk_checkCollisions (g : Game.Globals) (ps : Players) :
  poolOk g -> poolOk (fst (Game.checkCollisions g ps)).
Proof.
  intros H. unfold Game.checkCollisions. cbn [fst].
  destruct (Game.gridDirty g || negb (bool_decide (is_Some (Game.spatialBitfield g))));
    [apply poolOk_rebuildSpatialGrid|]; exact H.
Qed.

Lemma poolOk_startRound (g : Game.Globals) (ps : Players) :
  poolOk g -> poolOk (fst (Game.startRound g ps)).
Proof.
  intros H. unfold Game.startRound. cbn [fst].
  destruct (Game.spatialBitfield (Game.set_gridDirty true g));
    [apply poolOk_clearBitfield|]; exact H.
Qed.

Lemma poolOk_serializeGameState (g : Game.Globals) (ps : Players) (ra : bool)
    (cd : Z) (rst : option Z) (mw : option string) (now : Z) :
  poolOk g -> poolOk (snd (fst (Game.serializeGameState g ps ra cd rst mw now))).
Proof.
  intros H. unfold Game.serializeGameState.
  destruct (Game.serializeLoop (negb (Game.staticSent g)) ps) as [out ps1].
  cbn [fst snd]. destruct (negb (Game.staticSent g)); exact H.
Qed.

(** * Delta synchronisation of the trails *)

Lemma trailSample_sameTrail (p q : Player.t) (i : Z) :
  sameTrail p q -> trailSample p i = trailSample q i.
Proof.
  intros (EX & EY & EL & ES). unfold trailSample, trailGetIndex.
  rewrite EX, EY, ES. reflexivity.
Qed.

Lemma trailStore_sameTrail (p q : Player.t) :
  sameTrail p q -> trailStore p -> trailStore q.
Proof.
  intros (EX & EY & EL & ES). unfold trailStore. rewrite EX, EY, EL, ES. tauto.
Qed.

Lemma holdsLast_sameTrail (p q : Player.t) (xs : list (Q * Q)) :
  sameTrail p q -> holdsLast p xs -> holdsLast q xs.
Proof.
  intros E (HS & HL & HV). pose proof E as (_ & _ & EL & _).
  split; [exact (trailStore_sameTrail p q E HS)|]. rewrite <- EL.
  split; [exact HL|]. intros i Hi.
  rewrite <- (trailSample_sameTrail p q i E). apply HV. exact Hi.
Qed.

Lemma trailContents_sameTrail (p q : Player.t) :
  sameTrail p q -> trailContents p = trailContents q.
Proof.
  intros E. unfold trailContents. destruct E as (EX & EY & EL & ES).
  rewrite EL. apply map_ext. intros i.
  apply trailSample_sameTrail. repeat split; assumption.
Qed.

(** On the trail store, one step of the loop that applies a delta is
    [trailPush]. *)
Lemma appendSample_trailPush (g : Game.Globals) (p : Player.t) (x y : Q) :
  trailStore p -> sameTrail (snd (Game.trailPush g p x y)) (Game.appendSample p x y).
Proof.
  intros (LX & LY & HS & HL). unfold Game.trailPush, Game.appendSample.
  unfold TRAIL_MAX in *.
  destruct (Player.trailLen p <? 600) eqn:C.
  - apply Z.ltb_lt in C.
    destruct (Player.trailLen p + 1 >? 600) eqn:D; [lia|].
    repeat split; reflexivity.
  - apply Z.ltb_ge in C. assert (E : Player.trailLen p = 600) by lia.
    destruct (Player.trailLen p + 1 >? 600) eqn:D; [|lia].
    assert (Es : Z.rem (Player.trailStart p + Player.trailLen p) 600
                 = Player.trailStart p).
    { rewrite E, Z.rem_mod_nonneg by lia. Z.div_mod_to_equations. lia. }
    cbn [snd]. rewrite Es. repeat split; try reflexivity. cbn. lia.
Qed.

Lemma holdsLast_appendSample (p : Player.t) (xs : list (Q * Q)) (x y : Q) :
  holdsLast p xs -> holdsLast (Game.appendSample p x y) (xs ++ [(x, y)]).
Proof.
  intros H.
  apply (holdsLast_sameTrail (snd (Game.trailPush Game.initial p x y))).
  - apply appendSample_trailPush. apply H.
  - apply holdsLast_push. exact H.
Qed.

(** The trail a store holds is what [holdsLast] says of it. *)
Lemma holdsLast_drop (p : Player.t) (xs : list (Q * Q)) :
  holdsLast p xs ->
  trailContents p = drop (length xs - Z.to_nat (Player.trailLen p)) xs.
Proof.
  intros (HS & HL & HV). pose proof HS as (_ & _ & _ & HB).
  apply list_eq. intros i. unfold trailContents.
  rewrite list_lookup_fmap, lookup_drop.
  destruct (Z_lt_ge_dec (Z.of_nat i) (Player.trailLen p)) as [Lt|Ge].
  - rewrite lookup_range by lia. cbn.
    rewrite <- (HV (Z.of_nat i)) by lia. f_equal. lia.
  - rewrite (lookup_ge_None_2 (JS.range _)); [|pose proof (length_range (Player.trailLen p)); lia].
    cbn. symmetry. apply lookup_ge_None_2. lia.
Qed.

Lemma length_trailContents (p : Player.t) :
  0 <= Player.trailLen p ->
  length (trailContents p) = Z.to_nat (Player.trailLen p).
Proof.
  intros H. unfold trailContents. rewrite length_map.
  pose proof (length_range (Player.trailLen p)). lia.
Qed.

(** The trail after a push, as a list. *)
Lemma trailContents_push (g : Game.Globals) (p : Player.t) (x y : Q) :
  trailStore p ->
  trailContents (snd (Game.trailPush g p x y))
  = (if Player.trailLen p <? TRAIL_MAX
     then trailContents p else drop 1 (trailContents p)) ++ [(x, y)].
Proof.
  intros HS. pose proof HS as (_ & _ & _ & HB).
  pose proof (holdsLast_push g p _ x y (holdsLast_contents p HS)) as H.
  rewrite (holdsLast_drop _ _ H). rewrite length_app. cbn [length].
  pose proof (length_trailContents p ltac:(lia)) as Lc.
  destruct (Player.trailLen p <? TRAIL_MAX) eqn:C.
  - apply Z.ltb_lt in C.
    destruct (trailPush_grow g p x y HS C) as (_ & L' & _).
    rewrite L'. replace (_ - _)%nat with 0%nat by lia. reflexivity.
  - apply Z.ltb_ge in C. assert (E : Player.trailLen p = TRAIL_MAX) by lia.
    destruct (trailPush_wrap g p x y HS E) as (_ & L' & _).
    rewrite L'. unfold TRAIL_MAX in *.
    replace (_ - _)%nat with 1%nat by lia.
    rewrite drop_app_le by lia. reflexivity.
Qed.

Lemma mirrors_push (g : Game.Globals) (h m : Player.t) (x y : Q) :
  mirrors h m -> mirrors (snd (Game.trailPush g h x y)) m.
Proof.
  intros (HS & HI & older & HM). pose proof HS as (_ & _ & _ & HB).
  pose proof HI as [[I0 I1] I2].
  pose proof (length_trailContents h ltac:(lia)) as Lc.
  assert (HS' : trailStore (snd (Game.trailPush g h x y))).
  { destruct (Z_lt_ge_dec (Player.trailLen h) TRAIL_MAX) as [Lt|Ge].
    - apply (trailPush_grow g h x y HS Lt).
    - apply (trailPush_wrap g h x y HS). lia. }
  split; [exact HS'|]. split; [apply trailPush_inv; exact HI|].
  unfold sentPart. rewrite (trailContents_push g h x y HS).
  destruct (Player.trailLen h <? TRAIL_MAX) eqn:C.
  - apply Z.ltb_lt in C.
    destruct (trailPush_grow g h x y HS C) as (_ & _ & _ & S' & _).
    rewrite S'. exists older. rewrite take_app_le by lia. exact HM.
  - apply Z.ltb_ge in C. assert (E : Player.trailLen h = TRAIL_MAX) by lia.
    destruct (trailPush_wrap g h x y HS E) as (_ & _ & _ & S' & _).
    rewrite S'. unfold TRAIL_MAX in *.
    destruct (Player.trailSentCount h >? 0) eqn:D.
    + exists (older ++ map wireSample (take 1 (sentPart h))).
      rewrite take_app_le by (rewrite length_drop; lia).
      rewrite take_drop_commute.
      replace (1 + Z.to_nat (Player.trailSentCount h - 1))%nat
        with (Z.to_nat (Player.trailSentCount h)) by lia.
      fold (sentPart h). rewrite <- app_assoc, <- map_app, take_drop. exact HM.
    + exists older. assert (Player.trailSentCount h = 0) by lia.
      unfold sentPart in HM. rewrite H in *. cbn [Z.to_nat take] in *. exact HM.
Qed.

Lemma range_drop (s n : Z) :
  0 <= s <= n ->
  drop (Z.to_nat s) (JS.range n) = map (Z.add s) (JS.range (n - s)).
Proof.
  intros H. apply list_eq. intros i.
  rewrite lookup_drop, list_lookup_fmap.
  destruct (Z_lt_ge_dec (Z.of_nat i) (n - s)) as [Lt|Ge].
  - rewrite !lookup_range by lia. cbn. f_equal. lia.
  - rewrite (lookup_ge_None_2 (JS.range n));
      [|pose proof (length_range n); lia].
    rewrite (lookup_ge_None_2 (JS.range (n - s)));
      [|pose proof (length_range (n - s)); lia].
    reflexivity.
Qed.

Lemma flat_map_map {A B C} (f : B -> list C) (g : A -> B) (l : list A) :
  flat_map f (map g l) = flat_map (fun a => f (g a)) l.
Proof. induction l as [|a l IH]; cbn; [reflexivity | rewrite IH; reflexivity]. Qed.

(** The integers of a delta, for a list of samples. *)
Lemma trailData_wire (h : Player.t) :
  trailInv h ->
  Game.trailData h
  = if Player.trailLen h - Player.trailSentCount h >? 0
    then Some (flat_map
                 (fun s => [ JS.toInt16 (Game.encode10 (fst s));
                             JS.toInt16 (Game.encode10 (snd s)) ])
                 (drop (Z.to_nat (Player.trailSentCount h)) (trailContents h)))
    else None.
Proof.
  intros [[I0 I1] I2]. unfold Game.trailData. cbv zeta.
  destruct (Player.trailLen h - Player.trailSentCount h >? 0) eqn:C; [|reflexivity].
  assert (D : ((Player.trailLen h - Player.trailSentCount h) * 2
               <=? Game.TRAIL_BUFFER_SIZE) = true).
  { apply Z.leb_le. unfold Game.TRAIL_BUFFER_SIZE, TRAIL_MAX in *. lia. }
  rewrite D. f_equal. unfold trailContents.
  rewrite skipn_map, range_drop by lia. rewrite !flat_map_map. reflexivity.
Qed.

Lemma applyTrail_wire (l : list (Q * Q)) (p : Player.t) :
  Game.applyTrail
    (flat_map (fun s => [ JS.toInt16 (Game.encode10 (fst s));
                          JS.toInt16 (Game.encode10 (snd s)) ]) l) p
  = fold_left (fun p s => Game.appendSample p (fst (wireSample s)) (snd (wireSample s)))
      l p.
Proof.
  revert p. induction l as [|s l IH]; intros p; [reflexivity|].
  cbn [flat_map app fold_left Game.applyTrail]. rewrite IH. reflexivity.
Qed.

Lemma holdsLast_appendAll (l : list (Q * Q)) (p : Player.t) (xs : list (Q * Q)) :
  holdsLast p xs ->
  holdsLast
    (fold_left (fun p s => Game.appendSample p (fst (wireSample s)) (snd (wireSample s)))
       l p)
    (xs ++ map wireSample l).
Proof.
  revert p xs. induction l as [|s l IH]; intros p xs H; cbn [fold_left map].
  - rewrite app_nil_r. exact H.
  - replace (xs ++ wireSample s :: map wireSample l)
      with ((xs ++ [wireSample s]) ++ map wireSample l)
      by (rewrite <- app_assoc; reflexivity).
    apply IH.
    pose proof (holdsLast_appendSample p xs (fst (wireSample s)) (snd (wireSample s)) H)
      as K.
    destruct (wireSample s). exact K.
Qed.

Lemma applyDelta_sameTrail (pd : Game.PlayerState) (m : Player.t) :
  sameTrail (Game.applyDelta pd m) (Game.applyTrail (default [] (Game.ps_tr pd)) m).
Proof.
  unfold Game.applyDelta. destruct (Game.ps_tr pd) as [[|v t]|]; repeat split; reflexivity.
Qed.

Lemma applyScalars_sameTrail (pd : Game.PlayerState) (m : Player.t) :
  sameTrail (Game.applyScalars pd m) m.
Proof.
  unfold Game.applyScalars.
  destruct (Game.truthyString (Game.ps_c pd)), (Game.nonEmpty (Game.ps_n pd)),
    (Game.ps_l pd); repeat split; reflexivity.
Qed.

Lemma sameTrail_sym (p q : Player.t) : sameTrail p q -> sameTrail q p.
Proof. intros (A & B & C & D). repeat split; symmetry; assumption. Qed.

Lemma afterSend_spec (st : bool) (h : Player.t) :
  snd (Game.serializePlayer st h) = afterSend h
  /\ sameTrail (afterSend h) h
  /\ Player.trailSentCount (afterSend h) = Player.trailLen h.
Proof. split; [reflexivity|]. split; [repeat split; reflexivity | reflexivity]. Qed.

(** The copy after an entry made from [h] is applied to it. *)
Lemma holdsLast_applyEntry (st : bool) (h m : Player.t) (older : list (Q * Q)) :
  trailStore h -> trailInv h ->
  holdsLast m (older ++ map wireSample (sentPart h)) ->
  exists older',
    holdsLast (applyEntry (fst (Game.serializePlayer st h)) m)
      (older' ++ map wireSample (trailContents h))
    /\ (Player.trailLen h <> 0 -> older' = older)
    /\ (Player.trailLen h = 0 -> older' = []).
Proof.
  intros HS HI HM. pose proof HS as (_ & _ & _ & HB). pose proof HI as [[I0 I1] I2].
  set (pd := fst (Game.serializePlayer st h)).
  assert (Etr : Game.ps_tr pd = Game.trailData h) by reflexivity.
  assert (Etl : Game.ps_tl pd = Some (Player.trailLen h)) by reflexivity.
  assert (H1 : holdsLast (Game.applyDelta pd m)
                 (older ++ map wireSample (trailContents h))).
  { apply (holdsLast_sameTrail _ _ _ (sameTrail_sym _ _ (applyDelta_sameTrail pd m))).
    rewrite Etr, (trailData_wire h HI).
    destruct (Player.trailLen h - Player.trailSentCount h >? 0) eqn:C.
    - unfold default. cbn [from_option id]. rewrite applyTrail_wire.
      rewrite <- (take_drop (Z.to_nat (Player.trailSentCount h)) (trailContents h)) at 2.
      rewrite map_app, app_assoc. apply holdsLast_appendAll. exact HM.
    - unfold default. cbn [from_option id Game.applyTrail].
      unfold sentPart in HM. rewrite take_ge in HM; [exact HM|].
      rewrite length_trailContents by lia. lia. }
  unfold applyEntry.
  destruct (Z.eq_dec (Player.trailLen h) 0) as [Z0|NZ].
  - exists []. split; [|split; [intros C; contradiction | reflexivity]].
    apply (holdsLast_sameTrail _ _ _ (sameTrail_sym _ _ (applyScalars_sameTrail pd _))).
    unfold Game.applyReset. rewrite Etl, Z0.
    assert (Ec : trailContents h = []).
    { unfold trailContents. rewrite Z0. reflexivity. }
    rewrite Ec. destruct H1 as ((LX & LY & _ & _) & _ & _).
    split; [|split].
    + repeat split; try assumption; unfold TRAIL_MAX; cbn; lia.
    + reflexivity.
    + cbn. intros i Hi. lia.
  - exists older. split; [|split; [reflexivity | intros C; contradiction]].
    apply (holdsLast_sameTrail _ _ _ (sameTrail_sym _ _ (applyScalars_sameTrail pd _))).
    unfold Game.applyReset. rewrite Etl.
    destruct (Player.trailLen h) as [|l|l]; [contradiction | exact H1 | exact H1].
Qed.

Lemma length_sentPart (h : Player.t) :
  trailInv h -> length (sentPart h) = Z.to_nat (Player.trailSentCount h).
Proof.
  intros [[I0 I1] I2]. unfold sentPart.
  rewrite length_take, length_trailContents by lia. lia.
Qed.

Lemma toInt16_small (z : Z) : -32768 <= z < 32768 -> JS.toInt16 z = z.
Proof.
  intros H. unfold JS.toInt16, JS.wrap.
  change (2 ^ (16 - 1)) with 32768. change (2 ^ 16) with 65536.
  rewrite Z.mod_small by lia. lia.
Qed.

(** The [Int16Array] buffer does not alter the encoding of a coordinate
    between 0 and 3276, and the decoded value is within 0.05 of it. *)
Lemma wireCoord_close (v : Q) :
  (0 <= v)%Q -> (v <= 3276)%Q -> (Qabs (wireCoord v - v) <= 1 # 20)%Q.
Proof.
  intros H0 H1. unfold wireCoord.
  assert (B : (v * 10 + (1 # 2) < inject_Z (2 ^ 31))%Q).
  { change (inject_Z (2 ^ 31)) with 2147483648%Q. lra. }
  assert (E : Game.encode10 v = Qfloor (v * 10 + (1 # 2))) by (apply encode10_round; assumption).
  assert (R : -32768 <= Game.encode10 v < 32768).
  { rewrite E. pose proof (Qfloor_le (v * 10 + (1 # 2))) as F.
    pose proof (Qlt_floor (v * 10 + (1 # 2))) as C.
    rewrite inject_Z_plus in C. change (inject_Z 1) with 1%Q in C.
    split.
    - assert (K : -32769 < Qfloor (v * 10 + (1 # 2))); [|lia].
      rewrite Zlt_Qlt. change (inject_Z (-32769)) with (-32769)%Q. lra.
    - rewrite Zlt_Qlt. change (inject_Z 32768) with 32768%Q. lra. }
  rewrite (toInt16_small _ R). apply decode10_close; assumption.
Qed.

Lemma mirrors_start (h m : Player.t) :
  trailStore h -> trailInv h -> Player.trailSentCount h = 0 -> trailStore m ->
  mirrors h m.
Proof.
  intros HS HI S0 HM. split; [exact HS|]. split; [exact HI|].
  exists (trailContents m). unfold sentPart. rewrite S0. cbn [Z.to_nat take map].
  rewrite app_nil_r. apply holdsLast_contents. exact HM.
Qed.

Lemma mirrors_reset (h m : Player.t) :
  mirrors h m ->
  mirrors (Player.set_trail (Player.trailX h) (Player.trailY h) 0 0 0 h) m.
Proof.
  intros (HS & HI & older & HM). destruct HS as (LX & LY & _ & _).
  split; [|split].
  - repeat split; try assumption; unfold TRAIL_MAX; cbn; lia.
  - unfold trailInv, TRAIL_MAX. cbn. lia.
  - exists (older ++ map wireSample (sentPart h)).
    unfold sentPart at 2. cbn [Player.trailSentCount Player.set_trail Z.to_nat take map].
    rewrite app_nil_r. exact HM.
Qed.

Lemma sync_step (st : bool) (h m : Player.t) :
  mirrors h m ->
  let m' := applyEntry (fst (Game.serializePlayer st h)) m in
  mirrors (snd (Game.serializePlayer st h)) m'
  /\ Player.trailLen h <= Player.trailLen m'
  /\ (forall i, 0 <= i < Player.trailLen h ->
        trailSample m' (Player.trailLen m' - Player.trailLen h + i)
        = wireSample (trailSample h i))
  /\ (Player.trailLen m = Player.trailSentCount h ->
      trailContents m' = map wireSample (trailContents h)).
Proof.
  intros (HS & HI & older & HM) m'.
  pose proof HS as (_ & _ & _ & HB). pose proof HI as [[I0 I1] I2].
  destruct (holdsLast_applyEntry st h m older HS HI HM) as (older' & H' & Ho & Hz).
  fold m' in H'.
  destruct (afterSend_spec st h) as (Ea & Sa & Sc).
  pose proof (length_trailContents h ltac:(lia)) as Lc.
  assert (Lx : length (older' ++ map wireSample (trailContents h))
               = (length older' + Z.to_nat (Player.trailLen h))%nat).
  { rewrite length_app, length_map, Lc. reflexivity. }
  pose proof H' as (HS' & HL' & HV'). rewrite Lx in HL', HV'.
  split; [|split; [|split]].
  + rewrite Ea. split; [exact (trailStore_sameTrail _ _ (sameTrail_sym _ _ Sa) HS)|].
    split.
    * unfold trailInv. rewrite Sc. destruct Sa as (_ & _ & -> & _). lia.
    * exists older'. unfold sentPart.
      rewrite Sc, (trailContents_sameTrail _ _ Sa).
      rewrite take_ge by lia. exact H'.
  + unfold TRAIL_MAX in *. lia.
  + intros i Hi.
    assert (K := HV' (Player.trailLen m' - Player.trailLen h + i)
                   ltac:(unfold TRAIL_MAX in *; lia)).
    replace (Z.to_nat _) with (length older' + Z.to_nat i)%nat in K
      by (unfold TRAIL_MAX in *; lia).
    rewrite lookup_app_r in K by lia.
    replace (length older' + Z.to_nat i - length older')%nat with (Z.to_nat i) in K by lia.
    rewrite list_lookup_fmap in K. unfold trailContents in K.
    rewrite list_lookup_fmap, lookup_range in K by lia.
    cbn [fmap option_fmap option_map] in K.
    rewrite Z2Nat.id in K by lia. symmetry. congruence.
  + intros Em. rewrite (holdsLast_drop _ _ H'), Lx.
    destruct (Z.eq_dec (Player.trailLen h) 0) as [Z0|NZ].
    * assert (Ec : trailContents h = []).
      { unfold trailContents. rewrite Z0. reflexivity. }
      rewrite Ec, (Hz Z0). cbn [map app]. apply drop_nil.
    * pose proof (Ho NZ) as Eo. subst older'.
      destruct HM as (_ & HLm & _).
      rewrite length_app, length_map, (length_sentPart h HI) in HLm.
      unfold TRAIL_MAX in *.
      destruct (Nat.eq_dec (length older) 0%nat) as [E0|N0].
      -- destruct older; [|discriminate]. cbn [app length] in *.
         replace (_ - _)%nat with 0%nat by lia. reflexivity.
      -- assert (Player.trailLen h = 600) by lia.
         replace (_ - _)%nat with (length older) by lia.
         apply drop_app_length.
Qed.



(** ** A snapshot applied to a dictionary of copies *)

Lemma mirrorPlayer_known (ps : Players) (k : string) (pd : Game.PlayerState)
    (m : Player.t) :
  pget k ps = Some m -> Game.mirrorPlayer ps k pd = m.
Proof. intros E. unfold Game.mirrorPlayer. rewrite E. reflexivity. Qed.

Lemma applyEntries_known (entries : list (string * Game.PlayerState)) (acc : Players)
    (k : string) (pd : Game.PlayerState) (m : Player.t) :
  List.NoDup (map fst entries) -> In (k, pd) entries -> pget k acc = Some m ->
  pget k (fold_left (fun ps '(id, pd) => Game.applyPlayerState ps id pd) entries acc)
  = Some (applyEntry pd m).
Proof.
  revert acc. induction entries as [|[id pd'] r IH]; intros acc ND Hin Hk.
  - destruct Hin.
  - cbn [map fst] in ND. inversion ND as [|? ? Hnot ND']; subst.
    cbn [fold_left]. destruct Hin as [E|Hin].
    + injection E as -> ->.
      rewrite applyEntries_other by exact Hnot.
      unfold Game.applyPlayerState. rewrite pget_pset_eq.
      rewrite (mirrorPlayer_known acc k pd m Hk). reflexivity.
    + assert (Hne : id <> k).
      { intros ->. apply Hnot. apply (in_map fst) in Hin. exact Hin. }
      apply IH; [exact ND' | exact Hin |].
      rewrite applyPlayerState_other by exact Hne. exact Hk.
Qed.

Lemma keys_entries (st : bool) (ps : Players) :
  map fst (map (fun kp => (fst kp, fst (Game.serializePlayer st (snd kp)))) ps)
  = keys ps.
Proof. unfold keys. rewrite map_map. reflexivity. Qed.



(** ** A participant applies every snapshot twice *)

Lemma holdsLast_applyEntry_again (st : bool) (h m : Player.t) (xs : list (Q * Q)) :
  trailInv h -> Player.trailLen h <> 0 -> holdsLast m xs ->
  holdsLast (applyEntry (fst (Game.serializePlayer st h)) m)
    (xs ++ map wireSample (unsentPart h)).
Proof.
  intros HI NZ HM. pose proof HI as [[I0 I1] I2].
  set (pd := fst (Game.serializePlayer st h)).
  assert (Etr : Game.ps_tr pd = Game.trailData h) by reflexivity.
  assert (Etl : Game.ps_tl pd = Some (Player.trailLen h)) by reflexivity.
  unfold applyEntry.
  apply (holdsLast_sameTrail _ _ _ (sameTrail_sym _ _ (applyScalars_sameTrail pd _))).
  assert (R : Game.applyReset pd (Game.applyDelta pd m) = Game.applyDelta pd m).
  { unfold Game.applyReset. rewrite Etl.
    destruct (Player.trailLen h); [contradiction | reflexivity | reflexivity]. }
  rewrite R.
  apply (holdsLast_sameTrail _ _ _ (sameTrail_sym _ _ (applyDelta_sameTrail pd m))).
  rewrite Etr, (trailData_wire h HI). unfold unsentPart.
  destruct (Player.trailLen h - Player.trailSentCount h >? 0) eqn:C.
  - unfold default. cbn [from_option id]. rewrite applyTrail_wire.
    apply holdsLast_appendAll. exact HM.
  - unfold default. cbn [from_option id Game.applyTrail].
    rewrite drop_ge; [cbn [map]; rewrite app_nil_r; exact HM|].
    rewrite length_trailContents by lia. lia.
Qed.



(** * The state codec on the host and on a copy *)

Lemma serializeLoop_players (st : bool) (ps : Players) :
  snd (Game.serializeLoop st ps) = map (fun kp => (fst kp, afterSend (snd kp))) ps.
Proof.
  induction ps as [|[k p] r IH]; [reflexivity|].
  cbn [Game.serializeLoop map fst snd].
  destruct (Game.serializePlayer st p) as [pd p1] eqn:E.
  destruct (Game.serializeLoop st r) as [out r1]. cbn [snd] in *.
  rewrite IH. f_equal. f_equal.
  change p1 with (snd (pd, p1)). rewrite <- E. reflexivity.
Qed.

Lemma keys_serializeLoop (st : bool) (ps : Players) :
  keys (snd (Game.serializeLoop st ps)) = keys ps.
Proof.
  rewrite serializeLoop_players. unfold keys. rewrite map_map. reflexivity.
Qed.

Lemma afterSend_twice (p : Player.t) : afterSend (afterSend p) = afterSend p.
Proof. reflexivity. Qed.

Lemma trailData_afterSend (p : Player.t) : Game.trailData (afterSend p) = None.
Proof.
  unfold Game.trailData. cbv zeta.
  change (Player.trailLen (afterSend p)) with (Player.trailLen p).
  change (Player.trailSentCount (afterSend p)) with (Player.trailLen p).
  rewrite Z.sub_diag. reflexivity.
Qed.

Lemma staticSent_serialize (g : Game.Globals) (ps : Players) (ra : bool) (cd : Z)
    (rst : option Z) (mw : option string) (now : Z) :
  let g1 := snd (fst (Game.serializeGameState g ps ra cd rst mw now)) in
  Game.staticSent g1 = true
  /\ Game.spatialBitfield g1 = Game.spatialBitfield g
  /\ Game.gridDirty g1 = Game.gridDirty g
  /\ Game.gridPoints g1 = Game.gridPoints g.
Proof.
  unfold Game.serializeGameState.
  destruct (Game.serializeLoop (negb (Game.staticSent g)) ps) as [out ps1].
  cbn [fst snd]. destruct (Game.staticSent g) eqn:E; cbn [negb].
  - repeat split; try reflexivity. exact E.
  - repeat split; reflexivity.
Qed.

(** X9.  Delta encoding on the host.  [serializeGameState] changes
    nothing of a competitor but [trailSentCount], which it sets to the
    trail length, keeps the keys and their order, and touches nothing of
    the module state but the mark that the static fields have gone out.
    Every entry it produces reports [tc] equal to [tl]; the static fields
    (identifier, name, colour, spawn index) are in every entry of the
    first snapshot after [resetStaticSent] and in none of a later one;
    and a second snapshot taken right after a first carries no trail
    delta at all and leaves the host as the first left it. *)
Theorem serializeGameState_sends_once (g : Game.Globals) (ps : Players)
    (ra ra' : bool) (cd cd' : Z) (rst rst' : option Z) (mw mw' : option string)
    (now now' : Z) :
  let r1 := Game.serializeGameState g ps ra cd rst mw now in
  let r2 := Game.serializeGameState (snd (fst r1)) (snd r1) ra' cd' rst' mw' now' in
  snd r1 = map (fun kp => (fst kp, afterSend (snd kp))) ps
  /\ keys (snd r1) = keys ps
  /\ (Game.staticSent (snd (fst r1)) = true
      /\ Game.spatialBitfield (snd (fst r1)) = Game.spatialBitfield g
      /\ Game.gridDirty (snd (fst r1)) = Game.gridDirty g
      /\ Game.gridPoints (snd (fst r1)) = Game.gridPoints g)
  /\ Game.st_p (fst (fst r1))
     = map (fun kp => (fst kp, fst (Game.serializePlayer (negb (Game.staticSent g))
                                      (snd kp)))) ps
  /\ (forall (st : bool) (p : Player.t),
        let pd := fst (Game.serializePlayer st p) in
        Game.ps_tc pd = Game.ps_tl pd
        /\ Game.ps_tl pd = Some (Player.trailLen p)
        /\ Game.ps_tr pd = Game.trailData p
        /\ Game.ps_id pd = (if st then Some (Player.id p) else None)
        /\ Game.ps_n pd = (if st then Some (Player.name p) else None)
        /\ Game.ps_c pd = (if st then Player.color p else None)
        /\ Game.ps_si pd = (if st then Some (Player.spawnIndex p) else None))
  /\ snd r2 = snd r1
  /\ snd (fst r2) = snd (fst r1)
  /\ (forall k pd,
        In (k, pd) (Game.st_p (fst (fst r2))) ->
        Game.ps_tr pd = None /\ Game.ps_id pd = None /\ Game.ps_n pd = None
        /\ Game.ps_c pd = None /\ Game.ps_si pd = None).
Proof.
  intros r1 r2.
  assert (P1 : snd r1 = map (fun kp => (fst kp, afterSend (snd kp))) ps).
  { subst r1. rewrite serializeGameState_players. apply serializeLoop_players. }
  assert (G1 := staticSent_serialize g ps ra cd rst mw now). cbv zeta in G1.
  fold r1 in G1. destruct G1 as (S1 & B1 & D1 & Q1).
  split; [exact P1|]. split.
  { rewrite P1. unfold keys. rewrite map_map. reflexivity. }
  split; [repeat split; assumption|].
  split; [apply serializeGameState_entries|].
  split; [intros st p; repeat split; reflexivity|].
  split; [|split].
  - subst r2. rewrite serializeGameState_players, serializeLoop_players, P1.
    rewrite map_map. reflexivity.
  - subst r2. unfold Game.serializeGameState at 1.
    destruct (Game.serializeLoop (negb (Game.staticSent (snd (fst r1)))) (snd r1))
      as [out ps2].
    cbn [fst snd]. rewrite S1. reflexivity.
  - intros k pd I. subst r2. rewrite serializeGameState_entries, S1, P1 in I.
    rewrite map_map in I. apply in_map_iff in I. destruct I as ([k' p] & E & _).
    cbn [fst snd negb] in E. injection E as <- <-.
    cbn [fst Game.serializePlayer Game.ps_tr Game.ps_id Game.ps_n Game.ps_c Game.ps_si].
    split; [apply trailData_afterSend|]. repeat split; reflexivity.
Qed.

Lemma serializeGameState_sends_once_witness :
  In ("host"%string,
      fst (Game.serializePlayer false (afterSend threeAhead)))
     (Game.st_p
        (fst (fst (Game.serializeGameState
                     (snd (fst (Game.serializeGameState Game.initial
                                  [("host"%string, threeAhead)] true 0 (Some 1000) None
                                  2000)))
                     (snd (Game.serializeGameState Game.initial
                             [("host"%string, threeAhead)] true 0 (Some 1000) None 2000))
                     true 0 (Some 1000) None 2066))))
  /\ Game.ps_tr (fst (Game.serializePlayer false (afterSend threeAhead))) = None.
Proof.
  assert (I : In ("host"%string,
                  fst (Game.serializePlayer false (afterSend threeAhead)))
                (Game.st_p
                   (fst (fst (Game.serializeGameState
                                (snd (fst (Game.serializeGameState Game.initial
                                             [("host"%string, threeAhead)] true 0
                                             (Some 1000) None 2000)))
                                (snd (Game.serializeGameState Game.initial
                                        [("host"%string, threeAhead)] true 0
                                        (Some 1000) None 2000))
                                true 0 (Some 1000) None 2066))))).
  { left. reflexivity. }
  split; [exact I|].
  destruct (serializeGameState_sends_once Game.initial [("host"%string, threeAhead)]
              true true 0 0 (Some 1000) (Some 1000) None None 2000 2066)
    as (_ & _ & _ & _ & _ & _ & _ & N).
  exact (proj1 (N _ _ I)).
Defined.

(** ** What a snapshot does to a dictionary of copies *)

Lemma pget_pset_keeps (k id : string) (v : Player.t) (ps : Players) :
  pget k ps <> None -> pget k (pset id v ps) <> None.
Proof.
  intros H. destruct (String.eqb_spec id k) as [->|Ne].
  - rewrite pget_pset_eq. discriminate.
  - rewrite pget_pset_ne by exact Ne. exact H.
Qed.

Lemma applyEntries_keep (entries : list (string * Game.PlayerState)) (acc : Players)
    (k : string) :
  pget k acc <> None ->
  pget k (fold_left (fun ps '(id, pd) => Game.applyPlayerState ps id pd) entries acc)
  <> None.
Proof.
  revert acc. induction entries as [|[id pd] r IH]; intros acc H; cbn [fold_left];
    [exact H|].
  apply IH. unfold Game.applyPlayerState. apply pget_pset_keeps. exact H.
Qed.

Lemma appendSample_identity (p : Player.t) (x y : Q) :
  sameIdentity (Game.appendSample p x y) p.
Proof.
  unfold Game.appendSample. cbv zeta.
  destruct (_ >? _); repeat split; reflexivity.
Qed.

Lemma applyTrail_identity (trail : list Z) (p : Player.t) :
  sameIdentity (Game.applyTrail trail p) p.
Proof.
  revert p. induction trail as [|a|a b l IH] using pairs_ind; intros p.
  - repeat split; reflexivity.
  - apply appendSample_identity.
  - cbn [Game.applyTrail].
    destruct (IH (Game.appendSample p (inject_Z a / 10)%Q (inject_Z b / 10)%Q))
      as (A & B & C).
    destruct (appendSample_identity p (inject_Z a / 10)%Q (inject_Z b / 10)%Q)
      as (A' & B' & C').
    repeat split; congruence.
Qed.

Lemma applyEntry_identity (pd : Game.PlayerState) (m : Player.t) :
  Player.id (applyEntry pd m) = Player.id m
  /\ Player.turning (applyEntry pd m) = Player.turning m
  /\ Player.spawnIndex (applyEntry pd m) = Player.spawnIndex m.
Proof.
  assert (D : sameIdentity (Game.applyDelta pd m) m).
  { unfold Game.applyDelta. destruct (Game.ps_tr pd) as [[|v t]|];
      try (repeat split; reflexivity).
    destruct (applyTrail_identity (v :: t) m) as (A & B & C).
    repeat split; assumption. }
  assert (R : sameIdentity (Game.applyReset pd (Game.applyDelta pd m))
                (Game.applyDelta pd m)).
  { unfold Game.applyReset. destruct (Game.ps_tl pd) as [[| |]|];
      repeat split; reflexivity. }
  assert (S : sameIdentity (applyEntry pd m)
                (Game.applyReset pd (Game.applyDelta pd m))).
  { unfold applyEntry, Game.applyScalars.
    destruct (Game.truthyString (Game.ps_c pd)), (Game.nonEmpty (Game.ps_n pd)),
      (Game.ps_l pd); repeat split; reflexivity. }
  destruct D as (D1 & D2 & D3), R as (R1 & R2 & R3), S as (S1 & S2 & S3).
  repeat split; congruence.
Qed.



(** * The life cycle on the host *)

Lemma pget_pmap (f : Player.t -> Player.t) (ps : Players) (k : string) :
  pget k (pmap f ps) = option_map f (pget k ps).
Proof.
  induction ps as [|[k' p] r IH]; [reflexivity|].
  cbn [pmap map fst snd pget]. destruct (String.eqb k k'); [reflexivity | exact IH].
Qed.

Lemma keys_pmap (f : Player.t -> Player.t) (ps : Players) : keys (pmap f ps) = keys ps.
Proof. unfold keys, pmap. rewrite map_map. reflexivity. Qed.

Lemma pmap_pmap (f g : Player.t -> Player.t) (ps : Players) :
  pmap f (pmap g ps) = pmap (fun p => f (g p)) ps.
Proof. unfold pmap. rewrite map_map. reflexivity. Qed.

Lemma serializeGameState_pmap (g : Game.Globals) (ps : Players) (ra : bool) (cd : Z)
    (rst : option Z) (mw : option string) (now : Z) :
  snd (Game.serializeGameState g ps ra cd rst mw now) = pmap afterSend ps.
Proof. rewrite serializeGameState_players. apply serializeLoop_players. Qed.

Lemma broadcastState_host (now : Z) (s : Net.t) :
  Net.isHost s = true ->
  Net.broadcastState now s
  = Net.emit (Net.EvStateUpdate (snapshot now s))
      (Net.sendAll (Net.MsgState (snapshot now s))
         (Net.set_players (pmap afterSend (Net.players s))
            (Net.set_game
               (snd (fst (Game.serializeGameState (Net.game s) (Net.players s)
                            (Net.roundActive s) (Net.countdown s)
                            (Net.roundStartTime s) (Net.matchWinner s) now)))
               s))).
Proof.
  intros H. unfold Net.broadcastState, snapshot. rewrite H. cbn [negb].
  rewrite <- (serializeGameState_pmap (Net.game s) (Net.players s) (Net.roundActive s)
                (Net.countdown s) (Net.roundStartTime s) (Net.matchWinner s) now).
  destruct (Game.serializeGameState _ _ _ _ _ _ _) as [[state g1] ps1]. reflexivity.
Qed.

Lemma players_broadcastState (now : Z) (s : Net.t) :
  Net.isHost s = true ->
  Net.players (Net.broadcastState now s) = pmap afterSend (Net.players s).
Proof. intros H. rewrite (broadcastState_host now s H). reflexivity. Qed.

Lemma log_broadcastState (now : Z) (s : Net.t) :
  Net.isHost s = true ->
  Net.log (Net.broadcastState now s)
  = Net.log s ++ sendsTo (Net.connections s) (Net.MsgState (snapshot now s))
    ++ [Net.Emit (Net.EvStateUpdate (snapshot now s))].
Proof.
  intros H. rewrite (broadcastState_host now s H).
  cbn [Net.log Net.emit Net.add_log Net.sendAll Net.connections Net.set_players
       Net.set_game]. rewrite <- app_assoc. reflexivity.
Qed.

Lemma connections_broadcastState (now : Z) (s : Net.t) :
  Net.connections (Net.broadcastState now s) = Net.connections s.
Proof.
  unfold Net.broadcastState. destruct (negb (Net.isHost s)); [reflexivity|].
  destruct (Game.serializeGameState _ _ _ _ _ _ _) as [[state g1] ps1]. reflexivity.
Qed.

Lemma newEffects_app (s s' : Net.t) (l : list Net.Effect) :
  Net.log s' = Net.log s ++ l -> newEffects s s' = l.
Proof. intros E. unfold newEffects. rewrite E. apply drop_app_length. Qed.

(** X11.  A start-match request the host accepts (it has at least two
    competitors): the match is marked started, the round not active, the
    countdown set to 3, the winner cleared and the one-second countdown
    interval created; every competitor gets [MAX_LIVES] lives and score 0
    and is otherwise unchanged (its unsent trail samples are marked
    sent); every open connection is sent [gameStart] and then one
    snapshot, which carries the static fields of every competitor and a
    countdown of 3; the user interface of the host gets [stateUpdate] and
    then [gameStart]. *)
Theorem startGame_launch (now : Z) (s : Net.t) :
  Net.isHost s = true ->
  2 <= Z.of_nat (length (keys (Net.players s))) ->
  let s' := Net.startGame now s in
  let fresh := fun p => Player.set_score 0 (Player.set_lives MAX_LIVES p) in
  control s'
  = {| c_isHost := true;
       c_roundActive := false;
       c_countdown := 3;
       c_roundStartTime := Net.roundStartTime s;
       c_matchWinner := None;
       c_gameStarted := true;
       c_physicsInterval := Net.physicsInterval s;
       c_timers := Net.timers s ++ [countdownTimer (Net.nextTimer s)];
       c_nextTimer := S (Net.nextTimer s) |}
  /\ Net.players s' = pmap (fun p => afterSend (fresh p)) (Net.players s)
  /\ Net.connections s' = Net.connections s
  /\ exists state,
       newEffects s s'
       = sendsTo (Net.connections s) Net.MsgGameStart
         ++ sendsTo (Net.connections s) (Net.MsgState state)
         ++ [Net.Emit (Net.EvStateUpdate state); Net.Emit Net.EvGameStart]
       /\ Game.st_cd state = 3 /\ Game.st_ra state = false
       /\ Game.st_mw state = None
       /\ Game.st_p state
          = map (fun kp => (fst kp, fst (Game.serializePlayer true (fresh (snd kp)))))
              (Net.players s).
Proof.
  intros H L s' fresh.
  split; [exact (control_startGame now s H L)|].
  subst s'. unfold Net.startGame. rewrite H. cbn [negb].
  destruct (Z.of_nat (length (keys (Net.players s))) <? 2) eqn:C; [lia|].
  cbv zeta.
  match goal with
  | |- context [Net.broadcastState now ?x] => set (s3 := x)
  end.
  assert (H3 : Net.isHost s3 = true) by exact H.
  assert (P3 : Net.players s3 = pmap fresh (Net.players s)).
  { subst s3.
    cbn [Net.players Net.sendAll Net.add_log Net.resetStaticSent Net.set_game
         Net.set_players Net.set_matchWinner Net.set_countdown Net.set_roundActive
         Net.set_gameStarted].
    apply map_ext. intros [k p]. reflexivity. }
  assert (C3 : Net.connections s3 = Net.connections s) by reflexivity.
  assert (L3 : Net.log s3 = Net.log s ++ sendsTo (Net.connections s) Net.MsgGameStart)
    by reflexivity.
  assert (HB : Net.isHost (Net.emit Net.EvGameStart (Net.broadcastState now s3)) = true).
  { change (c_isHost (control (Net.broadcastState now s3)) = true).
    rewrite control_broadcastState. exact H3. }
  unfold Net.runCountdown. rewrite HB. cbn [negb].
  cbn [Net.players Net.connections Net.addTimer Net.set_timers Net.emit Net.add_log].
  split; [|split].
  - rewrite (players_broadcastState now s3 H3), P3. apply pmap_pmap.
  - rewrite connections_broadcastState. exact C3.
  - exists (snapshot now s3). split; [|split; [|split; [|split]]].
    + apply newEffects_app.
      cbn [Net.log Net.addTimer Net.set_timers Net.emit Net.add_log].
      rewrite (log_broadcastState now s3 H3), L3, C3. rewrite <- !app_assoc. reflexivity.
    + unfold snapshot, Game.serializeGameState.
      destruct (Game.serializeLoop _ _). reflexivity.
    + unfold snapshot, Game.serializeGameState.
      destruct (Game.serializeLoop _ _). reflexivity.
    + unfold snapshot, Game.serializeGameState.
      destruct (Game.serializeLoop _ _). reflexivity.
    + unfold snapshot. rewrite serializeGameState_entries, P3.
      unfold pmap. rewrite map_map. reflexivity.
Qed.

Lemma startGame_launch_witness :
  Net.isHost lobbyTwo = true
  /\ 2 <= Z.of_nat (length (keys (Net.players lobbyTwo)))
  /\ Net.gameStarted (Net.startGame 2000 lobbyTwo) = true
  /\ Net.countdown (Net.startGame 2000 lobbyTwo) = 3.
Proof.
  assert (H : Net.isHost lobbyTwo = true) by reflexivity.
  assert (L : 2 <= Z.of_nat (length (keys (Net.players lobbyTwo))))
    by (vm_compute; discriminate).
  pose proof (proj1 (startGame_launch 2000 lobbyTwo H L)) as C.
  split; [exact H|]. split; [exact L|]. split.
  - exact (f_equal c_gameStarted C).
  - exact (f_equal c_countdown C).
Defined.

(** ** The countdown *)

Lemma countdownTick_wait (h : nat) (now : Z) (s : Net.t) :
  Net.isHost s = true -> 1 < Net.countdown s ->
  Net.countdownTick h now s
  = Net.broadcastState now
      (Net.resetStaticSent (Net.set_countdown (Net.countdown s - 1) s)).
Proof.
  intros H C. unfold Net.countdownTick. cbv zeta.
  set (s2 := Net.broadcastState now
               (Net.resetStaticSent (Net.set_countdown (Net.countdown s - 1) s))).
  assert (E : Net.countdown s2 = Net.countdown s - 1).
  { change (c_countdown (control s2) = Net.countdown s - 1).
    subst s2. rewrite control_broadcastState. reflexivity. }
  rewrite E. destruct (Net.countdown s - 1 <=? 0) eqn:D; [lia | reflexivity].
Qed.

Lemma countdownTick_go (h : nat) (now : Z) (s : Net.t) :
  Net.isHost s = true -> Net.countdown s <= 1 ->
  Net.countdownTick h now s
  = Net.startRound now
      (Net.clearTimer h
         (Net.broadcastState now
            (Net.resetStaticSent (Net.set_countdown (Net.countdown s - 1) s)))).
Proof.
  intros H C. unfold Net.countdownTick. cbv zeta.
  set (s2 := Net.broadcastState now
               (Net.resetStaticSent (Net.set_countdown (Net.countdown s - 1) s))).
  assert (E : Net.countdown s2 = Net.countdown s - 1).
  { change (c_countdown (control s2) = Net.countdown s - 1).
    subst s2. rewrite control_broadcastState. reflexivity. }
  rewrite E. destruct (Net.countdown s - 1 <=? 0) eqn:D; [reflexivity | lia].
Qed.

Lemma startRound_host (now : Z) (s : Net.t) :
  Net.isHost s = true ->
  let s' := Net.startRound now s in
  control s'
  = {| c_isHost := true;
       c_roundActive := true;
       c_countdown := Net.countdown s;
       c_roundStartTime := Some now;
       c_matchWinner := None;
       c_gameStarted := Net.gameStarted s;
       c_physicsInterval := Some (Net.nextTimer s);
       c_timers := Net.timers s;
       c_nextTimer := S (Net.nextTimer s) |}
  /\ Net.tickCounter s' = 0
  /\ Net.players s' = Game.startRoundLoop 0 (Net.players s)
  /\ Net.log s' = Net.log s
  /\ Net.connections s' = Net.connections s.
Proof.
  intros H. unfold Net.startRound. rewrite H. cbn [negb].
  unfold Game.startRound. cbv zeta.
  unfold Net.startPhysicsLoop, Net.stopPhysicsLoop.
  cbn [Net.physicsInterval Net.set_matchWinner Net.set_roundStartTime
       Net.set_roundActive Net.set_players Net.set_game].
  destruct (Net.physicsInterval s);
    (split; [unfold control; cbn; rewrite H; reflexivity | repeat split; reflexivity]).
Qed.

(** Reading the fields of a state off an equation for its [control]. *)
Lemma control_read (s : Net.t) (c : Control) :
  control s = c ->
  Net.isHost s = c_isHost c
  /\ Net.roundActive s = c_roundActive c
  /\ Net.countdown s = c_countdown c
  /\ Net.roundStartTime s = c_roundStartTime c
  /\ Net.matchWinner s = c_matchWinner c
  /\ Net.gameStarted s = c_gameStarted c
  /\ Net.physicsInterval s = c_physicsInterval c
  /\ Net.timers s = c_timers c
  /\ Net.nextTimer s = c_nextTimer c.
Proof. intros <-. repeat split; reflexivity. Qed.

Lemma control_countdownTick_wait (h : nat) (now : Z) (s : Net.t) :
  Net.isHost s = true -> 1 < Net.countdown s ->
  control (Net.countdownTick h now s)
  = control (Net.set_countdown (Net.countdown s - 1) s).
Proof.
  intros H C. rewrite (countdownTick_wait h now s H C).
  rewrite control_broadcastState. reflexivity.
Qed.

Lemma control_countdownTick_go (h : nat) (now : Z) (s : Net.t) :
  Net.isHost s = true -> Net.countdown s <= 1 ->
  control (Net.countdownTick h now s)
  = {| c_isHost := true;
       c_roundActive := true;
       c_countdown := Net.countdown s - 1;
       c_roundStartTime := Some now;
       c_matchWinner := None;
       c_gameStarted := Net.gameStarted s;
       c_physicsInterval := Some (Net.nextTimer s);
       c_timers :=
         List.filter (fun tm => negb (Nat.eqb (Net.timer_id tm) h)) (Net.timers s);
       c_nextTimer := S (Net.nextTimer s) |}.
Proof.
  intros H C. rewrite (countdownTick_go h now s H C).
  pose proof (control_broadcastState now
                (Net.resetStaticSent (Net.set_countdown (Net.countdown s - 1) s))) as C2.
  set (s2 := Net.broadcastState now
               (Net.resetStaticSent (Net.set_countdown (Net.countdown s - 1) s))) in *.
  clearbody s2.
  assert (H2 : Net.isHost (Net.clearTimer h s2) = true)
    by exact (eq_trans (f_equal c_isHost C2) H).
  rewrite (proj1 (startRound_host now (Net.clearTimer h s2) H2)).
  f_equal.
  - exact (f_equal c_countdown C2).
  - exact (f_equal c_gameStarted C2).
  - f_equal. exact (f_equal c_nextTimer C2).
  - exact (f_equal (fun c => List.filter (fun tm => negb (Nat.eqb (Net.timer_id tm) h))
                                (c_timers c)) C2).
  - f_equal. exact (f_equal c_nextTimer C2).
Qed.

Lemma countdown_broadcast (now : Z) (s : Net.t) :
  Net.isHost s = true ->
  let s2 := Net.broadcastState now
              (Net.resetStaticSent (Net.set_countdown (Net.countdown s - 1) s)) in
  Net.players s2 = pmap afterSend (Net.players s)
  /\ Net.tickCounter s2 = Net.tickCounter s
  /\ exists state,
       Net.log s2
       = Net.log s ++ sendsTo (Net.connections s) (Net.MsgState state)
         ++ [Net.Emit (Net.EvStateUpdate state)]
       /\ Game.st_cd state = Net.countdown s - 1
       /\ Game.st_ra state = Net.roundActive s
       /\ Game.st_p state
          = map (fun kp => (fst kp, fst (Game.serializePlayer true (snd kp))))
              (Net.players s).
Proof.
  intros H s2. subst s2.
  set (s1 := Net.resetStaticSent (Net.set_countdown (Net.countdown s - 1) s)).
  assert (H1 : Net.isHost s1 = true) by exact H.
  split; [rewrite (players_broadcastState now s1 H1); reflexivity|].
  split; [rewrite (broadcastState_host now s1 H1); reflexivity|].
  exists (snapshot now s1). split; [exact (log_broadcastState now s1 H1)|].
  split; [|split].
  - unfold snapshot, Game.serializeGameState.
    destruct (Game.serializeLoop _ _). reflexivity.
  - unfold snapshot, Game.serializeGameState.
    destruct (Game.serializeLoop _ _). reflexivity.
  - unfold snapshot. rewrite serializeGameState_entries. reflexivity.
Qed.

(** X12.  The countdown.  Every firing of the interval of
    [runCountdown] on the host takes 1 from the countdown and broadcasts
    a snapshot with the static fields and the new countdown to every open
    connection.  While the countdown stays above 0 nothing else changes:
    no round starts and no clock is created or cleared.  The firing that
    brings it to 0 or below clears the interval and starts the round:
    every competitor goes through [startRound], the round is active with
    the current time as its start, the winner is cleared, the tick
    counter is 0 and the physics clock runs.  From a countdown of 3 the
    round starts at the third firing and not before. *)
Theorem countdown_runs_down :
  (forall (h : nat) (now : Z) (s : Net.t),
     Net.isHost s = true ->
     let s' := Net.countdownTick h now s in
     1 < Net.countdown s ->
     control s' = control (Net.set_countdown (Net.countdown s - 1) s)
     /\ Net.tickCounter s' = Net.tickCounter s
     /\ Net.players s' = pmap afterSend (Net.players s)
     /\ exists state,
          newEffects s s'
          = sendsTo (Net.connections s) (Net.MsgState state)
            ++ [Net.Emit (Net.EvStateUpdate state)]
          /\ Game.st_cd state = Net.countdown s - 1
          /\ Game.st_ra state = Net.roundActive s
          /\ Game.st_p state
             = map (fun kp => (fst kp, fst (Game.serializePlayer true (snd kp))))
                 (Net.players s))
  /\ (forall (h : nat) (now : Z) (s : Net.t),
        Net.isHost s = true ->
        let s' := Net.countdownTick h now s in
        Net.countdown s <= 1 ->
        control s'
        = {| c_isHost := true;
             c_roundActive := true;
             c_countdown := Net.countdown s - 1;
             c_roundStartTime := Some now;
             c_matchWinner := None;
             c_gameStarted := Net.gameStarted s;
             c_physicsInterval := Some (Net.nextTimer s);
             c_timers :=
               List.filter (fun tm => negb (Nat.eqb (Net.timer_id tm) h)) (Net.timers s);
             c_nextTimer := S (Net.nextTimer s) |}
        /\ Net.tickCounter s' = 0
        /\ Net.players s' = Game.startRoundLoop 0 (pmap afterSend (Net.players s))
        /\ exists state,
             newEffects s s'
             = sendsTo (Net.connections s) (Net.MsgState state)
               ++ [Net.Emit (Net.EvStateUpdate state)]
             /\ Game.st_cd state = Net.countdown s - 1
             /\ Game.st_ra state = Net.roundActive s)
  /\ (forall (h : nat) (t1 t2 t3 : Z) (s : Net.t),
        Net.isHost s = true -> Net.countdown s = 3 ->
        let s2 := Net.countdownTick h t2 (Net.countdownTick h t1 s) in
        let s3 := Net.countdownTick h t3 s2 in
        Net.roundActive s2 = Net.roundActive s
        /\ Net.physicsInterval s2 = Net.physicsInterval s
        /\ Net.timers s2 = Net.timers s
        /\ Net.countdown s2 = 1
        /\ Net.roundActive s3 = true
        /\ Net.roundStartTime s3 = Some t3
        /\ Net.physicsInterval s3 = Some (Net.nextTimer s)).
Proof.
  pose proof control_countdownTick_wait as W.
  pose proof control_countdownTick_go as G.
  pose proof countdown_broadcast as E.
  split; [|split].
  - intros h now s H s' C. split; [exact (W h now s H C)|].
    subst s'. rewrite (countdownTick_wait h now s H C).
    destruct (E now s H) as (P & T & state & Lg & Cd & Ra & Sp).
    split; [exact T|]. split; [exact P|].
    exists state. split; [apply newEffects_app; exact Lg|].
    split; [exact Cd|]. split; [exact Ra | exact Sp].
  - intros h now s H s' C. split; [exact (G h now s H C)|].
    subst s'. rewrite (countdownTick_go h now s H C).
    destruct (E now s H) as (P & T & state & Lg & Cd & Ra & Sp).
    set (s2 := Net.broadcastState now
                 (Net.resetStaticSent (Net.set_countdown (Net.countdown s - 1) s))) in *.
    assert (H2 : Net.isHost (Net.clearTimer h s2) = true).
    { change (c_isHost (control s2) = true). subst s2.
      rewrite control_broadcastState. exact H. }
    destruct (startRound_host now (Net.clearTimer h s2) H2) as (_ & T' & P' & L' & _).
    split; [exact T'|]. split; [rewrite P'; cbn [Net.players Net.clearTimer Net.set_timers];
                                rewrite P; reflexivity|].
    exists state. split; [|split; [exact Cd | exact Ra]].
    apply newEffects_app. rewrite L'. exact Lg.
  - intros h t1 t2 t3 s H C. cbv zeta.
    destruct (control_read _ _ (W h t1 s H ltac:(lia)))
      as (H1 & R1 & D1 & _ & _ & _ & P1 & T1 & N1).
    cbn [control c_isHost c_roundActive c_countdown c_physicsInterval c_timers
         c_nextTimer Net.isHost Net.roundActive Net.countdown Net.physicsInterval
         Net.timers Net.nextTimer Net.set_countdown] in H1, R1, D1, P1, T1, N1.
    assert (H1' : Net.isHost (Net.countdownTick h t1 s) = true) by congruence.
    destruct (control_read _ _ (W h t2 _ H1' ltac:(lia)))
      as (H2 & R2 & D2 & _ & _ & _ & P2 & T2 & N2).
    cbn [control c_isHost c_roundActive c_countdown c_physicsInterval c_timers
         c_nextTimer Net.isHost Net.roundActive Net.countdown Net.physicsInterval
         Net.timers Net.nextTimer Net.set_countdown] in H2, R2, D2, P2, T2, N2.
    assert (H2' : Net.isHost (Net.countdownTick h t2 (Net.countdownTick h t1 s)) = true)
      by congruence.
    destruct (control_read _ _ (G h t3 _ H2' ltac:(lia)))
      as (_ & R3 & _ & S3 & _ & _ & P3 & _ & _).
    cbn [c_roundActive c_roundStartTime c_physicsInterval] in R3, S3, P3.
    split; [congruence|]. split; [congruence|]. split; [congruence|].
    split; [lia|]. split; [exact R3|]. split; [exact S3|]. congruence.
Qed.

Lemma countdown_runs_down_witness :
  Net.isHost (Net.startGame 2000 lobbyTwo) = true
  /\ Net.countdown (Net.startGame 2000 lobbyTwo) = 3
  /\ Net.roundActive roundStarted = true
  /\ Net.roundStartTime roundStarted = Some 5000.
Proof.
  destruct countdown_runs_down as (_ & _ & H3).
  assert (H : Net.isHost (Net.startGame 2000 lobbyTwo) = true) by (vm_compute; reflexivity).
  assert (C : Net.countdown (Net.startGame 2000 lobbyTwo) = 3) by (vm_compute; reflexivity).
  destruct (H3 1%nat 3000 4000 5000 (Net.startGame 2000 lobbyTwo) H C)
    as (_ & _ & _ & _ & R & T & _).
  split; [exact H|]. split; [exact C|]. split; [exact R | exact T].
Defined.

(** * Steering: from the keys to the heading *)

Lemma set_players_same (s : Net.t) : Net.set_players (Net.players s) s = s.
Proof. destruct s. reflexivity. Qed.

Lemma turnDirection_range (keysDown : list string) :
  -1 <= Client.turnDirection keysDown <= 1.
Proof.
  unfold Client.turnDirection. cbv zeta.
  destruct (_ || _ || _), (_ || _ || _); cbn; lia.
Qed.

Lemma movePlayer_angle {M : MathLib} (g : Game.Globals) (p : Player.t) (speed : Q) :
  Player.angle (snd (Game.movePlayer g p speed))
  = (Player.angle p + inject_Z (Player.turning p) * TURN_SPEED)%Q.
Proof.
  unfold Game.movePlayer. cbv zeta.
  destruct (Game.trailPush g _ _ _) as [g2 p2] eqn:E.
  assert (A : Player.angle p2 = Game.nextAngle p).
  { replace p2 with (snd (Game.trailPush g
                            (Player.set_pose (Game.nextX p speed) (Game.nextY p speed)
                               (Game.nextAngle p) p)
                            (Game.nextX p speed) (Game.nextY p speed)))
      by (cbn [Player.x Player.y Player.set_pose] in E; rewrite E; reflexivity).
    unfold Game.trailPush. destruct (_ <? _); reflexivity. }
  destruct (Game.outOfBounds _ _); cbn [snd]; exact A.
Qed.

(** X8.  The path of a steering input.  The direction client.js
    computes from the keys held down is -1, 0 or 1, and 0 when a left key
    and a right key are held together.  On the host [sendInput] writes
    the direction to its own competitor and sends nothing; on a
    participant it changes no competitor and sends one [input] message to
    the host when the connection is open, nothing otherwise.  The host
    applies an [input] message to the competitor the message names,
    whichever connection it came from, and to nobody else; an identifier
    it does not know, and any [input] message on a participant, change
    nothing.  The next [movePlayer] turns the heading by the direction
    times [TURN_SPEED].  The update [getPlayerUpdate] makes of a
    competitor, applied by [applyPlayerUpdate], gives the turn intent of
    that competitor to the copy stored under its identifier. *)
Theorem steering_input_path :
  (forall keysDown : list string,
     -1 <= Client.turnDirection keysDown <= 1
     /\ (Client.has keysDown "ArrowLeft" || Client.has keysDown "a"
         || Client.has keysDown "A"
         = (Client.has keysDown "ArrowRight" || Client.has keysDown "d"
            || Client.has keysDown "D") ->
         Client.turnDirection keysDown = 0))
  /\ (forall (myId hostId : string) (dir : Z) (s : Net.t) (p : Player.t),
        Net.isHost s = true -> pget myId (Net.players s) = Some p ->
        pget myId (Net.players (Net.sendInput myId hostId dir s))
        = Some (Player.set_turning dir p)
        /\ (forall k, k <> myId ->
              pget k (Net.players (Net.sendInput myId hostId dir s))
              = pget k (Net.players s))
        /\ Net.log (Net.sendInput myId hostId dir s) = Net.log s)
  /\ (forall (myId hostId : string) (dir : Z) (c : Net.t),
        Net.isHost c = false ->
        Net.players (Net.sendInput myId hostId dir c) = Net.players c
        /\ Net.log (Net.sendInput myId hostId dir c)
           = Net.log c
             ++ (if bool_decide (Net.connGet hostId (Net.connections c) = Some true)
                 then [Net.Send hostId (Net.MsgInput myId dir)] else []))
  /\ (forall (now : Z) (conn uid : string) (dir : Z) (s : Net.t),
        Net.isHost s = true ->
        control (Net.handleMessage now conn (Net.MsgInput uid dir) s) = control s
        /\ Net.log (Net.handleMessage now conn (Net.MsgInput uid dir) s) = Net.log s
        /\ (forall k, k <> uid ->
              pget k (Net.players (Net.handleMessage now conn (Net.MsgInput uid dir) s))
              = pget k (Net.players s))
        /\ pget uid (Net.players (Net.handleMessage now conn (Net.MsgInput uid dir) s))
           = option_map (Player.set_turning dir) (pget uid (Net.players s))
        /\ (pget uid (Net.players s) = None ->
            Net.handleMessage now conn (Net.MsgInput uid dir) s = s))
  /\ (forall (now : Z) (conn uid : string) (dir : Z) (c : Net.t),
        Net.isHost c = false ->
        Net.handleMessage now conn (Net.MsgInput uid dir) c = c)
  /\ (forall (M : MathLib) (g : Game.Globals) (p : Player.t) (dir : Z) (speed : Q),
        Player.angle (snd (Game.movePlayer g (Player.set_turning dir p) speed))
        = (Player.angle p + inject_Z dir * TURN_SPEED)%Q)
  /\ (forall (ms : Players) (p m : Player.t),
        pget (Player.id p) ms = Some m ->
        pget (Player.id p)
          (Game.applyPlayerUpdate ms (fst (Game.getPlayerUpdate p))
             (snd (Game.getPlayerUpdate p)))
        = Some (Player.set_turning (Player.turning p) m)).
Proof.
  split; [|split; [|split; [|split; [|split; [|split]]]]].
  - intros keysDown. split; [apply turnDirection_range|].
    intros L. unfold Client.turnDirection. cbv zeta. rewrite L.
    destruct (Client.has keysDown "ArrowRight" || Client.has keysDown "d"
              || Client.has keysDown "D"); reflexivity.
  - intros myId hostId dir s p H E. unfold Net.sendInput. rewrite H, E.
    cbn [Net.players Net.set_players Net.log].
    split; [apply pget_pset_eq|]. split; [|reflexivity].
    intros k Ne. apply pget_pset_ne. congruence.
  - intros myId hostId dir c H. unfold Net.sendInput. rewrite H.
    destruct (Net.connGet hostId (Net.connections c)) as [[|]|].
    + split; reflexivity.
    + split; [reflexivity | cbn; rewrite app_nil_r; reflexivity].
    + split; [reflexivity | cbn; rewrite app_nil_r; reflexivity].
  - intros now conn uid dir s H. cbn [Net.handleMessage]. rewrite H.
    unfold Game.applyPlayerUpdate.
    destruct (pget uid (Net.players s)) as [p|] eqn:E.
    + split; [reflexivity|]. split; [reflexivity|].
      cbn [Net.players Net.set_players]. split; [|split].
      * intros k Ne. apply pget_pset_ne. congruence.
      * apply pget_pset_eq.
      * discriminate.
    + rewrite set_players_same. repeat split; try reflexivity. exact E.
  - intros now conn uid dir c H. cbn [Net.handleMessage]. rewrite H. reflexivity.
  - intros M g p dir speed. apply (movePlayer_angle g (Player.set_turning dir p) speed).
  - intros ms p m E. unfold Game.getPlayerUpdate, Game.applyPlayerUpdate. cbn [fst snd].
    rewrite E. apply pget_pset_eq.
Qed.

Lemma steering_input_path_witness :
  Client.turnDirection ["ArrowLeft"; "d"]%string = 0
  /\ pget "1234" (Net.players (Net.sendInput "1234" "1234" (-1) lobbyTwo))
     = option_map (Player.set_turning (-1)) (pget "1234" (Net.players lobbyTwo))
  /\ Net.handleMessage 0 "peer-b" (Net.MsgInput "nobody" 1) lobbyTwo = lobbyTwo.
Proof.
  destruct steering_input_path as (Hdir & Hown & _ & Hmsg & _).
  split; [exact (proj2 (Hdir ["ArrowLeft"; "d"]%string) eq_refl)|]. split.
  - destruct (pget "1234" (Net.players lobbyTwo)) as [p|] eqn:E;
      [|vm_compute in E; discriminate E].
    exact (proj1 (Hown "1234"%string "1234"%string (-1) lobbyTwo p eq_refl E)).
  - apply (Hmsg 0 "peer-b"%string "nobody"%string 1 lobbyTwo eq_refl).
    vm_compute. reflexivity.
Defined.

(** * Joining and leaving *)

Lemma log_broadcastPlayerList (s : Net.t) :
  Net.isHost s = true ->
  Net.log (Net.broadcastPlayerList s)
  = Net.log s
    ++ sendsTo (Net.connections s) (Net.MsgPlayerList (playerList (Net.players s)))
    ++ [Net.Emit (Net.EvPlayerList (playerList (Net.players s)))].
Proof.
  intros H. unfold Net.broadcastPlayerList. rewrite H. cbn [negb].
  cbn [Net.log Net.emit Net.add_log Net.sendAll Net.connections].
  rewrite <- app_assoc. reflexivity.
Qed.

Lemma snapshot_fields (now : Z) (s : Net.t) :
  Game.st_p (snapshot now s)
  = map (fun kp => (fst kp, fst (Game.serializePlayer (negb (Game.staticSent (Net.game s)))
                                   (snd kp)))) (Net.players s)
  /\ Game.st_ra (snapshot now s) = Net.roundActive s
  /\ Game.st_cd (snapshot now s) = Net.countdown s
  /\ Game.st_rst (snapshot now s) = Net.roundStartTime s
  /\ Game.st_mw (snapshot now s) = Net.matchWinner s.
Proof.
  unfold snapshot. split; [apply serializeGameState_entries|].
  unfold Game.serializeGameState. destruct (Game.serializeLoop _ _).
  repeat split; reflexivity.
Qed.

Lemma name_it {A} (x : A) : exists y, y = x.
Proof. exists x. reflexivity. Qed.

(** [handleJoin] on the host in its stages, the two snapshots written
    with [snapshot]. *)
Lemma handleJoin_host (now : Z) (conn playerId : string) (name : JS.value)
    (s s1 s2 s3 s4 : Net.t) :
  Net.isHost s = true ->
  s1 = Net.resetStaticSent
         (Net.set_players
            (pset playerId
               (createPlayer playerId (Z.of_nat (length (keys (Net.players s)))) name)
               (Net.players s)) s) ->
  s2 = Net.add_log [Net.Send conn (Net.MsgInit playerId (snapshot now s1))]
         (Net.set_players (pmap afterSend (Net.players s1))
            (Net.set_game
               (snd (fst (Game.serializeGameState (Net.game s1) (Net.players s1)
                            (Net.roundActive s1) (Net.countdown s1)
                            (Net.roundStartTime s1) (Net.matchWinner s1) now))) s1)) ->
  s3 = (if Net.gameStarted s2
        then match pget playerId (Net.players s2) with
             | Some p =>
                 Net.set_players
                   (pset playerId (Player.set_alive false p) (Net.players s2)) s2
             | None => s2
             end
        else s2) ->
  s4 = Net.resetStaticSent
         (Net.broadcastPlayerList (Net.emit (Net.EvPlayerJoined playerId name) s3)) ->
  Net.handleJoin now conn playerId name s
  = Net.add_log [Net.Send conn (Net.MsgState (snapshot now s4))]
      (Net.set_players (pmap afterSend (Net.players s4))
         (Net.set_game
            (snd (fst (Game.serializeGameState (Net.game s4) (Net.players s4)
                         (Net.roundActive s4) (Net.countdown s4)
                         (Net.roundStartTime s4) (Net.matchWinner s4) now))) s4)).
Proof.
  intros H -> -> -> ->. unfold Net.handleJoin. rewrite H. cbn [negb]. cbv zeta.
  unfold snapshot.
  match goal with
  | |- context [Game.serializeGameState ?g ?ps ?ra ?cd ?rst ?mw now] =>
      rewrite <- (serializeGameState_pmap g ps ra cd rst mw now);
      destruct (Game.serializeGameState g ps ra cd rst mw now) as [[state1 g1] ps1]
  end.
  cbn [fst snd].
  match goal with
  | |- context [Game.serializeGameState ?g ?ps ?ra ?cd ?rst ?mw now] =>
      rewrite <- (serializeGameState_pmap g ps ra cd rst mw now);
      destruct (Game.serializeGameState g ps ra cd rst mw now) as [[state2 g2] ps2]
  end.
  reflexivity.
Qed.

Lemma pmap_pset (f : Player.t -> Player.t) (k : string) (v : Player.t) (ps : Players) :
  pmap f (pset k v ps) = pset k (f v) (pmap f ps).
Proof.
  induction ps as [|[k' q] r IH]; [reflexivity|].
  cbn [pset pmap map fst snd]. destruct (String.eqb k k').
  - reflexivity.
  - cbn [map fst snd]. f_equal. exact IH.
Qed.

Lemma playerList_afterSend (ps : Players) :
  playerList (pmap afterSend ps) = playerList ps.
Proof.
  unfold playerList, pmap. rewrite map_map. apply map_ext. intros [k p]. reflexivity.
Qed.

Lemma playerList_broadcast (s : Net.t) :
  Net.isHost s = true ->
  Net.broadcastPlayerList s
  = Net.emit (Net.EvPlayerList (playerList (Net.players s)))
      (Net.sendAll (Net.MsgPlayerList (playerList (Net.players s))) s).
Proof. intros H. unfold Net.broadcastPlayerList. rewrite H. reflexivity. Qed.



(** ** A connection closes *)

Lemma pget_pdel_eq (k : string) (ps : Players) : pget k (pdel k ps) = None.
Proof.
  unfold pdel. induction ps as [|[k' p] r IH]; [reflexivity|].
  cbn [List.filter fst]. destruct (String.eqb_spec k k') as [->|Ne]; cbn [negb].
  - exact IH.
  - cbn [pget]. destruct (String.eqb_spec k k') as [C|_]; [contradiction | exact IH].
Qed.

Lemma pget_pdel_ne (k k' : string) (ps : Players) :
  k' <> k -> pget k' (pdel k ps) = pget k' ps.
Proof.
  intros Ne. unfold pdel. induction ps as [|[k2 p] r IH]; [reflexivity|].
  cbn [List.filter fst pget]. destruct (String.eqb_spec k k2) as [->|N2]; cbn [negb].
  - destruct (String.eqb_spec k' k2) as [C|_]; [contradiction | exact IH].
  - cbn [pget]. destruct (String.eqb k' k2); [reflexivity | exact IH].
Qed.

Lemma keys_pdel (k : string) (ps : Players) :
  keys (pdel k ps) = List.filter (fun k' => negb (String.eqb k k')) (keys ps).
Proof.
  unfold pdel, keys. induction ps as [|[k' p] r IH]; [reflexivity|].
  cbn [List.filter map fst]. destruct (String.eqb k k'); cbn [negb map fst];
    [exact IH | f_equal; exact IH].
Qed.

Lemma connGet_filter_eq (k : string) (cs : list (string * bool)) :
  Net.connGet k (List.filter (fun c => negb (String.eqb k (fst c))) cs) = None.
Proof.
  induction cs as [|[k' o] r IH]; [reflexivity|].
  cbn [List.filter fst]. destruct (String.eqb_spec k k') as [->|Ne]; cbn [negb].
  - exact IH.
  - cbn [Net.connGet]. destruct (String.eqb_spec k k') as [C|_]; [contradiction | exact IH].
Qed.

Lemma connGet_filter_ne (k k' : string) (cs : list (string * bool)) :
  k' <> k ->
  Net.connGet k' (List.filter (fun c => negb (String.eqb k (fst c))) cs)
  = Net.connGet k' cs.
Proof.
  intros Ne. induction cs as [|[k2 o] r IH]; [reflexivity|].
  cbn [List.filter fst Net.connGet]. destruct (String.eqb_spec k k2) as [->|N2]; cbn [negb].
  - destruct (String.eqb_spec k' k2) as [C|_]; [contradiction | exact IH].
  - cbn [Net.connGet]. destruct (String.eqb k' k2); [reflexivity | exact IH].
Qed.

(** X16.  A connection of the host closes.  The competitor stored under
    the identifier of the peer and the connection are removed; every
    other competitor and connection, the order of the dictionary, the
    control fields of the life cycle (a running round keeps running and
    nobody loses a life), the module state and the trace are unchanged,
    so no message is sent to anyone; [playerLeft] is emitted with the
    identifier of the peer.  A snapshot taken afterwards has no entry for
    the competitor, and [applyGameState] of it leaves the copy a
    participant holds of that competitor as it was. *)
Theorem handleClose_removes (peer : string) (s : Net.t) :
  let s' := fst (Net.handleClose peer s) in
  snd (Net.handleClose peer s) = peer
  /\ pget peer (Net.players s') = None
  /\ (forall k, k <> peer -> pget k (Net.players s') = pget k (Net.players s))
  /\ keys (Net.players s')
     = List.filter (fun k => negb (String.eqb peer k)) (keys (Net.players s))
  /\ Net.connGet peer (Net.connections s') = None
  /\ (forall k, k <> peer ->
        Net.connGet k (Net.connections s') = Net.connGet k (Net.connections s))
  /\ control s' = control s
  /\ Net.game s' = Net.game s
  /\ Net.log s' = Net.log s
  /\ forall (now : Z) (ms : Players),
       pget peer (Game.applyGameState ms (snapshot now s')) = pget peer ms.
Proof.
  intros s'. subst s'. unfold Net.handleClose. cbn [fst snd].
  cbn [Net.players Net.connections Net.game Net.log Net.set_players Net.set_connections].
  split; [reflexivity|]. split; [apply pget_pdel_eq|].
  split; [intros k Ne; apply pget_pdel_ne; exact Ne|].
  split; [apply keys_pdel|]. split; [apply connGet_filter_eq|].
  split; [intros k Ne; apply connGet_filter_ne; exact Ne|].
  split; [reflexivity|]. split; [reflexivity|]. split; [reflexivity|].
  intros now ms. apply applyEntries_other.
  rewrite (proj1 (snapshot_fields now _)). rewrite map_map. cbn [fst].
  cbn [Net.players Net.set_players].
  change (map (fun x : string * Player.t => fst x) (pdel peer (Net.players s)))
    with (keys (pdel peer (Net.players s))).
  rewrite keys_pdel. intros I. apply List.filter_In in I. destruct I as [_ I].
  rewrite String.eqb_refl in I. discriminate I.
Qed.

Lemma handleClose_removes_witness :
  "1234"%string <> "peer-b"%string
  /\ pget "1234" (Net.players (fst (Net.handleClose "peer-b" lobbyTwo)))
     = pget "1234" (Net.players lobbyTwo)
  /\ pget "peer-b" (Net.players (fst (Net.handleClose "peer-b" lobbyTwo))) = None.
Proof.
  assert (N : "1234"%string <> "peer-b"%string) by discriminate.
  destruct (handleClose_removes "peer-b" lobbyTwo) as (_ & G & O & _).
  split; [exact N|]. split; [exact (O "1234"%string N) | exact G].
Defined.

(** ** Restart requests, and what the host accepts from a connection *)

(** X17.  A restart request and a state message on the host.
    [sendRestart] does nothing on the host and, on a participant, sends
    one [restart] message to the host when the connection is open.  The
    host answers a [restart] message from any connection with
    [startGame] when a match winner is set.  The cases [state] and [init]
    of [handleMessage] have no check of the role: also on the host a
    [state] message replaces round state and match winner by those of the
    message and applies its entries to the authoritative competitors.
    Hence a [state] message that names a winner, followed by [restart],
    makes the host start a new match whatever the state of the running
    one: countdown 3, round not active, winner cleared, the countdown
    interval created. *)
Theorem restart_and_state_messages :
  (forall (hostId : string) (s : Net.t),
     Net.isHost s = true -> Net.sendRestart hostId s = s)
  /\ (forall (hostId : string) (c : Net.t),
        Net.isHost c = false ->
        Net.players (Net.sendRestart hostId c) = Net.players c
        /\ control (Net.sendRestart hostId c) = control c
        /\ Net.log (Net.sendRestart hostId c)
           = Net.log c
             ++ (if bool_decide (Net.connGet hostId (Net.connections c) = Some true)
                 then [Net.Send hostId Net.MsgRestart] else []))
  /\ (forall (now : Z) (conn : string) (s : Net.t),
        Net.isHost s = true -> Net.truthy (Net.matchWinner s) = true ->
        Net.handleMessage now conn Net.MsgRestart s = Net.startGame now s)
  /\ (forall (now : Z) (conn : string) (st : Game.State) (s : Net.t),
        let s1 := Net.handleMessage now conn (Net.MsgState st) s in
        Net.players s1 = Game.applyGameState (Net.players s) st
        /\ control s1
           = {| c_isHost := Net.isHost s;
                c_roundActive := Game.st_ra st;
                c_countdown := Game.st_cd st;
                c_roundStartTime := Game.st_rst st;
                c_matchWinner := Game.st_mw st;
                c_gameStarted := Net.gameStarted s;
                c_physicsInterval := Net.physicsInterval s;
                c_timers := Net.timers s;
                c_nextTimer := Net.nextTimer s |})
  /\ (forall (now : Z) (conn : string) (st : Game.State) (s : Net.t),
        Net.isHost s = true ->
        Net.truthy (Game.st_mw st) = true ->
        2 <= Z.of_nat (length (keys (Game.applyGameState (Net.players s) st))) ->
        control
          (Net.handleMessage now conn Net.MsgRestart
             (Net.handleMessage now conn (Net.MsgState st) s))
        = {| c_isHost := true;
             c_roundActive := false;
             c_countdown := 3;
             c_roundStartTime := Game.st_rst st;
             c_matchWinner := None;
             c_gameStarted := true;
             c_physicsInterval := Net.physicsInterval s;
             c_timers := Net.timers s ++ [countdownTimer (Net.nextTimer s)];
             c_nextTimer := S (Net.nextTimer s) |}).
Proof.
  split; [|split; [|split; [|split]]].
  - intros hostId s H. unfold Net.sendRestart. rewrite H. reflexivity.
  - intros hostId c H. unfold Net.sendRestart. rewrite H. cbn [negb].
    destruct (Net.connGet hostId (Net.connections c)) as [[|]|];
      repeat split; try reflexivity; cbn; rewrite app_nil_r; reflexivity.
  - intros now conn s H T. cbn [Net.handleMessage]. rewrite H, T. reflexivity.
  - intros now conn st s s1. subst s1. split; reflexivity.
  - intros now conn st s H T L.
    destruct (name_it (Net.handleMessage now conn (Net.MsgState st) s)) as [s1 E1].
    rewrite <- E1.
    assert (H1 : Net.isHost s1 = true) by (rewrite E1; exact H).
    assert (T1 : Net.truthy (Net.matchWinner s1) = true) by (rewrite E1; exact T).
    assert (L1 : 2 <= Z.of_nat (length (keys (Net.players s1)))) by (rewrite E1; exact L).
    cbn [Net.handleMessage]. rewrite H1, T1. cbn [andb].
    rewrite (control_startGame now s1 H1 L1). rewrite E1. reflexivity.
Qed.

Lemma restart_and_state_messages_witness :
  Net.isHost lobbyTwo = true
  /\ Net.truthy (Some "peer-b"%string) = true
  /\ Net.gameStarted
       (Net.handleMessage 3000 "peer-b" Net.MsgRestart
          (Net.handleMessage 3000 "peer-b"
             (Net.MsgState
                {| Game.st_p := []; Game.st_ra := false; Game.st_cd := 0;
                   Game.st_rst := None; Game.st_mw := Some "peer-b"%string;
                   Game.st_t := 0 |})
             lobbyTwo)) = true.
Proof.
  destruct restart_and_state_messages as (_ & _ & _ & _ & F).
  assert (H : Net.isHost lobbyTwo = true) by reflexivity.
  split; [exact H|]. split; [reflexivity|].
  destruct (control_read _ _
              (F 3000 "peer-b"%string
                 {| Game.st_p := []; Game.st_ra := false; Game.st_cd := 0;
                    Game.st_rst := None; Game.st_mw := Some "peer-b"%string;
                    Game.st_t := 0 |}
                 lobbyTwo H eq_refl ltac:(vm_compute; discriminate)))
    as (_ & _ & _ & _ & _ & G & _).
  exact G.
Defined.

(** ** Disconnecting *)

(** X19.  [disconnect] stops the physics clock and empties the
    dictionary of competitors and the connections; it leaves the round
    and match flags and the pending countdown and restart timers as they
    are.  A countdown that was running on a host therefore still runs
    out: the firing that brings it to 0 starts a round on the empty
    dictionary and starts the physics clock again. *)
Theorem disconnect_leaves_timers :
  (forall s : Net.t,
     Net.players (Net.disconnect s) = []
     /\ Net.connections (Net.disconnect s) = []
     /\ control (Net.disconnect s)
        = {| c_isHost := Net.isHost s;
             c_roundActive := Net.roundActive s;
             c_countdown := Net.countdown s;
             c_roundStartTime := Net.roundStartTime s;
             c_matchWinner := Net.matchWinner s;
             c_gameStarted := Net.gameStarted s;
             c_physicsInterval := None;
             c_timers := Net.timers s;
             c_nextTimer := Net.nextTimer s |})
  /\ (forall (h : nat) (now : Z) (s : Net.t),
        Net.isHost s = true -> Net.countdown s <= 1 ->
        In (countdownTimer h) (Net.timers s) ->
        In (countdownTimer h) (Net.timers (Net.disconnect s))
        /\ Net.physicsInterval (Net.countdownTick h now (Net.disconnect s))
           = Some (Net.nextTimer s)
        /\ Net.roundActive (Net.countdownTick h now (Net.disconnect s)) = true
        /\ Net.players (Net.countdownTick h now (Net.disconnect s)) = []).
Proof.
  assert (D : forall s : Net.t,
             Net.players (Net.disconnect s) = []
             /\ Net.connections (Net.disconnect s) = []
             /\ control (Net.disconnect s)
                = {| c_isHost := Net.isHost s;
                     c_roundActive := Net.roundActive s;
                     c_countdown := Net.countdown s;
                     c_roundStartTime := Net.roundStartTime s;
                     c_matchWinner := Net.matchWinner s;
                     c_gameStarted := Net.gameStarted s;
                     c_physicsInterval := None;
                     c_timers := Net.timers s;
                     c_nextTimer := Net.nextTimer s |}).
  { intros s. unfold Net.disconnect, Net.stopPhysicsLoop.
    destruct (Net.physicsInterval s) eqn:E; repeat split; try reflexivity.
    unfold control. cbn. rewrite E. reflexivity. }
  split; [exact D|].
  intros h now s H C I.
  destruct (D s) as (P & _ & Ct).
  destruct (control_read _ _ Ct) as (H' & _ & C' & _ & _ & _ & _ & T' & N').
  cbn [c_isHost c_countdown c_timers c_nextTimer] in H', C', T', N'.
  destruct (name_it (Net.disconnect s)) as [d Ed]. rewrite <- Ed in *.
  assert (Hd : Net.isHost d = true) by congruence.
  assert (Cd : Net.countdown d <= 1) by lia.
  split; [rewrite T'; exact I|].
  destruct (control_read _ _ (control_countdownTick_go h now d Hd Cd))
    as (_ & R & _ & _ & _ & _ & Ph & _).
  cbn [c_roundActive c_physicsInterval] in R, Ph.
  split; [rewrite Ph, N'; reflexivity|]. split; [exact R|].
  rewrite (countdownTick_go h now d Hd Cd).
  destruct (name_it (Net.clearTimer h
                       (Net.broadcastState now
                          (Net.resetStaticSent
                             (Net.set_countdown (Net.countdown d - 1) d)))))
    as [d2 E2]. rewrite <- E2.
  assert (H2 : Net.isHost d2 = true).
  { rewrite E2. change (c_isHost (control (Net.broadcastState now
                           (Net.resetStaticSent
                              (Net.set_countdown (Net.countdown d - 1) d)))) = true).
    rewrite control_broadcastState. exact Hd. }
  assert (P2 : Net.players d2 = []).
  { rewrite E2. cbn [Net.players Net.clearTimer Net.set_timers].
    rewrite players_broadcastState by exact Hd.
    cbn [Net.players Net.resetStaticSent Net.set_game Net.set_countdown].
    rewrite P. reflexivity. }
  destruct (startRound_host now d2 H2) as (_ & _ & Ps & _).
  rewrite Ps, P2. reflexivity.
Qed.

Lemma disconnect_leaves_timers_witness :
  Net.isHost (Net.set_countdown 1 (Net.startGame 2000 lobbyTwo)) = true
  /\ In (countdownTimer 1)
        (Net.timers (Net.set_countdown 1 (Net.startGame 2000 lobbyTwo)))
  /\ Net.roundActive
       (Net.countdownTick 1 5000
          (Net.disconnect (Net.set_countdown 1 (Net.startGame 2000 lobbyTwo)))) = true.
Proof.
  destruct disconnect_leaves_timers as [_ T].
  assert (H : Net.isHost (Net.set_countdown 1 (Net.startGame 2000 lobbyTwo)) = true)
    by (vm_compute; reflexivity).
  assert (I : In (countdownTimer 1)
                (Net.timers (Net.set_countdown 1 (Net.startGame 2000 lobbyTwo))))
    by (vm_compute; left; reflexivity).
  split; [exact H|]. split; [exact I|].
  destruct (T 1%nat 5000 (Net.set_countdown 1 (Net.startGame 2000 lobbyTwo)) H
              ltac:(cbn; lia) I) as (_ & _ & R & _).
  exact R.
Defined.

(** * The dictionary of a participant *)

Lemma receivePlayerList_keep (list : list (string * Net.ListEntry)) (ps : Players)
    (k : string) :
  pget k ps <> None -> pget k (Net.receivePlayerList list ps) <> None.
Proof.
  unfold Net.receivePlayerList. revert ps.
  induction list as [|[id e] r IH]; intros ps H; cbn [fold_left]; [exact H|].
  apply IH. destruct (pget id ps); apply pget_pset_keeps; exact H.
Qed.

Lemma receivePlayerList_known (list : list (string * Net.ListEntry)) (ps : Players)
    (k : string) (p : Player.t) :
  pget k ps = Some p ->
  exists q, pget k (Net.receivePlayerList list ps) = Some q
            /\ Player.set_alive (Player.alive p)
                 (Player.set_lives (Player.lives p) (Player.set_score (Player.score p) q))
               = p.
Proof.
  unfold Net.receivePlayerList. revert ps p.
  induction list as [|[id e] r IH]; intros ps p E; cbn [fold_left].
  - exists p. split; [exact E|]. destruct p. reflexivity.
  - destruct (String.eqb_spec id k) as [->|Ne].
    + rewrite E.
      destruct (IH (pset k (Player.set_alive (Net.le_alive e)
                              (Player.set_lives (Net.le_lives e)
                                 (Player.set_score (Net.le_score e) p))) ps)
                  _ (pget_pset_eq _ _ _)) as (q & Eq & Q).
      exists q. split; [exact Eq|].
      apply (f_equal (fun x => Player.set_alive (Player.alive p)
                                 (Player.set_lives (Player.lives p)
                                    (Player.set_score (Player.score p) x)))) in Q.
      etransitivity; [|etransitivity; [exact Q|]].
      * destruct q. reflexivity.
      * destruct p. reflexivity.
    + assert (E' : forall v, pget k (pset id v ps) = Some p)
        by (intros v; rewrite pget_pset_ne by exact Ne; exact E).
      destruct (pget id ps); apply IH; apply E'.
Qed.

(** X20.  A participant never forgets a competitor.  Whatever message
    arrives at an instance that is not the host, every competitor of its
    dictionary is still in the dictionary afterwards; there is no message
    by which the host tells a participant that a competitor has left.  A
    [playerList] message changes nothing of a competitor the participant
    knows but score, lives and the alive flag, and is ignored by the
    host; [join], [input] and [restart] messages change nothing on a
    participant. *)
Theorem participant_never_forgets :
  (forall (now : Z) (conn : string) (data : Net.Message) (c : Net.t) (k : string),
     Net.isHost c = false ->
     pget k (Net.players c) <> None ->
     pget k (Net.players (Net.handleMessage now conn data c)) <> None)
  /\ (forall (now : Z) (conn : string) (state : Game.State) (c : Net.t) (k : string),
        pget k (Net.players c) <> None ->
        pget k (Net.players (Client.receiveStateMessage now conn state c)) <> None)
  /\ (forall (now : Z) (conn : string) (list : list (string * Net.ListEntry))
             (c : Net.t) (k : string) (p : Player.t),
        Net.isHost c = false ->
        pget k (Net.players c) = Some p ->
        exists q,
          pget k (Net.players (Net.handleMessage now conn (Net.MsgPlayerList list) c))
          = Some q
          /\ Player.set_alive (Player.alive p)
               (Player.set_lives (Player.lives p) (Player.set_score (Player.score p) q))
             = p)
  /\ (forall (now : Z) (conn : string) (list : list (string * Net.ListEntry))
             (s : Net.t),
        Net.isHost s = true ->
        Net.handleMessage now conn (Net.MsgPlayerList list) s = s)
  /\ (forall (now : Z) (conn : string) (c : Net.t),
        Net.isHost c = false ->
        (forall pid name, Net.handleMessage now conn (Net.MsgJoin pid name) c = c)
        /\ (forall uid dir, Net.handleMessage now conn (Net.MsgInput uid dir) c = c)
        /\ Net.handleMessage now conn Net.MsgRestart c = c).
Proof.
  split; [|split; [|split; [|split]]].
  - intros now conn data c k H E.
    destruct data as [pid name | pid st | | st | list | | uid tu];
      cbn [Net.handleMessage]; rewrite ?H; cbn [negb andb].
    + unfold Net.handleJoin. rewrite H. exact E.
    + apply applyEntries_keep. exact E.
    + exact E.
    + apply applyEntries_keep. exact E.
    + apply receivePlayerList_keep. exact E.
    + exact E.
    + exact E.
  - intros now conn state c k E.
    unfold Client.receiveStateMessage, Client.onStateUpdate. cbn [Net.handleMessage].
    change (Net.isHost (Net.emit (Net.EvStateUpdate state) (Net.receiveState state c)))
      with (Net.isHost c).
    destruct (Net.isHost c); cbn [negb].
    + apply applyEntries_keep. exact E.
    + apply applyEntries_keep. apply applyEntries_keep. exact E.
  - intros now conn list c k p H E. cbn [Net.handleMessage]. rewrite H. cbn [negb].
    apply receivePlayerList_known. exact E.
  - intros now conn list s H. cbn [Net.handleMessage]. rewrite H. reflexivity.
  - intros now conn c H. split; [|split].
    + intros pid name. cbn [Net.handleMessage]. unfold Net.handleJoin. rewrite H.
      reflexivity.
    + intros uid dir. cbn [Net.handleMessage]. rewrite H. reflexivity.
    + cbn [Net.handleMessage]. rewrite H. reflexivity.
Qed.

Lemma participant_never_forgets_witness :
  Net.isHost participant = false
  /\ pget "host" (Net.players participant) <> None
  /\ pget "host"
       (Net.players
          (Net.handleMessage 2000 "host" (Net.MsgPlayerList []) participant)) <> None.
Proof.
  destruct participant_never_forgets as (K & _).
  assert (H : Net.isHost participant = false) by reflexivity.
  assert (E : pget "host" (Net.players participant) <> None) by discriminate.
  split; [exact H|]. split; [exact E|].
  exact (K 2000 "host"%string (Net.MsgPlayerList []) participant "host"%string H E).
Defined.

(** * One step of a competitor, one tick of the host *)

Lemma trailPush_standing (g : Game.Globals) (p : Player.t) (x y : Q) :
  sameStanding p (snd (Game.trailPush g p x y))
  /\ Player.angle (snd (Game.trailPush g p x y)) = Player.angle p.
Proof.
  unfold Game.trailPush. destruct (_ <? _); repeat split; reflexivity.
Qed.

Lemma sameButSent_refl (p : Player.t) : sameButSent p p.
Proof. destruct p. reflexivity. Qed.

Lemma sameButSent_afterSend (p q : Player.t) :
  sameButSent p q -> sameButSent p (afterSend q).
Proof. intros ->. reflexivity. Qed.

Lemma pmap_id (ps : Players) : pmap (fun p => p) ps = ps.
Proof.
  induction ps as [|[k p] r IH]; [reflexivity|].
  cbn [pmap map fst snd]. f_equal. exact IH.
Qed.

Section Step.
Context {M : MathLib}.

Lemma movePlayer_eq (g : Game.Globals) (p : Player.t) (speed : Q) :
  snd (Game.movePlayer g p speed)
  = let p2 := snd (Game.trailPush g
                     (Player.set_pose (Game.nextX p speed) (Game.nextY p speed)
                        (Game.nextAngle p) p)
                     (Game.nextX p speed) (Game.nextY p speed)) in
    if Game.outOfBounds (Game.nextX p speed) (Game.nextY p speed)
    then Player.set_alive false p2 else p2.
Proof.
  unfold Game.movePlayer. cbv zeta.
  set (p1 := Player.set_pose (Game.nextX p speed) (Game.nextY p speed)
               (Game.nextAngle p) p).
  change (Player.x p1) with (Game.nextX p speed).
  change (Player.y p1) with (Game.nextY p speed).
  destruct (trailPush_pose g p1 (Game.nextX p speed) (Game.nextY p speed))
    as (X & Y & _).
  destruct (Game.trailPush g p1 (Game.nextX p speed) (Game.nextY p speed))
    as [g2 p2].
  cbn [snd] in *. rewrite X, Y.
  change (Player.x p1) with (Game.nextX p speed).
  change (Player.y p1) with (Game.nextY p speed).
  destruct (Game.outOfBounds _ _); reflexivity.
Qed.

Lemma movePlayer_standing (g : Game.Globals) (p : Player.t) (speed : Q) :
  sameStanding p (snd (Game.movePlayer g p speed)).
Proof.
  rewrite movePlayer_eq. cbv zeta.
  destruct (trailPush_standing g
              (Player.set_pose (Game.nextX p speed) (Game.nextY p speed)
                 (Game.nextAngle p) p)
              (Game.nextX p speed) (Game.nextY p speed)) as [S _].
  destruct (Game.outOfBounds _ _); exact S.
Qed.


End Step.


(** ** The bookkeeping of a tick *)

Lemma pget_loseLives (before ps : Players) (k : string) :
  pget k (Net.loseLives before ps)
  = option_map
      (fun p => if Net.wasAlive before k && negb (Player.alive p)
                then Player.set_lives (Z.max 0 (Player.lives p - 1)) p else p)
      (pget k ps).
Proof.
  unfold Net.loseLives. induction ps as [|[k' q] r IH]; [reflexivity|].
  cbn [map pget].
  destruct (String.eqb_spec k k') as [->|Ne].
  - destruct (Net.wasAlive before k' && negb (Player.alive q)) eqn:B;
      cbn [pget option_map]; rewrite String.eqb_refl, B; reflexivity.
  - destruct (Net.wasAlive before k' && negb (Player.alive q)); cbn [pget];
      (destruct (String.eqb_spec k k') as [C|_]; [contradiction|]); exact IH.
Qed.

Lemma keys_loseLives (before ps : Players) : keys (Net.loseLives before ps) = keys ps.
Proof.
  unfold Net.loseLives, keys. rewrite map_map. apply map_ext.
  intros [k p]. destruct (_ && _); reflexivity.
Qed.

Lemma players_roundEnd (now : Z) (s : Net.t) :
  Net.isHost s = true ->
  Net.players (Net.roundEnd now s) = pmap afterSend (Net.players s).
Proof.
  intros H. unfold Net.roundEnd. cbv zeta.
  set (s1 := Net.stopPhysicsLoop (Net.set_roundActive false s)).
  assert (P1 : Net.players s1 = Net.players s).
  { subst s1. unfold Net.stopPhysicsLoop. cbn. destruct (Net.physicsInterval s); reflexivity. }
  assert (H1 : Net.isHost s1 = true).
  { subst s1. unfold Net.stopPhysicsLoop. cbn. destruct (Net.physicsInterval s); exact H. }
  rewrite P1.
  destruct (Z.of_nat (length (Net.withLives (Net.players s))) <=? 1).
  - rewrite players_broadcastState.
    + rewrite players_broadcastPlayerList.
      destruct (Z.of_nat (length (Net.withLives (Net.players s))) =? 1); exact
        (f_equal (pmap afterSend) P1).
    + change (c_isHost (control (Net.broadcastPlayerList
                (Net.resetStaticSent
                   (if Z.of_nat (length (Net.withLives (Net.players s))) =? 1
                    then Net.set_matchWinner (last (Net.withLives (Net.players s))) s1
                    else s1)))) = true).
      rewrite control_broadcastPlayerList.
      destruct (Z.of_nat (length (Net.withLives (Net.players s))) =? 1); exact H1.
  - change (Net.players (Net.addTimer Net.AutoRestartTimeout 3000 ?x))
      with (Net.players x).
    rewrite players_broadcastState.
    + rewrite players_broadcastPlayerList. exact (f_equal (pmap afterSend) P1).
    + change (c_isHost (control (Net.broadcastPlayerList (Net.resetStaticSent s1)))
              = true).
      rewrite control_broadcastPlayerList. exact H1.
Qed.

Section Bookkeeping.
Context {M : MathLib}.

Lemma pget_moveAll_any (speed : Q) (g : Game.Globals) (ps : Players) (k : string)
    (p : Player.t) :
  pget k ps = Some p ->
  exists g', pget k (snd (Net.moveAll speed g ps))
             = Some (if Player.alive p then snd (Game.movePlayer g' p speed) else p).
Proof.
  revert g. induction ps as [|[k' q] r IH]; intros g E; [discriminate|].
  cbn [Net.moveAll]. cbn [pget] in E.
  destruct (String.eqb k k') eqn:K.
  - injection E as ->.
    destruct (Player.alive p) eqn:A.
    + destruct (Game.movePlayer g p speed) as [g1 p1] eqn:Em.
      destruct (Net.moveAll speed g1 r) as [g2 r1].
      exists g. cbn [snd pget]. rewrite K, Em. reflexivity.
    + destruct (Net.moveAll speed g r) as [g2 r1].
      exists g. cbn [snd pget]. rewrite K. reflexivity.
  - destruct (if Player.alive q then Game.movePlayer g q speed else (g, q)) as [g1 q1].
    destruct (IH g1 E) as [g' E'].
    destruct (Net.moveAll speed g1 r) as [g2 r1].
    exists g'. cbn [snd pget] in *. rewrite K. exact E'.
Qed.

Lemma players_tickLives (now : Z) (s : Net.t) :
  Net.players (Net.tickLives now s)
  = Net.loseLives (Net.players s) (snd (Net.tickCollide now s)).
Proof.
  unfold Net.tickLives. destruct (Net.tickCollide now s) as [g2 ps2]. reflexivity.
Qed.

Lemma tickCounter_tickLives (now : Z) (s : Net.t) :
  Net.tickCounter (Net.tickLives now s) = Net.tickCounter s.
Proof.
  unfold Net.tickLives. destruct (Net.tickCollide now s) as [g2 ps2]. reflexivity.
Qed.

Lemma tickCounter_broadcastState (now : Z) (s : Net.t) :
  Net.tickCounter (Net.broadcastState now s) = Net.tickCounter s.
Proof.
  unfold Net.broadcastState. destruct (negb (Net.isHost s)); [reflexivity|].
  destruct (Game.serializeGameState _ _ _ _ _ _ _) as [[state g1] ps1]. reflexivity.
Qed.

Lemma tickCounter_roundEnd (now : Z) (s : Net.t) :
  Net.tickCounter (Net.roundEnd now s) = Net.tickCounter s.
Proof.
  unfold Net.roundEnd. cbv zeta.
  set (s1 := Net.stopPhysicsLoop (Net.set_roundActive false s)).
  assert (T1 : Net.tickCounter s1 = Net.tickCounter s).
  { subst s1. unfold Net.stopPhysicsLoop. cbn. destruct (Net.physicsInterval s); reflexivity. }
  assert (B : forall x, Net.tickCounter (Net.broadcastPlayerList x) = Net.tickCounter x).
  { intros x. unfold Net.broadcastPlayerList. destruct (negb (Net.isHost x)); reflexivity. }
  destruct (Z.of_nat (length (Net.withLives (Net.players s1))) <=? 1).
  - rewrite tickCounter_broadcastState, B.
    destruct (Z.of_nat (length (Net.withLives (Net.players s1))) =? 1); exact T1.
  - change (Net.tickCounter (Net.addTimer Net.AutoRestartTimeout 3000 ?x))
      with (Net.tickCounter x).
    rewrite tickCounter_broadcastState, B. exact T1.
Qed.

(** The competitors at the end of a tick are those the life bookkeeping
    leaves, with their unsent samples marked sent when the tick ended the
    round or was a tick of the periodic broadcast. *)
Lemma players_physicsTick (now : Z) (s : Net.t) :
  Net.isHost s = true -> Net.roundActive s = true ->
  let ended := Net.aliveCount (Net.players (Net.tickLives now s)) <=? 1 in
  let flush := Net.tickCounter s + 1 >=? Net.BROADCAST_EVERY in
  Net.players (Net.physicsTick now s)
  = (if ended || flush then pmap afterSend (Net.players (Net.tickLives now s))
     else Net.players (Net.tickLives now s))
  /\ Net.tickCounter (Net.physicsTick now s)
     = (if flush then 0 else Net.tickCounter s + 1).
Proof.
  intros H R ended flush. unfold Net.physicsTick. rewrite H, R. cbn [negb orb].
  cbv zeta. fold ended.
  set (s1 := Net.tickLives now s).
  assert (H1 : Net.isHost s1 = true).
  { change (c_isHost (control s1) = true). subst s1. rewrite control_tickLives. exact H. }
  set (s2 := if ended then Net.roundEnd now s1 else s1).
  assert (H2 : Net.isHost s2 = true).
  { change (c_isHost (control s2) = true). subst s2. destruct ended; [|exact H1].
    rewrite control_roundEnd. exact H1. }
  assert (P2 : Net.players s2
               = if ended then pmap afterSend (Net.players s1) else Net.players s1).
  { subst s2. destruct ended; [apply players_roundEnd; exact H1 | reflexivity]. }
  assert (T2 : Net.tickCounter s2 = Net.tickCounter s).
  { subst s2. destruct ended; [rewrite tickCounter_roundEnd|];
      apply tickCounter_tickLives. }
  cbn [Net.tickCounter Net.set_tickCounter]. rewrite T2. fold flush.
  destruct flush.
  - split; [|rewrite tickCounter_broadcastState; reflexivity].
    rewrite players_broadcastState by exact H2.
    cbn [Net.players Net.set_tickCounter]. rewrite P2.
    destruct ended; cbn [orb]; [|reflexivity].
    rewrite pmap_pmap. reflexivity.
  - split; [|reflexivity].
    cbn [Net.players Net.set_tickCounter]. rewrite P2, orb_false_r. reflexivity.
Qed.

(** X14.  The bookkeeping of a physics tick on the host, for a running
    round.  The tick keeps the keys of the dictionary and their order.
    For every competitor: the score, name, colour and identity are
    unchanged; the lives go down by exactly 1, not below 0, when the
    competitor was alive before the tick and is not alive after it, and
    are unchanged otherwise; nobody comes back to life; and a competitor
    that was not alive before the tick is not moved or changed at all,
    apart from [trailSentCount].  The tick counter goes up by 1 and back
    to 0 on reaching [BROADCAST_EVERY]; on that tick, and on a tick that
    ends the round, every competitor has all its trail samples marked
    sent. *)
Theorem physicsTick_bookkeeping (now : Z) (s : Net.t) :
  Net.isHost s = true -> Net.roundActive s = true ->
  let s' := Net.physicsTick now s in
  keys (Net.players s') = keys (Net.players s)
  /\ (forall k p,
        pget k (Net.players s) = Some p ->
        exists p',
          pget k (Net.players s') = Some p'
          /\ Player.id p' = Player.id p /\ Player.name p' = Player.name p
          /\ Player.color p' = Player.color p /\ Player.score p' = Player.score p
          /\ Player.lives p'
             = (if Player.alive p && negb (Player.alive p')
                then Z.max 0 (Player.lives p - 1) else Player.lives p)
          /\ (Player.alive p' = true -> Player.alive p = true)
          /\ (Player.alive p = false -> sameButSent p p'))
  /\ Net.tickCounter s'
     = (if Net.tickCounter s + 1 >=? Net.BROADCAST_EVERY then 0
        else Net.tickCounter s + 1)
  /\ (Net.tickCounter s + 1 >= Net.BROADCAST_EVERY \/ Net.roundActive s' = false ->
      forall k p', pget k (Net.players s') = Some p' ->
                   Player.trailSentCount p' = Player.trailLen p').
Proof.
  intros H R s'. subst s'.
  destruct (players_physicsTick now s H R) as [P T]. cbv zeta in P, T.
  set (ended := Net.aliveCount (Net.players (Net.tickLives now s)) <=? 1) in *.
  set (flush := Net.tickCounter s + 1 >=? Net.BROADCAST_EVERY) in *.
  assert (PL := players_tickLives now s).
  unfold Net.tickCollide, Net.tickMove in PL.
  set (speed := getGameSpeed (Net.roundStartTime s) now) in *.
  destruct (Net.moveAll speed (Net.game s) (Net.players s)) as [g1 ps1] eqn:Em.
  assert (K1 : keys ps1 = keys (Net.players s)).
  { change ps1 with (snd (g1, ps1)). rewrite <- Em. apply keys_moveAll. }
  destruct (checkCollisions_frame g1 ps1) as [K2 F2].
  set (ps2 := snd (Game.checkCollisions g1 ps1)) in *.
  assert (K3 : keys (Net.players (Net.tickLives now s)) = keys (Net.players s)).
  { rewrite PL, keys_loseLives, K2. exact K1. }
  split; [|split; [|split]].
  - rewrite P. destruct (ended || flush); [rewrite keys_pmap|]; exact K3.
  - intros k p E.
    destruct (pget_moveAll_any speed (Net.game s) (Net.players s) k p E) as [g' E1].
    rewrite Em in E1. cbn [snd] in E1.
    set (p1 := if Player.alive p then snd (Game.movePlayer g' p speed) else p) in *.
    destruct (F2 k p1 E1) as (p2 & E2 & D2).
    assert (S1 : sameStanding p p1).
    { subst p1. destruct (Player.alive p); [apply movePlayer_standing|].
      repeat split; reflexivity. }
    assert (S2 : sameStanding p p2).
    { destruct D2 as [->| ->]; [exact S1|].
      destruct S1 as (A & B & C & D & F & G & I). repeat split; assumption. }
    assert (W : Net.wasAlive (Net.players s) k = Player.alive p).
    { unfold Net.wasAlive. rewrite E. reflexivity. }
    set (p3 := if Player.alive p && negb (Player.alive p2)
               then Player.set_lives (Z.max 0 (Player.lives p2 - 1)) p2 else p2).
    assert (E3 : pget k (Net.players (Net.tickLives now s)) = Some p3).
    { rewrite PL, pget_loseLives, E2, W. reflexivity. }
    assert (A3 : Player.alive p3 = Player.alive p2).
    { subst p3. destruct (_ && _); reflexivity. }
    assert (Dead : Player.alive p = false -> p3 = p).
    { intros A. subst p3 p1. rewrite A in *. cbn [andb].
      destruct D2 as [->| ->]; [reflexivity|].
      destruct p. cbn in A. subst. reflexivity. }
    assert (Back : Player.alive p2 = true -> Player.alive p = true).
    { intros A2. destruct (Player.alive p) eqn:A; [reflexivity|].
      rewrite <- A3, (Dead eq_refl) in A2. congruence. }
    destruct S2 as (I2 & N2 & Sc2 & L2 & C2 & _ & _).
    assert (St3 : Player.id p3 = Player.id p /\ Player.name p3 = Player.name p
                  /\ Player.color p3 = Player.color p
                  /\ Player.score p3 = Player.score p
                  /\ Player.lives p3
                     = (if Player.alive p && negb (Player.alive p3)
                        then Z.max 0 (Player.lives p - 1) else Player.lives p)).
    { rewrite A3. subst p3. destruct (Player.alive p && negb (Player.alive p2));
        cbn [Player.id Player.name Player.color Player.score Player.lives
             Player.set_lives]; rewrite ?L2; repeat split; assumption. }
    rewrite <- A3 in Back. clearbody p3.
    destruct St3 as (I3 & N3 & C3 & Sc3 & L3).
    assert (G : forall f, (forall q, sameButSent q (f q)) ->
                pget k (pmap f (Net.players (Net.tickLives now s))) = Some (f p3) ->
                exists p',
                  pget k (pmap f (Net.players (Net.tickLives now s))) = Some p'
                  /\ Player.id p' = Player.id p /\ Player.name p' = Player.name p
                  /\ Player.color p' = Player.color p
                  /\ Player.score p' = Player.score p
                  /\ Player.lives p'
                     = (if Player.alive p && negb (Player.alive p')
                        then Z.max 0 (Player.lives p - 1) else Player.lives p)
                  /\ (Player.alive p' = true -> Player.alive p = true)
                  /\ (Player.alive p = false -> sameButSent p p')).
    { intros f Hf Ef. exists (f p3). split; [exact Ef|].
      pose proof (Hf p3) as Q.
      assert (Fi : Player.id (f p3) = Player.id p3 /\ Player.name (f p3) = Player.name p3
                   /\ Player.color (f p3) = Player.color p3
                   /\ Player.score (f p3) = Player.score p3
                   /\ Player.lives (f p3) = Player.lives p3
                   /\ Player.alive (f p3) = Player.alive p3).
      { rewrite Q. repeat split; reflexivity. }
      destruct Fi as (Q1 & Q2 & Q3 & Q4 & Q5 & Q6).
      rewrite Q1, Q2, Q3, Q4, Q5, Q6.
      split; [exact I3|]. split; [exact N3|]. split; [exact C3|].
      split; [exact Sc3|]. split; [exact L3|]. split; [exact Back|].
      intros A. rewrite <- (Dead A) at 1. exact Q. }
    rewrite P. destruct (ended || flush).
    + apply (G afterSend); [intros q; apply sameButSent_afterSend, sameButSent_refl|].
      rewrite pget_pmap, E3. reflexivity.
    + rewrite <- (pmap_id (Net.players (Net.tickLives now s))).
      apply (G (fun q => q)); [intros q; apply sameButSent_refl|].
      rewrite pget_pmap, E3. reflexivity.
  - exact T.
  - intros D k p' E.
    assert (X : ended || flush = true).
    { destruct D as [D|D].
      - subst flush. apply orb_true_iff. right. apply Z.geb_le. lia.
      - destruct ended eqn:En; [reflexivity|]. exfalso.
        pose proof (physicsTick_running now s H R) as C.
        fold ended in C. rewrite En in C.
        destruct (control_read _ _ C) as (_ & R' & _).
        rewrite D in R'. cbn [c_roundActive control] in R'.
        change (Net.roundActive (Net.tickLives now s))
          with (c_roundActive (control (Net.tickLives now s))) in R'.
        rewrite control_tickLives in R'. cbn in R'. congruence. }
    rewrite P, X, pget_pmap in E.
    destruct (pget k (Net.players (Net.tickLives now s))) as [q|]; [|discriminate].
    injection E as <-. reflexivity.
Qed.

End Bookkeeping.

Lemma physicsTick_bookkeeping_witness :
  Net.isHost lastStand = true
  /\ Net.roundActive lastStand = true
  /\ keys (Net.players (Net.physicsTick (M := taylorMath) 6000 lastStand))
     = keys (Net.players lastStand)
  /\ Net.tickCounter (Net.physicsTick (M := taylorMath) 6000 lastStand) = 1.
Proof.
  assert (H : Net.isHost lastStand = true) by (vm_compute; reflexivity).
  assert (R : Net.roundActive lastStand = true) by (vm_compute; reflexivity).
  destruct (physicsTick_bookkeeping (M := taylorMath) 6000 lastStand H R)
    as (K & _ & T & _).
  split; [exact H|]. split; [exact R|]. split; [exact K|].
  rewrite T. vm_compute. reflexivity.
Defined.

(** * The bit-field index: whose sample is it *)

Lemma toUint16_small (z : Z) : 0 <= z < 65536 -> JS.toUint16 z = z.
Proof. intros H. unfold JS.toUint16. change (2 ^ 16) with 65536. apply Z.mod_small, H. Qed.

Lemma pointHits_same (x y : Q) : Game.pointHits x y x y = true.
Proof.
  apply pointHits_spec. unfold withinRadius, COLLISION_RADIUS_SQ, COLLISION_RADIUS.
  repeat split; lra.
Qed.

(** The cell of a position is among the nine cells visited around it. *)
Lemma playerHit_own_cell (g : Game.Globals) (p : Player.t) (myIndex : Z) :
  0 <= getCellIndex (Player.x p) (Player.y p) ->
  Game.bitfieldAt g (getCellIndex (Player.x p) (Player.y p)) <> 0 ->
  Game.cellHit g p myIndex (getCellIndex (Player.x p) (Player.y p)) = true ->
  Game.playerHit g p myIndex = true.
Proof.
  intros C B H. unfold Game.playerHit. cbv zeta.
  unfold getCellIndex in *. cbv zeta in *.
  set (col := JS.toInt32 (Player.x p / inject_Z GRID_CELL_SIZE)) in *.
  set (row := JS.toInt32 (Player.y p / inject_Z GRID_CELL_SIZE)) in *.
  destruct ((col <? 0) || (col >=? GRID_COLS) || (row <? 0) || (row >=? GRID_ROWS))
    eqn:E; [lia|].
  rewrite !orb_false_iff in E. destruct E as [[[E1 E2] E3] E4].
  apply existsb_exists. exists 0. split; [right; left; reflexivity|].
  apply existsb_exists. exists 0. split; [right; left; reflexivity|].
  rewrite !Z.add_0_r, E1, E2, E3, E4. cbn [orb].
  destruct (Game.bitfieldAt g (row * GRID_COLS + col) =? 0) eqn:Z0;
    [apply Z.eqb_eq in Z0; contradiction | exact H].
Qed.

Section OwnSample.
Context {M : MathLib}.

(** What [movePlayer] does to the index when the trail is not full, the
    bit field is allocated, the pool has room and the new position is
    inside the arena. *)
Lemma movePlayer_inserts (g : Game.Globals) (p : Player.t) (speed : Q) (bf : list Z) :
  Game.spatialBitfield g = Some bf ->
  Game.gridPointCount g < Game.MAX_GRID_ENTRIES ->
  Player.trailLen p < TRAIL_MAX ->
  0 <= getCellIndex (Game.nextX p speed) (Game.nextY p speed) ->
  fst (Game.movePlayer g p speed)
  = Game.markPoint g (getCellIndex (Game.nextX p speed) (Game.nextY p speed))
      (Game.nextX p speed) (Game.nextY p speed)
      (if Player.spawnIndex p + 1 =? 0 then 1 else Player.spawnIndex p + 1)
      (Player.trailLen p).
Proof.
  intros B C L I. unfold Game.movePlayer. cbv zeta.
  unfold Game.trailPush.
  cbn [Player.trailLen Player.set_pose Player.x Player.y Player.trailStart
       Player.trailX Player.trailY Player.trailSentCount].
  apply Z.ltb_lt in L. rewrite L.
  unfold Game.gridInsertPoint. rewrite B.
  cbn [Player.trailLen Player.set_trail Player.spawnIndex Player.set_pose Player.id].
  apply Z.geb_le in I. rewrite I.
  replace (Player.trailLen p + 1 - 1) with (Player.trailLen p) by lia.
  destruct (Game.outOfBounds _ _); reflexivity.
Qed.


End OwnSample.

(** ** The bit-field index after a rebuild *)

Lemma toUint8_small (z : Z) : 0 <= z < 256 -> JS.toUint8 z = z.
Proof. intros H. unfold JS.toUint8. change (2 ^ 8) with 256. apply Z.mod_small, H. Qed.

Lemma existsb_flat_map {A B} (f : B -> bool) (h : A -> list B) (l : list A) :
  existsb f (flat_map h l) = existsb (fun a => existsb f (h a)) l.
Proof.
  induction l as [|a l IH]; [reflexivity|].
  cbn [flat_map existsb]. rewrite existsb_app, IH. reflexivity.
Qed.

(** The loops over [dr] and [dc] visit the cells of [neighbourhood]. *)
Lemma playerHit_neighbourhood (g : Game.Globals) (p : Player.t) (myIndex : Z) :
  Game.playerHit g p myIndex
  = existsb (fun c => if Game.bitfieldAt g c =? 0 then false
                      else Game.cellHit g p myIndex c)
      (GameList.neighbourhood p).
Proof.
  unfold Game.playerHit, GameList.neighbourhood. cbv zeta.
  set (col := JS.toInt32 (Player.x p / inject_Z GRID_CELL_SIZE)).
  set (row := JS.toInt32 (Player.y p / inject_Z GRID_CELL_SIZE)).
  set (F := fun c => if Game.bitfieldAt g c =? 0 then false
                     else Game.cellHit g p myIndex c).
  assert (E : forall (c : bool) x,
             existsb F (if c then [] else [x]) = if c then false else F x).
  { intros [|] x; cbn [existsb]; [reflexivity | apply orb_false_r]. }
  rewrite existsb_flat_map. cbn [existsb].
  rewrite !existsb_flat_map. cbn [existsb]. rewrite !E. reflexivity.
Qed.

Lemma allocated_markPoint (g : Game.Globals) (c : Z) (x y : Q) (b pos : Z) :
  allocated g -> allocated (Game.markPoint g c x y b pos).
Proof.
  intros (bf & B & L). unfold allocated, Game.markPoint. cbn [Game.spatialBitfield].
  rewrite B. eexists. split; [reflexivity|]. rewrite length_aset. exact L.
Qed.

Lemma marked_markPoint (g : Game.Globals) (x y : Q) (b pos : Z) :
  allocated g -> marked g -> 0 <= getCellIndex x y -> JS.toUint8 b <> 0 ->
  marked (Game.markPoint g (getCellIndex x y) x y b pos).
Proof.
  intros (bf & B & L) Mk C NZ pt Hin.
  assert (R : 0 <= getCellIndex x y < GRID_TOTAL)
    by (destruct (getCellIndex_cases x y); lia).
  assert (Hb : forall c,
             Game.bitfieldAt (Game.markPoint g (getCellIndex x y) x y b pos) c
             = if c =? getCellIndex x y then JS.toUint8 b else Game.bitfieldAt g c).
  { intros c. unfold Game.bitfieldAt, Game.markPoint. cbn [Game.spatialBitfield].
    rewrite B. destruct (Z.eqb_spec c (getCellIndex x y)) as [->|Ne].
    - apply aget_aset_eq. rewrite L. lia.
    - apply aget_aset_ne. congruence. }
  rewrite Hb.
  destruct (Z.eqb_spec (getCellIndex (Game.ptX pt) (Game.ptY pt)) (getCellIndex x y))
    as [_|Ne]; [exact NZ|].
  apply Mk. revert Hin. unfold Game.markPoint. cbn [Game.gridPoints].
  destruct (Game.gridPointCount g <? Game.MAX_GRID_ENTRIES); [|tauto].
  intros Hin. apply in_app_or in Hin. destruct Hin as [H|[<-|[]]]; [exact H|].
  cbn [Game.ptX Game.ptY] in Ne. congruence.
Qed.

(** The loop of a rebuild over the samples of one competitor, [F] being
    its body. *)
Lemma rebuildPlayer_pool (F : Game.Globals -> Z -> Game.Globals) (rank : Z)
    (p : Player.t) (l : list Z) (g : Game.Globals) :
  (forall g i,
     F g i = if sampleCell p i >=? 0
             then Game.markPoint g (sampleCell p i) (fst (trailSample p i))
                    (snd (trailSample p i)) rank i
             else g) ->
  allocated g -> marked g -> JS.toUint8 rank <> 0 ->
  Game.gridPointCount g + Z.of_nat (length l) <= Game.MAX_GRID_ENTRIES ->
  allocated (fold_left F l g) /\ marked (fold_left F l g)
  /\ Game.gridPointCount (fold_left F l g) <= Game.gridPointCount g + Z.of_nat (length l)
  /\ forall pt, In pt (Game.gridPoints (fold_left F l g))
       <-> In pt (Game.gridPoints g)
           \/ exists i, In i l /\ 0 <= sampleCell p i /\ pt = poolPoint rank p i.
Proof.
  intros HF Al Mk NZ. revert g Al Mk. induction l as [|i l IH]; intros g Al Mk Cap.
  - cbn [fold_left length]. split; [exact Al|]. split; [exact Mk|]. split; [lia|].
    intros pt. split; [tauto|]. intros [H|(i & [] & _)]. exact H.
  - cbn [fold_left]. cbn [length] in Cap. rewrite Nat2Z.inj_succ in Cap.
    cbn [length]. rewrite Nat2Z.inj_succ. rewrite HF.
    destruct (sampleCell p i >=? 0) eqn:C.
    + apply Z.geb_le in C.
      set (g1 := Game.markPoint g (sampleCell p i) (fst (trailSample p i))
                   (snd (trailSample p i)) rank i).
      assert (P1 : Game.gridPoints g1 = Game.gridPoints g ++ [poolPoint rank p i]).
      { subst g1. unfold Game.markPoint. cbn [Game.gridPoints].
        destruct (Game.gridPointCount g <? Game.MAX_GRID_ENTRIES) eqn:T;
          [reflexivity | apply Z.ltb_ge in T; lia]. }
      assert (C1 : Game.gridPointCount g1 = Game.gridPointCount g + 1).
      { unfold Game.gridPointCount. rewrite P1, length_app. cbn [length]. lia. }
      destruct (IH g1) as (Al' & Mk' & Cn' & In').
      * apply allocated_markPoint, Al.
      * subst g1. apply (marked_markPoint g _ _ rank i Al Mk C NZ).
      * lia.
      * split; [exact Al'|]. split; [exact Mk'|]. split; [lia|].
        intros pt. rewrite In', P1, in_app_iff. cbn [In]. split.
        -- intros [[H|[<-|[]]]|(j & Hj & Cj & ->)].
           ++ left. exact H.
           ++ right. exists i. split; [left; reflexivity|]. split; [exact C | reflexivity].
           ++ right. exists j. split; [right; exact Hj|]. split; [exact Cj | reflexivity].
        -- intros [H|(j & [<-|Hj] & Cj & ->)].
           ++ left. left. exact H.
           ++ left. right. left. reflexivity.
           ++ right. exists j. split; [exact Hj|]. split; [exact Cj | reflexivity].
    + rewrite Z.geb_leb in C. apply Z.leb_gt in C.
      destruct (IH g Al Mk) as (Al' & Mk' & Cn' & In'); [lia|].
      split; [exact Al'|]. split; [exact Mk'|]. split; [lia|].
      intros pt. rewrite In'. split.
      * intros [H|(j & Hj & Cj & ->)]; [left; exact H|].
        right. exists j. split; [right; exact Hj|]. split; [exact Cj | reflexivity].
      * intros [H|(j & [<-|Hj] & Cj & ->)]; [left; exact H | lia |].
        right. exists j. split; [exact Hj|]. split; [exact Cj | reflexivity].
Qed.

(** The loop of a rebuild over the dictionary. *)
Lemma rebuildLoop_pool (ps : Players) (idx : Z) (g : Game.Globals) :
  allocated g -> marked g -> 0 <= idx -> idx + Z.of_nat (length ps) < 256 ->
  Game.gridPointCount g + livingSamples ps <= Game.MAX_GRID_ENTRIES ->
  allocated (Game.rebuildLoop idx ps g) /\ marked (Game.rebuildLoop idx ps g)
  /\ forall pt, In pt (Game.gridPoints (Game.rebuildLoop idx ps g))
       <-> In pt (Game.gridPoints g)
           \/ exists n k o i,
                ps !! n = Some (k, o) /\ Player.alive o = true
                /\ 0 <= i < Player.trailLen o /\ 0 <= sampleCell o i
                /\ pt = poolPoint (idx + Z.of_nat n + 1) o i.
Proof.
  revert idx g. induction ps as [|[k p] r IH]; intros idx g Al Mk I0 I1 Cap.
  - cbn [Game.rebuildLoop]. split; [exact Al|]. split; [exact Mk|].
    intros pt. split; [tauto|]. intros [H|(n & k & o & i & E & _)]; [exact H|].
    rewrite lookup_nil in E. discriminate E.
  - cbn [Game.rebuildLoop]. cbv zeta. cbn [length livingSamples] in I1, Cap.
    assert (LS : 0 <= livingSamples r).
    { clear. induction r as [|[k q] r IH]; cbn [livingSamples]; [lia|].
      destruct (Player.alive q); lia. }
    destruct (Player.alive p) eqn:A.
    + unfold Game.rebuildPlayer.
      destruct (rebuildPlayer_pool _ (idx + 1) p (JS.range (Player.trailLen p)) g
                  (fun g i => eq_refl) Al Mk)
        as (Al1 & Mk1 & Cn1 & In1).
      { rewrite toUint8_small by lia. lia. }
      { rewrite length_range. lia. }
      rewrite length_range in Cn1.
      destruct (IH (idx + 1) _ Al1 Mk1) as (Al2 & Mk2 & In2); [lia | lia | lia |].
      split; [exact Al2|]. split; [exact Mk2|].
      intros pt. rewrite In2, In1. split.
      * intros [[H|(i & Hi & Ci & ->)]|(n & k' & o & i & E & Ao & Hi & Ci & ->)].
        -- left. exact H.
        -- right. exists 0%nat, k, p, i. apply In_range in Hi.
           split; [reflexivity|]. split; [exact A|]. split; [exact Hi|].
           split; [exact Ci|]. f_equal. lia.
        -- right. exists (S n), k', o, i.
           split; [exact E|]. split; [exact Ao|]. split; [exact Hi|].
           split; [exact Ci|]. f_equal. lia.
      * intros [H|(n & k' & o & i & E & Ao & Hi & Ci & ->)]; [left; left; exact H|].
        destruct n as [|n].
        -- cbn in E. injection E as <- <-. left. right. exists i.
           split; [apply In_range; exact Hi|]. split; [exact Ci|]. f_equal. lia.
        -- right. exists n, k', o, i.
           split; [exact E|]. split; [exact Ao|]. split; [exact Hi|].
           split; [exact Ci|]. f_equal. lia.
    + destruct (IH (idx + 1) g Al Mk) as (Al2 & Mk2 & In2); [lia | lia | lia |].
      split; [exact Al2|]. split; [exact Mk2|].
      intros pt. rewrite In2. split.
      * intros [H|(n & k' & o & i & E & Ao & Hi & Ci & ->)]; [left; exact H|].
        right. exists (S n), k', o, i.
        split; [exact E|]. split; [exact Ao|]. split; [exact Hi|].
        split; [exact Ci|]. f_equal. lia.
      * intros [H|(n & k' & o & i & E & Ao & Hi & Ci & ->)]; [left; exact H|].
        destruct n as [|n].
        -- cbn in E. injection E as <- <-. congruence.
        -- right. exists n, k', o, i.
           split; [exact E|]. split; [exact Ao|]. split; [exact Hi|].
           split; [exact Ci|]. f_equal. lia.
Qed.

Lemma livingSamples_bound (ps : Players) (n : nat) (k : string) (o : Player.t) :
  ps !! n = Some (k, o) -> Player.alive o = true ->
  Player.trailLen o <= livingSamples ps.
Proof.
  assert (LS : forall r, 0 <= livingSamples r).
  { induction r as [|[k' q] r IH]; cbn [livingSamples]; [lia|].
    destruct (Player.alive q); lia. }
  revert n. induction ps as [|[k' q] r IH]; intros n E A.
  - rewrite lookup_nil in E. discriminate E.
  - cbn [livingSamples]. destruct n as [|n].
    + cbn in E. injection E as <- <-. rewrite A. specialize (LS r). lia.
    + cbn in E. specialize (IH n E A). destruct (Player.alive q); lia.
Qed.

(** The pool and the bit field a rebuild leaves. *)
Lemma rebuildSpatialGrid_pool (g : Game.Globals) (ps : Players) :
  poolOk g -> Z.of_nat (length ps) < 256 ->
  livingSamples ps <= Game.MAX_GRID_ENTRIES ->
  marked (Game.rebuildSpatialGrid g ps)
  /\ forall pt, In pt (Game.gridPoints (Game.rebuildSpatialGrid g ps))
       <-> exists n k o i,
             ps !! n = Some (k, o) /\ Player.alive o = true
             /\ 0 <= i < Player.trailLen o /\ 0 <= sampleCell o i
             /\ pt = poolPoint (Z.of_nat n + 1) o i.
Proof.
  intros [_ Lb] N Cap. unfold Game.rebuildSpatialGrid. cbv zeta.
  set (g1 := match Game.spatialBitfield g with
             | Some _ => g
             | None => _
             end).
  assert (Al : allocated (Game.clearBitfield g1)).
  { unfold allocated, Game.clearBitfield. cbn [Game.spatialBitfield]. subst g1.
    destruct (Game.spatialBitfield g) as [bf|] eqn:B.
    - rewrite B. eexists. split; [reflexivity|].
      rewrite length_replicate. apply Lb. reflexivity.
    - cbn [Game.spatialBitfield]. eexists. split; [reflexivity|].
      unfold Game.createBitfield. rewrite !length_replicate. reflexivity. }
  assert (Mk : marked (Game.clearBitfield g1)) by (intros pt []).
  destruct (rebuildLoop_pool ps 0 (Game.clearBitfield g1) Al Mk) as (_ & Mk' & In');
    [lia | lia | unfold Game.gridPointCount; cbn; lia |].
  split.
  - intros pt Hin. exact (Mk' pt Hin).
  - intros pt. cbn [Game.set_gridDirty Game.gridPoints]. rewrite In'.
    cbn [Game.clearBitfield Game.gridPoints In]. split.
    + intros [[]|H]. exact H.
    + intros H. right. exact H.
Qed.

(** X23.  With the bit-field index, too, the grid is only an optimisation,
    as long as the pool holds every sample: with fewer than 256
    competitors whose living ones hold at most [MAX_GRID_ENTRIES] samples,
    on a freshly rebuilt index a competitor inside the arena, examined
    under the index [myIndex], is hit if and only if some sample of a
    living competitor that has a cell lies within the collision radius and
    is not passed over: a sample of the competitor at place [myIndex] of
    the dictionary is passed over when it is among the last 20 positions
    counted on the trail of the examined competitor, a sample of any other
    competitor when its position is 598 or more. *)
Theorem bitfield_hit_iff_lethal_sample (g : Game.Globals) (ps : Players)
    (p : Player.t) (myIndex : Z) :
  poolOk g ->
  Z.of_nat (length ps) < 256 ->
  livingSamples ps <= Game.MAX_GRID_ENTRIES ->
  Game.outOfBounds (Player.x p) (Player.y p) = false ->
  (Game.playerHit (Game.rebuildSpatialGrid g ps) p myIndex = true
   <-> bitfieldLethal ps p myIndex).
Proof.
  intros Ok N Cap Ar. apply outOfBounds_false in Ar.
  destruct (rebuildSpatialGrid_pool g ps Ok N Cap) as [Mk Pool].
  assert (Sk : forall n k o i,
             ps !! n = Some (k, o) -> Player.alive o = true ->
             0 <= i < Player.trailLen o ->
             Game.pointSkipped p myIndex (poolPoint (Z.of_nat n + 1) o i) = false
             <-> (if Z.of_nat n + 1 =? myIndex
                  then i < Player.trailLen p - COLLISION_SKIP_OWN
                  else i < 598)).
  { intros n k o i E A Hi.
    pose proof (livingSamples_bound ps n k o E A) as Bd.
    apply lookup_lt_Some in E.
    unfold Game.MAX_GRID_ENTRIES, TRAIL_MAX in Cap.
    unfold Game.pointSkipped, poolPoint. cbn [Game.ptPlayer Game.ptTrailPos].
    rewrite toUint8_small by lia. rewrite toUint16_small by lia.
    destruct (Z.of_nat n + 1 =? myIndex).
    - rewrite Z.geb_leb, Z.leb_gt. lia.
    - rewrite Z.geb_leb, Z.leb_gt. lia. }
  rewrite playerHit_neighbourhood, existsb_exists. unfold bitfieldLethal. split.
  - intros (c & Hc & H).
    destruct (Game.bitfieldAt (Game.rebuildSpatialGrid g ps) c =? 0); [discriminate H|].
    unfold Game.cellHit in H. apply existsb_exists in H.
    destruct H as (pt & Hin & H).
    apply Pool in Hin. destruct Hin as (n & k & o & i & E & A & Hi & Ci & ->).
    destruct (negb _); [discriminate H|].
    destruct (Game.pointSkipped p myIndex (poolPoint (Z.of_nat n + 1) o i)) eqn:S;
      [discriminate H|].
    exists n, k, o, i. split; [exact E|]. split; [exact A|]. split; [exact Hi|].
    split; [exact Ci|]. split; [apply (Sk n k o i E A Hi); exact S|].
    apply pointHits_spec. exact H.
  - intros (n & k & o & i & E & A & Hi & Ci & Hs & W).
    assert (Hin : In (poolPoint (Z.of_nat n + 1) o i)
                    (Game.gridPoints (Game.rebuildSpatialGrid g ps))).
    { apply Pool. exists n, k, o, i. repeat split; try assumption; lia. }
    exists (sampleCell o i). split; [exact (neighbourhood_near p _ _ Ar W Ci)|].
    pose proof (Mk _ Hin) as NZ. cbn [poolPoint Game.ptX Game.ptY] in NZ.
    fold (sampleCell o i) in NZ.
    destruct (Z.eqb_spec (Game.bitfieldAt (Game.rebuildSpatialGrid g ps) (sampleCell o i)) 0)
      as [Z0|_]; [contradiction|].
    unfold Game.cellHit. apply existsb_exists.
    exists (poolPoint (Z.of_nat n + 1) o i). split; [exact Hin|].
    cbv beta.
    assert (Hc : getCellIndex (Game.ptX (poolPoint (Z.of_nat n + 1) o i))
                   (Game.ptY (poolPoint (Z.of_nat n + 1) o i)) = sampleCell o i)
      by reflexivity.
    rewrite Hc, Z.eqb_refl. cbn [negb].
    rewrite (proj2 (Sk n k o i E A Hi) Hs).
    apply pointHits_spec. exact W.
Qed.

(** * Invariants of the states the host reaches *)

Lemma poolOk_ext (g g' : Game.Globals) :
  Game.spatialBitfield g' = Game.spatialBitfield g ->
  Game.gridPoints g' = Game.gridPoints g ->
  poolOk g -> poolOk g'.
Proof.
  intros B P [C L]. unfold poolOk, Game.gridPointCount in *. rewrite B, P.
  split; assumption.
Qed.

Lemma poolOk_initial : poolOk Game.initial.
Proof.
  split; [unfold Game.gridPointCount, Game.MAX_GRID_ENTRIES, TRAIL_MAX; cbn; lia|].
  intros bf E. discriminate E.
Qed.

Lemma game_emit (e : Net.Event) (s : Net.t) : Net.game (Net.emit e s) = Net.game s.
Proof. reflexivity. Qed.

Lemma game_addTimer (k : Net.TimerKind) (ms : Z) (s : Net.t) :
  Net.game (Net.addTimer k ms s) = Net.game s.
Proof. reflexivity. Qed.

Lemma pool_broadcastState (now : Z) (s : Net.t) :
  poolOk (Net.game s) -> poolOk (Net.game (Net.broadcastState now s)).
Proof.
  intros P. unfold Net.broadcastState. destruct (negb (Net.isHost s)); [exact P|].
  pose proof (poolOk_serializeGameState (Net.game s) (Net.players s) (Net.roundActive s)
                (Net.countdown s) (Net.roundStartTime s) (Net.matchWinner s) now P) as Q.
  destruct (Game.serializeGameState _ _ _ _ _ _ _) as [[state g1] ps1]. exact Q.
Qed.

Lemma pool_broadcastPlayerList (s : Net.t) :
  poolOk (Net.game s) -> poolOk (Net.game (Net.broadcastPlayerList s)).
Proof.
  intros P. unfold Net.broadcastPlayerList. destruct (negb (Net.isHost s)); exact P.
Qed.

Lemma pool_resetStaticSent (s : Net.t) :
  poolOk (Net.game s) -> poolOk (Net.game (Net.resetStaticSent s)).
Proof. apply poolOk_ext; reflexivity. Qed.

Lemma pool_startRound (now : Z) (s : Net.t) :
  poolOk (Net.game s) -> poolOk (Net.game (Net.startRound now s)).
Proof.
  intros P. unfold Net.startRound. destruct (negb (Net.isHost s)); [exact P|].
  pose proof (poolOk_startRound (Net.game s) (Net.players s) P) as Q.
  destruct (Game.startRound (Net.game s) (Net.players s)) as [g1 ps1].
  unfold Net.startPhysicsLoop, Net.stopPhysicsLoop. cbn.
  destruct (Net.physicsInterval s); exact Q.
Qed.

Lemma pool_runCountdown (s : Net.t) :
  poolOk (Net.game s) -> poolOk (Net.game (Net.runCountdown s)).
Proof.
  intros P. unfold Net.runCountdown. destruct (negb (Net.isHost s)); exact P.
Qed.

Lemma pool_countdownTick (h : nat) (now : Z) (s : Net.t) :
  poolOk (Net.game s) -> poolOk (Net.game (Net.countdownTick h now s)).
Proof.
  intros P. unfold Net.countdownTick. cbv zeta.
  assert (Q : poolOk (Net.game
                        (Net.broadcastState now
                           (Net.resetStaticSent
                              (Net.set_countdown (Net.countdown s - 1) s))))).
  { apply pool_broadcastState, pool_resetStaticSent. exact P. }
  destruct (_ <=? 0); [|exact Q].
  apply pool_startRound. exact Q.
Qed.

Lemma pool_startGame (now : Z) (s : Net.t) :
  poolOk (Net.game s) -> poolOk (Net.game (Net.startGame now s)).
Proof.
  intros P. unfold Net.startGame. destruct (negb (Net.isHost s)); [exact P|].
  destruct (_ <? 2); [exact P|]. cbv zeta.
  apply pool_runCountdown.
  rewrite game_emit. apply pool_broadcastState.
  exact (poolOk_ext (Net.game s) _ eq_refl eq_refl P).
Qed.

Lemma pool_autoRestart (h : nat) (now : Z) (s : Net.t) :
  poolOk (Net.game s) -> poolOk (Net.game (Net.autoRestart h now s)).
Proof.
  intros P. unfold Net.autoRestart. cbv zeta.
  destruct (Net.gameStarted (Net.clearTimer h s)); [|exact P].
  apply pool_runCountdown, pool_broadcastState, pool_resetStaticSent. exact P.
Qed.

Lemma pool_handleJoin (now : Z) (conn playerId : string) (name : JS.value) (s : Net.t) :
  poolOk (Net.game s) -> poolOk (Net.game (Net.handleJoin now conn playerId name s)).
Proof.
  intros P. destruct (Net.isHost s) eqn:H.
  - destruct (name_it (Net.resetStaticSent
                         (Net.set_players
                            (pset playerId
                               (createPlayer playerId
                                  (Z.of_nat (length (keys (Net.players s)))) name)
                               (Net.players s)) s))) as [s1 E1].
    destruct (name_it
                (Net.add_log [Net.Send conn (Net.MsgInit playerId (snapshot now s1))]
                   (Net.set_players (pmap afterSend (Net.players s1))
                      (Net.set_game
                         (snd (fst (Game.serializeGameState (Net.game s1)
                                      (Net.players s1) (Net.roundActive s1)
                                      (Net.countdown s1) (Net.roundStartTime s1)
                                      (Net.matchWinner s1) now))) s1)))) as [s2 E2].
    destruct (name_it
                (if Net.gameStarted s2
                 then match pget playerId (Net.players s2) with
                      | Some p =>
                          Net.set_players
                            (pset playerId (Player.set_alive false p) (Net.players s2))
                            s2
                      | None => s2
                      end
                 else s2)) as [s3 E3].
    destruct (name_it
                (Net.resetStaticSent
                   (Net.broadcastPlayerList
                      (Net.emit (Net.EvPlayerJoined playerId name) s3)))) as [s4 E4].
    rewrite (handleJoin_host now conn playerId name s s1 s2 s3 s4 H E1 E2 E3 E4).
    assert (P1 : poolOk (Net.game s1)).
    { rewrite E1. revert P. apply poolOk_ext; reflexivity. }
    assert (P2 : poolOk (Net.game s2)).
    { rewrite E2. cbn [Net.game Net.add_log Net.set_players Net.set_game].
      apply poolOk_serializeGameState. exact P1. }
    assert (P3 : poolOk (Net.game s3)).
    { rewrite E3. destruct (Net.gameStarted s2); [|exact P2].
      destruct (pget playerId (Net.players s2)); exact P2. }
    assert (P4 : poolOk (Net.game s4)).
    { rewrite E4. apply pool_resetStaticSent, pool_broadcastPlayerList. exact P3. }
    cbn [Net.game Net.add_log Net.set_players Net.set_game].
    apply poolOk_serializeGameState. exact P4.
  - unfold Net.handleJoin. rewrite H. exact P.
Qed.

Lemma pool_handleMessage (now : Z) (conn : string) (data : Net.Message) (s : Net.t) :
  poolOk (Net.game s) -> poolOk (Net.game (Net.handleMessage now conn data s)).
Proof.
  intros P. destruct data as [pid name | pid st | | st | list | | uid tu];
    cbn [Net.handleMessage].
  - apply pool_handleJoin. exact P.
  - exact P.
  - destruct (negb (Net.isHost s)); exact P.
  - exact P.
  - destruct (negb (Net.isHost s)); exact P.
  - destruct (Net.isHost s && Net.truthy (Net.matchWinner s));
      [apply pool_startGame|]; exact P.
  - destruct (Net.isHost s); exact P.
Qed.

Section PoolReach.
Context {M : MathLib}.

Lemma poolOk_movePlayer (g : Game.Globals) (p : Player.t) (speed : Q) :
  poolOk g -> poolOk (fst (Game.movePlayer g p speed)).
Proof.
  intros P. unfold Game.movePlayer. cbv zeta.
  pose proof (poolOk_trailPush g
                (Player.set_pose (Game.nextX p speed) (Game.nextY p speed)
                   (Game.nextAngle p) p)
                (Game.nextX p speed) (Game.nextY p speed) P) as Q.
  cbn [Player.x Player.y Player.set_pose].
  destruct (Game.trailPush g _ _ _) as [g2 p2]. cbn [fst] in Q.
  destruct (Game.outOfBounds _ _); exact Q.
Qed.

Lemma poolOk_moveAll (speed : Q) (g : Game.Globals) (ps : Players) :
  poolOk g -> poolOk (fst (Net.moveAll speed g ps)).
Proof.
  revert g. induction ps as [|[k p] r IH]; intros g P; [exact P|].
  cbn [Net.moveAll].
  assert (Q : poolOk (fst (if Player.alive p then Game.movePlayer g p speed else (g, p)))).
  { destruct (Player.alive p); [apply poolOk_movePlayer|]; exact P. }
  destruct (if Player.alive p then Game.movePlayer g p speed else (g, p)) as [g1 p1].
  specialize (IH g1 Q). destruct (Net.moveAll speed g1 r) as [g2 r1]. exact IH.
Qed.

Lemma pool_tickLives (now : Z) (s : Net.t) :
  poolOk (Net.game s) -> poolOk (Net.game (Net.tickLives now s)).
Proof.
  intros P. unfold Net.tickLives, Net.tickCollide, Net.tickMove.
  pose proof (poolOk_moveAll (getGameSpeed (Net.roundStartTime s) now) (Net.game s)
                (Net.players s) P) as Q.
  destruct (Net.moveAll _ _ _) as [g1 ps1]. cbn [fst] in Q.
  pose proof (poolOk_checkCollisions g1 ps1 Q) as Q2.
  destruct (Game.checkCollisions g1 ps1) as [g2 ps2]. exact Q2.
Qed.

Lemma pool_roundEnd (now : Z) (s : Net.t) :
  poolOk (Net.game s) -> poolOk (Net.game (Net.roundEnd now s)).
Proof.
  intros P. unfold Net.roundEnd. cbv zeta.
  set (s1 := Net.stopPhysicsLoop (Net.set_roundActive false s)).
  assert (P1 : poolOk (Net.game s1)).
  { subst s1. unfold Net.stopPhysicsLoop. cbn. destruct (Net.physicsInterval s); exact P. }
  destruct (Z.of_nat (length (Net.withLives (Net.players s1))) <=? 1).
  - apply pool_broadcastState, pool_broadcastPlayerList, pool_resetStaticSent.
    destruct (Z.of_nat (length (Net.withLives (Net.players s1))) =? 1); exact P1.
  - rewrite game_addTimer.
    apply pool_broadcastState, pool_broadcastPlayerList, pool_resetStaticSent. exact P1.
Qed.

Lemma pool_physicsTick (now : Z) (s : Net.t) :
  poolOk (Net.game s) -> poolOk (Net.game (Net.physicsTick now s)).
Proof.
  intros P. unfold Net.physicsTick.
  destruct (negb (Net.isHost s) || negb (Net.roundActive s)).
  - unfold Net.stopPhysicsLoop. destruct (Net.physicsInterval s); exact P.
  - cbv zeta.
    assert (Q : poolOk (Net.game
                          (if Net.aliveCount (Net.players (Net.tickLives now s)) <=? 1
                           then Net.roundEnd now (Net.tickLives now s)
                           else Net.tickLives now s))).
    { destruct (_ <=? 1); [apply pool_roundEnd|]; apply pool_tickLives; exact P. }
    match goal with
    | |- context [if ?c then Net.broadcastState _ _ else _] => destruct c
    end.
    + apply pool_broadcastState. exact Q.
    + exact Q.
Qed.

(** X18.  The point pool of the spatial index stays within its
    capacity.  In every state the host reaches from the creation of its
    room, through connections, messages of any kind, start requests,
    countdown and restart timers and physics ticks, the pool holds at
    most [MAX_GRID_ENTRIES] points and the bit field, once allocated, has
    one byte for every cell of the grid. *)
Theorem pool_within_capacity (s : Net.t) :
  hostReachable s ->
  Game.gridPointCount (Net.game s) <= Game.MAX_GRID_ENTRIES
  /\ forall bf, Game.spatialBitfield (Net.game s) = Some bf ->
                length bf = Z.to_nat GRID_TOTAL.
Proof.
  intros R. change (poolOk (Net.game s)).
  induction R as [id playerName | s s' _ IH St].
  - exact poolOk_initial.
  - destruct St.
    + exact IH.
    + apply pool_handleMessage. exact IH.
    + apply pool_startGame. exact IH.
    + apply pool_countdownTick. exact IH.
    + apply pool_autoRestart. exact IH.
    + apply pool_physicsTick. exact IH.
Qed.

End PoolReach.

(** The round of [roundStarted] is reached from the creation of the room. *)
Lemma roundStarted_reachable : hostReachable (M := taylorMath) roundStarted.
Proof.
  unfold roundStarted.
  eapply ReachStep; [|apply StepCountdown; vm_compute; left; reflexivity].
  eapply ReachStep; [|apply StepCountdown; vm_compute; left; reflexivity].
  eapply ReachStep; [|apply StepCountdown; vm_compute; left; reflexivity].
  eapply ReachStep; [|apply StepStartGame].
  unfold lobbyTwo.
  eapply ReachStep; [|apply StepMessage].
  eapply ReachStep; [|apply StepConnection].
  unfold lobbyAlone. apply ReachCreate.
Qed.

Lemma pool_within_capacity_witness :
  hostReachable (M := taylorMath) roundStarted
  /\ Game.gridPointCount (Net.game roundStarted) <= Game.MAX_GRID_ENTRIES.
Proof.
  split; [exact roundStarted_reachable|].
  exact (proj1 (pool_within_capacity (M := taylorMath) roundStarted
                  roundStarted_reachable)).
Defined.



Lemma bitfield_hit_iff_lethal_sample_witness :
  livingSamples headOn = 7
  /\ Game.playerHit (Game.rebuildSpatialGrid Game.initial headOn)
       (rider "1234" 0 108 100 [(221 # 2, 100); (108, 100)]%Q) 1 = true
  /\ bitfieldLethal headOn (rider "1234" 0 108 100 [(221 # 2, 100); (108, 100)]%Q) 1.
Proof.
  split; [vm_compute; reflexivity|].
  assert (H : Game.playerHit (Game.rebuildSpatialGrid Game.initial headOn)
                (rider "1234" 0 108 100 [(221 # 2, 100); (108, 100)]%Q) 1 = true)
    by (vm_compute; reflexivity).
  split; [exact H|].
  refine (proj1 (bitfield_hit_iff_lethal_sample Game.initial headOn
                   (rider "1234" 0 108 100 [(221 # 2, 100); (108, 100)]%Q) 1
                   poolOk_initial _ _ _) H).
  - vm_compute. reflexivity.
  - vm_compute. discriminate.
  - vm_compute. reflexivity.
Defined.
